(** * Survey pipeline utilities: a shallow embedding and its properties

    The development follows the Python sources of the repository:
    - [completion_codes_config.py]  (module [CompletionCodes]),
    - [generate_review_plan.py]     (module [ReviewPlan]),
    - [URL_database.py]             (module [UrlDatabase]),
    - [qualtrics_database.py]       (module [QualtricsDatabase]),
    - [PDF_upload.py]               (module [LatinSquare]).

    Python dictionaries are finite maps ([gmap]) unless their iteration
    order is observed, in which case they are association lists.  Python
    [None] is [None] of an [option], or the constructor [VNull] of stored
    values.  Calls to [random] take their random draws from an explicit
    oracle. *)

From Stdlib Require Import ZArith Lia List Permutation Ascii String.
From stdpp Require Import gmap strings list sorting pretty.

Open Scope string_scope.

(** ** Python string methods used by the scripts

    Strings are ASCII text, which is what the CSV flags and the codes they
    are compared with are; on such text the methods below act as Python's
    do.  (On other characters Python strips further white space and maps
    further letters; none of the properties proved below depends on which
    strings count as a set flag.) *)
Module PyStr.

(** [str.isspace] on one character: TAB, LF, VT, FF, CR, FS, GS, RS, US
    and the space. *)
Definition isspace (c : ascii) : bool :=
  let n := nat_of_ascii c in
  ((9 <=? n)%nat && (n <=? 13)%nat) || ((28 <=? n)%nat && (n <=? 32)%nat).

Fixpoint lstrip_chars (l : list ascii) : list ascii :=
  match l with
  | c :: l' => if isspace c then lstrip_chars l' else l
  | [] => []
  end.

Definition strip_chars (l : list ascii) : list ascii :=
  rev (lstrip_chars (rev (lstrip_chars l))).

(** [s.strip()] *)
Definition strip (s : string) : string :=
  string_of_list_ascii (strip_chars (list_ascii_of_string s)).




(** Truthiness of a string: [bool(s)]. *)
Definition truthy (s : string) : bool :=
  match s with EmptyString => false | _ => true end.

(** [d.get(k, '')] on a dictionary of strings. *)
Definition get_str (d : gmap string string) (k : string) : string :=
  default "" (d !! k).

End PyStr.

(** ** completion_codes_config.py *)
Module CompletionCodes.
Import PyStr.

(** The dictionary literal, in insertion order ([get_code_name] iterates
    over [COMPLETION_CODES.items()]). *)
Definition COMPLETION_CODES : list (string * string) :=
  [ ("APPROVED", "C1G9PC0D");
    ("SCREENED_OUT", "C1NFUEQ1");
    ("FAILED_ATTENTION", "C1M8R1Y4");
    ("NO_CONSENT", "COISODYI") ].

Fixpoint assoc (k : string) (d : list (string * string)) : option string :=
  match d with
  | [] => None
  | (k', v) :: d' => if String.eqb k' k then Some v else assoc k d'
  end.

(** [COMPLETION_CODES[name]]; the subscripts in the source are the four
    literal keys, for which the lookup is defined (see [subscripts_defined]),
    so the [KeyError] branch is never taken. *)
Definition code (name : string) : string :=
  default "" (assoc name COMPLETION_CODES).

Definition names : list string := fst <$> COMPLETION_CODES.
Definition values : list string := snd <$> COMPLETION_CODES.





Definition get_api_action_for_completion_code (completion_code : string) : string :=
  if String.eqb completion_code (code "APPROVED") then "SKIP"
  else if String.eqb completion_code (code "SCREENED_OUT") then "SCREEN_OUT"
  else if bool_decide (completion_code ∈ [code "FAILED_ATTENTION"; code "NO_CONSENT"])
       then "REJECT"
  else "MANUAL_REVIEW".

(** The [for name, code in COMPLETION_CODES.items()] loop of
    [get_code_name]. *)
Fixpoint find_name (completion_code : string) (items : list (string * string))
  : option string :=
  match items with
  | [] => None
  | (name, c) :: rest =>
      if String.eqb c completion_code then Some name
      else find_name completion_code rest
  end.

Definition get_code_name (completion_code : string) : string :=
  if negb (truthy completion_code) then ""
  else match find_name completion_code COMPLETION_CODES with
       | Some name => name
       | None => "UNKNOWN(" ++ completion_code ++ ")"
       end.

Definition is_known_completion_code (completion_code : string) : bool :=
  bool_decide (completion_code ∈ values).

Definition get_all_completion_codes : list string := values.

(** The dictionary that [analyze_completion_code] returns. *)
Record code_analysis : Type := {
  analysed_code : string;
  known : bool;
  meaning : string;
  expected_outcome : string;
  description : string
}.

(** The local dictionaries of [analyze_completion_code]. *)
Definition expected_outcomes : list (string * string) :=
  [ ("APPROVED", "AUTO_APPROVE");
    ("SCREENED_OUT", "SCREENED_OUT_WITH_PAYMENT");
    ("FAILED_ATTENTION", "REJECT");
    ("NO_CONSENT", "REJECT") ].

Definition descriptions : list (string * string) :=
  [ ("APPROVED", "Participant completed successfully and should be auto-approved");
    ("SCREENED_OUT", "Participant was screened out and should receive screening payment");
    ("FAILED_ATTENTION", "Participant failed attention checks and should be rejected");
    ("NO_CONSENT", "Participant did not provide consent and should be rejected") ].

Definition analyze_completion_code (completion_code : string) : code_analysis :=
  if negb (truthy completion_code) then
    {| analysed_code := "";
       known := false;
       meaning := "NO_CODE";
       expected_outcome := "UNKNOWN";
       description := "No completion code provided" |}
  else if bool_decide (completion_code ∈ values) then
    let code_name := get_code_name completion_code in
    {| analysed_code := completion_code;
       known := true;
       meaning := code_name;
       expected_outcome := default "UNKNOWN" (assoc code_name expected_outcomes);
       description := default "Known completion code" (assoc code_name descriptions) |}
  else
    {| analysed_code := completion_code;
       known := false;
       meaning := "UNKNOWN(" ++ completion_code ++ ")";
       expected_outcome := "MANUAL_REVIEW";
       description := "Unknown completion code " ++ completion_code
                      ++ " - requires manual review" |}.

End CompletionCodes.

(** ** generate_review_plan.py *)
Module ReviewPlan.
Import PyStr.

(** A submission is the JSON object returned by the remote API: a key is
    absent, or bound to [null] ([Some None]) or to a string. *)
Definition submission : Type := gmap string (option string).

(** [sub.get(k)] *)
Definition sub_get (sub : submission) (k : string) : option string :=
  default None (sub !! k).

(** [sub.get(k, '')] *)
Definition sub_get_or_empty (sub : submission) (k : string) : option string :=
  default (Some "") (sub !! k).

(** Truthiness of a value that is [None] or a string. *)
Definition truthy_opt (v : option string) : bool :=
  match v with Some s => truthy s | None => false end.

(** [v in [a, b]] for [v] that is [None] or a string. *)
Definition opt_in (v : option string) (l : list string) : bool :=
  match v with Some s => bool_decide (s ∈ l) | None => false end.

(** [participant_id in participant_data] and [participant_data[participant_id]]
    in one lookup; [None] is not a key of the dictionary. *)
Definition find_row (participant_data : gmap string (gmap string string))
    (participant_id : option string) : option (gmap string string) :=
  match participant_id with
  | Some p => participant_data !! p
  | None => None
  end.

Record plan_entry : Type := {
  prolific_submission_id : option string;
  prolific_participant_id : option string;
  current_prolific_status : option string;
  actual_completion_code : option string;
  local_status : string;
  local_reason : string;
  local_category : string;
  validation_status : string;
  proposed_action : string;
  notes : string
}.

Record validation_summary : Type := {
  matches : nat;
  mismatches : nat;
  csv_only : nat;
  code_only : nat;
  neither : nat
}.

Definition summary0 : validation_summary :=
  {| matches := 0; mismatches := 0; csv_only := 0; code_only := 0; neither := 0 |}.

(** The condition of the inner [if]: the accepted code/status pairs. *)
Definition agreement (actual_completion_code : option string) (local_status : string)
  : bool :=
  (opt_in actual_completion_code ["C1DQRLH1"; "COMPLETION_CODE_APPROVED"]
     && String.eqb local_status "APPROVED")
  || (opt_in actual_completion_code ["TIMEOUT"; "FAILED_ATTENTION"]
        && String.eqb local_status "REJECTED")
  || (opt_in actual_completion_code ["NO_CONSENT"; "SCREENED_OUT"]
        && bool_decide (local_status ∈ ["SCREENED-OUT"; "REJECTED"])).

(** The [if/elif] chains that derive the action from the local status;
    [dflt] is the value the variable holds when no branch assigns it. *)
Definition action_for (local_status dflt approve reject screen_out : string) : string :=
  if String.eqb local_status "APPROVED" then approve
  else if String.eqb local_status "REJECTED" then reject
  else if String.eqb local_status "SCREENED-OUT" then screen_out
  else dflt.

(** One iteration of the [for sub in prolific_submissions] loop: the entry
    appended to [review_plan] and the updated [validation_summary]. *)
Definition review_step (participant_data : gmap string (gmap string string))
    (summary : validation_summary) (sub : submission)
  : plan_entry * validation_summary :=
  let submission_id := sub_get sub "id" in
  let participant_id := sub_get sub "participant_id" in
  let current_status := sub_get sub "status" in
  let code := sub_get_or_empty sub "study_code" in
  let entry status reason category validation action note :=
    {| prolific_submission_id := submission_id;
       prolific_participant_id := participant_id;
       current_prolific_status := current_status;
       actual_completion_code := code;
       local_status := status;
       local_reason := reason;
       local_category := category;
       validation_status := validation;
       proposed_action := action;
       notes := note |} in
  match find_row participant_data participant_id with
  | Some csv_row =>
      let status := strip (get_str csv_row "status") in
      let reason := strip (get_str csv_row "reason") in
      let category := strip (get_str csv_row "category") in
      if truthy_opt code && truthy status then
        if agreement code status then
          (entry status reason category "MATCH"
             (action_for status "NO_ACTION_NO_CSV_DATA" "APPROVE" "REJECT" "SCREEN_OUT") "",
           {| matches := S (matches summary); mismatches := mismatches summary;
              csv_only := csv_only summary; code_only := code_only summary;
              neither := neither summary |})
        else
          (entry status reason category "MISMATCH" "MANUAL_REVIEW_MISMATCH"
             ("Local analysis: " ++ status ++ " but Qualtrics code: " ++ default "" code),
           {| matches := matches summary; mismatches := S (mismatches summary);
              csv_only := csv_only summary; code_only := code_only summary;
              neither := neither summary |})
      else if truthy_opt code && negb (truthy status) then
        (entry status reason category "CODE_ONLY" "MANUAL_REVIEW_NO_LOCAL_DECISION"
           "Qualtrics assigned code but no local decision found",
         {| matches := matches summary; mismatches := mismatches summary;
            csv_only := csv_only summary; code_only := S (code_only summary);
            neither := neither summary |})
      else if negb (truthy_opt code) && truthy status then
        (entry status reason category "CSV_ONLY"
           (action_for status "NO_ACTION_NO_CSV_DATA"
              "APPROVE_NO_CODE" "REJECT_NO_CODE" "SCREEN_OUT_NO_CODE")
           "Local decision exists but no completion code from Qualtrics",
         {| matches := matches summary; mismatches := mismatches summary;
            csv_only := S (csv_only summary); code_only := code_only summary;
            neither := neither summary |})
      else
        (entry status reason category "NEITHER" "MANUAL_REVIEW_NO_DATA"
           "No completion code and no local decision",
         {| matches := matches summary; mismatches := mismatches summary;
            csv_only := csv_only summary; code_only := code_only summary;
            neither := S (neither summary) |})
  | None =>
      if truthy_opt code then
        (entry "" "" "" "NO_CSV_DATA" "APPROVE_NO_LOCAL_DATA"
           "Using completion code (participant not in local data)", summary)
      else
        (entry "" "" "" "NO_CSV_DATA" "MANUAL_REVIEW_NO_LOCAL_DATA" "", summary)
  end.

(** The loop, threading [review_plan] (appended to) and the summary. *)
Fixpoint review_loop (participant_data : gmap string (gmap string string))
    (subs : list submission) (review_plan : list plan_entry)
    (summary : validation_summary) : list plan_entry * validation_summary :=
  match subs with
  | [] => (review_plan, summary)
  | sub :: rest =>
      let '(e, summary') := review_step participant_data summary sub in
      review_loop participant_data rest (review_plan ++ [e]) summary'
  end.

(** The function's state when it reaches [return review_plan]: the plan
    and the summary whose counters it has just printed. *)
Definition generate_review_plan_run (prolific_submissions : list submission)
    (participant_data : gmap string (gmap string string))
  : list plan_entry * validation_summary :=
  review_loop participant_data prolific_submissions [] summary0.

Definition generate_review_plan (prolific_submissions : list submission)
    (participant_data : gmap string (gmap string string)) : list plan_entry :=
  (generate_review_plan_run prolific_submissions participant_data).1.


(** *** load_participant_flags and the action summary *)




(** [counts[key] = counts.get(key, 0) + 1] on a dictionary, which keeps its
    keys in insertion order. *)
Fixpoint bump (key : string) (counts : list (string * nat)) : list (string * nat) :=
  match counts with
  | [] => [(key, 1)]
  | (k, n) :: rest =>
      if String.eqb k key then (k, n + 1) :: rest else (k, n) :: bump key rest
  end.

(** The [action_counts] that [save_review_plan_to_csv] prints under
    "Proposed Actions", one line per item; nothing is printed (and nothing
    saved) for an empty plan. *)
Definition action_counts (review_plan : list plan_entry) : list (string * nat) :=
  foldl (λ counts row, bump (proposed_action row) counts) [] review_plan.


(** [counts.get(key)] *)
Fixpoint counts_get (key : string) (counts : list (string * nat)) : option nat :=
  match counts with
  | [] => None
  | (k, n) :: rest => if String.eqb k key then Some n else counts_get key rest
  end.

(** Number of plan entries with a given validation status, and with a
    given proposed action. *)
Definition count_status (status : string) (review_plan : list plan_entry) : nat :=
  length (filter (λ e, validation_status e = status) review_plan).

Definition count_action (action : string) (review_plan : list plan_entry) : nat :=
  length (filter (λ e, proposed_action e = action) review_plan).


Definition is_mismatch_entry (e : plan_entry) : Prop :=
  validation_status e = "MISMATCH".

#[global] Instance is_mismatch_entry_dec e : Decision (is_mismatch_entry e).
Proof. unfold is_mismatch_entry. apply _. Defined.

End ReviewPlan.

(** ** URL_database.py: the Firestore-backed service *)
Module UrlDatabase.
Import PyStr.

(** Field values of a stored document.  [VNaN] is pandas' missing value,
    which only occurs in rows read from a CSV file. *)
Inductive value : Type :=
  | VNull
  | VBool (b : bool)
  | VInt (n : Z)
  | VStr (s : string)
  | VTime (t : Z)
  | VNaN.

(** The [task_instances] collection: document id to fields. *)
Definition collection : Type := gmap string (gmap string value).

(** [d.get(k)]: the value, or [None]. *)
Definition doc_get (d : gmap string value) (k : string) : value :=
  default VNull (d !! k).

(** Order of two documents by id.  A query without [order_by] streams its
    results in ascending order of document id. *)
Definition id_le (a b : string * gmap string value) : Prop := String.le a.1 b.1.

Definition stream (db : gmap string (gmap string value))
  : list (string * gmap string value) :=
  merge_sort id_le (map_to_list db).

(** The two [where] filters: [task_id == task_id] and [available == True]. *)
Definition matches (task_id : string) (d : gmap string value) : bool :=
  match d !! "task_id", d !! "available" with
  | Some (VStr t), Some (VBool true) => String.eqb t task_id
  | _, _ => false
  end.

(** [list(query.stream())] for the query with both filters and [limit(1)]. *)
Definition query_available (db : gmap string (gmap string value)) (task_id : string)
  : list (string * gmap string value) :=
  take 1 (filter (λ p, matches task_id p.2 = true) (stream db)).

Record task_payload : Type := {
  task_url : value;
  response_urls : list value;
  task_instance_id : string
}.

Inductive http_response : Type :=
  | Json200 (body : task_payload)
  | JsonError (status : Z) (message : string).

Definition response_data (doc_id : string) (task_data : gmap string value)
  : task_payload :=
  {| task_url := doc_get task_data "task_url";
     response_urls :=
       [ doc_get task_data "response_url_1";
         doc_get task_data "response_url_2";
         doc_get task_data "response_url_3";
         doc_get task_data "response_url_4";
         doc_get task_data "response_url_5" ];
     task_instance_id := doc_id |}.

(** [transaction.update(doc_ref, {"available": False, "assigned_at": now})] *)
Definition update_in_transaction (now : Z) (doc_id : string)
    (db : gmap string (gmap string value)) : gmap string (gmap string value) :=
  alter (λ d, <["assigned_at" := VTime now]> (<["available" := VBool false]> d))
        doc_id db.

(** The endpoint: [task_id] is [request.args.get('task_id')], [now] the
    clock reading of [datetime.now()].  The result is the HTTP response and
    the collection afterwards.  (The final "remaining" query only logs.) *)
Definition get_task_urls (task_id : option string) (now : Z)
    (db : gmap string (gmap string value))
  : http_response * gmap string (gmap string value) :=
  match task_id with
  | None => (JsonError 400 "Missing task_id parameter", db)
  | Some tid =>
      if negb (truthy tid) then (JsonError 400 "Missing task_id parameter", db)
      else
        match query_available db tid with
        | [] => (JsonError 404 ("No available task instances for task ID: " ++ tid), db)
        | (doc_id, task_data) :: _ =>
            (Json200 (response_data doc_id task_data),
             update_in_transaction now doc_id db)
        end
  end.

(** *** /import_data *)

(** One element of the parsed JSON file: an object, or anything else. *)
Inductive json_item : Type :=
  | JObject (fields : gmap string value)
  | JOther.

(** [str(v)] of a field value. *)
Definition py_str (v : value) : string :=
  match v with
  | VNull => "None"
  | VBool true => "True"
  | VBool false => "False"
  | VInt n => pretty n
  | VStr s => s
  | VTime t => pretty t
  | VNaN => "nan"
  end.

(** [{k: (v if pd.notna(v) else None) for k, v in item.items()}] *)
Definition nan_to_none (item : gmap string value) : gmap string value :=
  (λ v, match v with VNaN => VNull | _ => v end) <$> item.

(** [str(item.get('task_instance_id', uuid.uuid4()))] *)
Definition doc_id_of (uuid : string) (item : gmap string value) : string :=
  match item !! "task_instance_id" with
  | Some v => py_str v
  | None => uuid
  end.

(** [if 'available' not in item: item['available'] = True] *)
Definition default_available (item : gmap string value) : gmap string value :=
  match item !! "available" with
  | Some _ => item
  | None => <["available" := VBool true]> item
  end.

(** [items[i:i+batch_size] for i in range(0, len(items), batch_size)];
    the fuel bounds the number of batches. *)
Fixpoint batches_of {A : Type} (fuel batch_size : nat) (items : list A)
  : list (list A) :=
  match fuel, items with
  | _, [] => []
  | 0, _ => []
  | S fuel', _ =>
      take batch_size items :: batches_of fuel' batch_size (drop batch_size items)
  end.

Definition batches {A : Type} (batch_size : nat) (items : list A) : list (list A) :=
  batches_of (length items) batch_size items.

(** [batch.commit()]: the pending [set] operations, applied in order. *)
Definition commit (writes : list (string * gmap string value))
    (db : gmap string (gmap string value)) : gmap string (gmap string value) :=
  foldl (λ acc w, <[w.1 := w.2]> acc) db writes.

(** The write that one CSV row adds to its batch; [uuid] is the value of
    [uuid.uuid4()] for this row. *)
Definition csv_write (uuid : string) (row : gmap string value)
  : string * gmap string value :=
  let item := nan_to_none row in
  (doc_id_of uuid item, default_available item).

(** Same for one JSON item; an item that is not an object has no [get]
    and raises. *)
Definition json_write (uuid : string) (item : json_item)
  : option (string * gmap string value) :=
  match item with
  | JObject fields => Some (doc_id_of uuid fields, default_available fields)
  | JOther => None
  end.

(** The pending writes of one JSON batch, or [None] if an item raised;
    [count] is [imported_count] when the batch starts. *)
Fixpoint json_batch_writes (uuids : nat → string) (count : nat)
    (batch_items : list json_item) : option (list (string * gmap string value)) :=
  match batch_items with
  | [] => Some []
  | item :: rest =>
      match json_write (uuids count) item with
      | Some w => cons w <$> json_batch_writes uuids (S count) rest
      | None => None
      end
  end.

Fixpoint csv_batch_writes (uuids : nat → string) (count : nat)
    (batch_rows : list (gmap string value)) : list (string * gmap string value) :=
  match batch_rows with
  | [] => []
  | row :: rest => csv_write (uuids count) row :: csv_batch_writes uuids (S count) rest
  end.

Inductive import_response : Type :=
  | ImportSuccess (imported_count : nat) (cleared_existing : bool)
  | ImportError (status : Z).

(** The loop over CSV batches: every batch is committed. *)
Fixpoint import_csv_batches (uuids : nat → string) (count : nat)
    (bs : list (list (gmap string value))) (db : gmap string (gmap string value))
  : nat * gmap string (gmap string value) :=
  match bs with
  | [] => (count, db)
  | b :: rest =>
      import_csv_batches uuids (count + length b) rest
        (commit (csv_batch_writes uuids count b) db)
  end.

(** The loop over JSON batches: a batch in which an item raises is not
    committed and ends the import; earlier batches stay committed. *)
Fixpoint import_json_batches (uuids : nat → string) (count : nat)
    (bs : list (list json_item)) (db : gmap string (gmap string value))
  : option nat * gmap string (gmap string value) :=
  match bs with
  | [] => (Some count, db)
  | b :: rest =>
      match json_batch_writes uuids count b with
      | Some ws => import_json_batches uuids (count + length b) rest (commit ws db)
      | None => (None, db)
      end
  end.

(** The endpoint after the file checks: [format_type] is
    [request.form.get('format', '').lower()]; [read_csv] is the list of rows
    of [pd.read_csv(file)] and [json_load] the items of [json.load(file)]
    (a single object wrapped in a list), each consulted only in its branch;
    [uuids n] is the fresh id drawn when [imported_count] is [n].  Clearing
    deletes every document. *)
Definition import_data (uuids : nat → string) (format_type : string)
    (clear_existing : bool) (read_csv : list (gmap string value))
    (json_load : list json_item) (db : gmap string (gmap string value))
  : import_response * gmap string (gmap string value) :=
  if negb (bool_decide (format_type ∈ ["csv"; "json"])) then (ImportError 400, db)
  else
    let db0 : gmap string (gmap string value) := if clear_existing then ∅ else db in
    if String.eqb format_type "csv" then
      let '(n, db') := import_csv_batches uuids 0 (batches 400 read_csv) db0 in
      (ImportSuccess n clear_existing, db')
    else
      match import_json_batches uuids 0 (batches 400 json_load) db0 with
      | (Some n, db') => (ImportSuccess n clear_existing, db')
      | (None, db') => (ImportError 500, db')
      end.

(** *** /check_occupation_status *)

(** The two [where] filters: [occupation_id == occupation_id] and
    [available == True]. *)
Definition occupation_matches (occupation_id : string) (d : gmap string value) : bool :=
  match d !! "occupation_id", d !! "available" with
  | Some (VStr o), Some (VBool true) => String.eqb o occupation_id
  | _, _ => false
  end.

Inductive status_response : Type :=
  | HasAvailableTasks (has_available_tasks : bool)
  | StatusError (status : Z) (message : string).

Definition check_occupation_status (occupation_id : option string)
    (db : gmap string (gmap string value)) : status_response :=
  match occupation_id with
  | None => StatusError 400 "Missing occupation_id parameter"
  | Some o =>
      if negb (truthy o) then StatusError 400 "Missing occupation_id parameter"
      else
        match take 1 (filter (λ p, occupation_matches o p.2 = true) (stream db)) with
        | [] => HasAvailableTasks false
        | _ :: _ => HasAvailableTasks true
        end
  end.

(** *** /update_task_availability *)

Inductive availability_response : Type :=
  | UpdateSuccess (updated_count : nat)
  | UpdateError (status : Z).

(** The updates that the loop over [data['task_instances']] adds to the
    batch: one for each item that has both keys, as the pair of its
    [task_instance_id] and its [available] value. *)
Fixpoint pending_updates (items : list (gmap string value)) : list (value * value) :=
  match items with
  | [] => []
  | item :: rest =>
      match item !! "task_instance_id", item !! "available" with
      | Some doc_id, Some available => (doc_id, available) :: pending_updates rest
      | _, _ => pending_updates rest
      end
  end.

(** [batch.commit()] for a batch of updates: they are applied in order,
    all or none.  An update fails when its id is not a string or names no
    document of the collection. *)
Fixpoint commit_updates (updates : list (value * value))
    (db : gmap string (gmap string value)) : option (gmap string (gmap string value)) :=
  match updates with
  | [] => Some db
  | (VStr doc_id, available) :: rest =>
      match db !! doc_id with
      | Some d => commit_updates rest (<[doc_id := <["available" := available]> d]> db)
      | None => None
      end
  | _ :: _ => None
  end.

(** The endpoint: [task_instances] is [data['task_instances']], a list of
    objects, or [None] when the body is empty or has no such key. *)
Definition update_task_availability (task_instances : option (list (gmap string value)))
    (db : gmap string (gmap string value))
  : availability_response * gmap string (gmap string value) :=
  match task_instances with
  | None => (UpdateError 400, db)
  | Some items =>
      match commit_updates (pending_updates items) db with
      | Some db' => (UpdateSuccess (length (pending_updates items)), db')
      | None => (UpdateError 500, db)
      end
  end.

(** *** The counters of /dashboard *)

(** Truth value of a field value in a condition. *)
Definition py_truthy (v : value) : bool :=
  match v with
  | VNull => false
  | VBool b => b
  | VInt n => negb (n =? 0)%Z
  | VStr s => truthy s
  | VTime _ => true
  | VNaN => true
  end.

(** [task_data.get('available', True)] as a condition. *)
Definition counted_available (task_data : gmap string value) : bool :=
  match task_data !! "available" with
  | Some v => py_truthy v
  | None => true
  end.

Record task_counts : Type := {
  total_tasks : nat;
  available_tasks : nat;
  unavailable_tasks : nat
}.

(** The statistics [total_tasks], [available_tasks] and
    [unavailable_tasks] that the dashboard loop computes. *)
Definition dashboard_counts (db : gmap string (gmap string value)) : task_counts :=
  let all_tasks := stream db in
  foldl (λ stats task,
           if counted_available task.2 then
             {| total_tasks := total_tasks stats;
                available_tasks := available_tasks stats + 1;
                unavailable_tasks := unavailable_tasks stats |}
           else
             {| total_tasks := total_tasks stats;
                available_tasks := available_tasks stats;
                unavailable_tasks := unavailable_tasks stats + 1 |})
        {| total_tasks := length all_tasks;
           available_tasks := 0;
           unavailable_tasks := 0 |}
        all_tasks.

(** *** Statements about the endpoints *)

(** The service answering a sequence of /get_task_urls requests one after
    the other, each given as its [task_id] parameter and the clock reading
    when it is handled. *)
Fixpoint serve_task_requests (requests : list (option string * Z))
    (db : gmap string (gmap string value))
  : list http_response * gmap string (gmap string value) :=
  match requests with
  | [] => ([], db)
  | (task_id, now) :: rest =>
      let '(response, db') := get_task_urls task_id now db in
      let '(responses, db'') := serve_task_requests rest db' in
      (response :: responses, db'')
  end.

(** The document ids handed out in a list of responses. *)
Definition handed_out (responses : list http_response) : list string :=
  omap (λ r, match r with
             | Json200 body => Some (task_instance_id body)
             | JsonError _ _ => None
             end) responses.

(** When the updates of a batch can all be applied. *)
Definition applicable (updates : list (value * value))
    (db : gmap string (gmap string value)) : Prop :=
  ∀ u, u ∈ updates → ∃ doc_id, u.1 = VStr doc_id ∧ is_Some (db !! doc_id).

(** Number of documents that a request for [task_id] could be served
    from. *)
Definition available_count (task_id : string) (db : gmap string (gmap string value))
  : nat :=
  size (filter (λ kv : string * gmap string value, matches task_id kv.2 = true) db).

#[global] Instance value_eq_dec : EqDecision value.
Proof. solve_decision. Defined.

(** The value that the last update for [doc_id] in a batch assigns. *)
Definition last_update (doc_id : string) (updates : list (value * value))
  : option value :=
  last (snd <$> filter (λ u, u.1 = VStr doc_id) updates).


(** Some document of the collection is available for [task_id]. *)
Definition has_available (db : gmap string (gmap string value)) (task_id : string)
  : Prop :=
  ∃ doc_id d, db !! doc_id = Some d ∧ matches task_id d = true.

(** A request for [task_id] is served from an available matching document:
    the payload is that document's and its [available] field is [False]
    afterwards. *)
Definition allocates (task_id : string) (now : Z)
    (db : gmap string (gmap string value)) : Prop :=
  ∃ doc_id task_data,
    db !! doc_id = Some task_data
    ∧ matches task_id task_data = true
    ∧ (get_task_urls (Some task_id) now db).1
      = Json200 (response_data doc_id task_data)
    ∧ ∃ d', (get_task_urls (Some task_id) now db).2 !! doc_id = Some d'
            ∧ d' !! "available" = Some (VBool false).

(** A request for [task_id] is answered 404 and leaves the collection as
    it was. *)
Definition not_found (task_id : string) (now : Z)
    (db : gmap string (gmap string value)) : Prop :=
  ∃ message, get_task_urls (Some task_id) now db = (JsonError 404 message, db).

(** A record is the written form of one of the uploaded rows or items. *)
Definition written_from (read_csv : list (gmap string value))
    (json_load : list json_item) (d : gmap string value) : Prop :=
  (∃ row, row ∈ read_csv ∧ d = default_available (nan_to_none row)
          ∧ (row !! "available" = None → d !! "available" = Some (VBool true)))
  ∨ (∃ fields, JObject fields ∈ json_load ∧ d = default_available fields
               ∧ (fields !! "available" = None →
                  d !! "available" = Some (VBool true))).

(** A collection whose only document belongs to the task with the empty
    id. *)
Definition db_empty_task_id : gmap string (gmap string value) :=
  {[ "doc1" := <["task_id" := VStr ""]> (<["available" := VBool true]>
                 (<["task_url" := VStr "https://example.org/task"]> ∅)) ]}.

End UrlDatabase.

(** ** The two functions of Python's [random] module that the scripts call

    Every call of the generator's [_randbelow(m)] takes the next raw draw of
    an explicit source [rng] and reduces it below [m]. *)
Module PyRandom.

Definition randbelow (rng : nat → nat) (step m : nat) : nat := rng step mod m.

(** [x[i], x[j] = x[j], x[i]] *)
Definition swap {A : Type} (x : list A) (i j : nat) : list A :=
  match x !! i, x !! j with
  | Some a, Some b => <[j := a]> (<[i := b]> x)
  | _, _ => x
  end.

(** [for i in reversed(range(1, len(x))): j = randbelow(i + 1); swap] *)
Fixpoint shuffle_loop {A : Type} (rng : nat → nat) (step i : nat) (x : list A)
  : list A :=
  match i with
  | 0 => x
  | S i' => shuffle_loop rng (S step) i' (swap x i (randbelow rng step (S i)))
  end.

(** [random.shuffle(x)], as the list that [x] holds afterwards. *)
Definition shuffle {A : Type} (rng : nat → nat) (x : list A) : list A :=
  shuffle_loop rng 0 (length x - 1) x.

(** The selection loop of [random.sample] over a pool:
    [j = randbelow(n - i); result[i] = pool[j]; pool[j] = pool[n - i - 1]].
    The index errors cannot occur when [k <= n]. *)
Fixpoint sample_loop {A : Type} (rng : nat → nat) (n i k : nat) (pool : list A)
  : list A :=
  match k with
  | 0 => []
  | S k' =>
      let j := randbelow rng i (n - i) in
      match pool !! j, pool !! (n - i - 1) with
      | Some picked, Some last =>
          picked :: sample_loop rng n (S i) k' (<[j := last]> pool)
      | _, _ => []
      end
  end.

(** [random.sample(population, k)] for [k <= len(population)], by the pool
    loop (the library switches to drawing distinct indices into a set for
    populations of more than 21 items, with the same kind of result). *)
Definition sample {A : Type} (rng : nat → nat) (population : list A) (k : nat)
  : list A :=
  sample_loop rng (length population) 0 k population.

End PyRandom.

(** ** qualtrics_database.py: the SQLite-backed service *)
Module QualtricsDatabase.

Record task_row : Type := {
  task_pk : Z;               (* tasks.id *)
  task_external_id : Z;      (* tasks.task_id *)
  occupation : string
}.

Record instance_row : Type := {
  instance_pk : Z;           (* task_instances.id *)
  instance_task : Z;         (* task_instances.task_id *)
  instance_number : Z;
  instance_pdf_url : string;
  is_assigned : bool;
  is_completed : bool;
  assigned_round : Z
}.

Record response_row : Type := {
  response_pk : Z;           (* model_responses.id *)
  task_instance_id : Z;
  model_number : Z;
  response_pdf_url : string
}.

Record database : Type := {
  tasks : list task_row;
  task_instances : list instance_row;
  model_responses : list response_row
}.

Section Service.

(** How SQLite compares the INTEGER column [tasks.task_id] with the text
    bound for [task_id = ?]. *)
Variable param_eq : Z → string → bool.

(** The random source behind [random.sample]. *)
Variable rng : nat → nat.

(** [SELECT id FROM tasks WHERE task_id = ? AND occupation = ?], [fetchone]. *)
Definition find_task (db : database) (task_id occ : string) : option task_row :=
  head (filter (λ t, param_eq (task_external_id t) task_id = true
                     ∧ occupation t = occ) (tasks db)).

(** The [WHERE] clause of the instance query. *)
Definition eligible (task_db_id round_id : Z) (r : instance_row) : bool :=
  (instance_task r =? task_db_id)%Z
  && (negb (is_assigned r)
      || (negb (is_completed r) && (assigned_round r <? round_id)%Z)).

(** [ORDER BY instance_number ASC LIMIT 1]: the first row with the least
    instance number. *)
Fixpoint least_instance (rows : list instance_row) : option instance_row :=
  match rows with
  | [] => None
  | r :: rest =>
      match least_instance rest with
      | Some r' =>
          if (instance_number r' <? instance_number r)%Z then Some r' else Some r
      | None => Some r
      end
  end.

Definition select_instance (db : database) (task_db_id round_id : Z)
  : option instance_row :=
  least_instance (filter (λ r, eligible task_db_id round_id r = true)
                         (task_instances db)).

(** [UPDATE task_instances SET is_assigned = TRUE, assigned_round = ?
     WHERE id = ?] *)
Definition assign_row (round_id instance_id : Z) (r : instance_row) : instance_row :=
  if (instance_pk r =? instance_id)%Z then
    {| instance_pk := instance_pk r;
       instance_task := instance_task r;
       instance_number := instance_number r;
       instance_pdf_url := instance_pdf_url r;
       is_assigned := true;
       is_completed := is_completed r;
       assigned_round := round_id |}
  else r.

Definition mark_assigned (db : database) (round_id instance_id : Z) : database :=
  {| tasks := tasks db;
     task_instances := assign_row round_id instance_id <$> task_instances db;
     model_responses := model_responses db |}.

(** [SELECT pdf_url FROM model_responses WHERE task_instance_id = ?] *)
Definition all_models (db : database) (instance_id : Z) : list (option string) :=
  (λ r, Some (response_pdf_url r))
    <$> filter (λ r, task_instance_id r = instance_id) (model_responses db).

(** The last step: five sampled responses, or all of them padded with
    [None]. *)
Definition select_models (models : list (option string)) : list (option string) :=
  if (5 <? length models)%nat then PyRandom.sample rng models 5
  else models ++ replicate (5 - length models) None.

(** The function: its return value and the database after the commit. *)
Definition get_next_task_instance (db : database) (task_id occ : string)
    (round_id : Z) : option (string * list (option string)) * database :=
  match find_task db task_id occ with
  | None => (None, db)
  | Some task =>
      match select_instance db (task_pk task) round_id with
      | None => (None, db)
      | Some instance =>
          let db' := mark_assigned db round_id (instance_pk instance) in
          (Some (instance_pdf_url instance,
                 select_models (all_models db' (instance_pk instance))),
           db')
      end
  end.

End Service.

(** *** The other endpoints *)




(** [UPDATE task_instances SET is_completed = TRUE
     WHERE id = ? AND assigned_round = ?] *)
Definition complete_row (instance_id round_id : Z) (r : instance_row) : instance_row :=
  if (instance_pk r =? instance_id)%Z && (assigned_round r =? round_id)%Z then
    {| instance_pk := instance_pk r;
       instance_task := instance_task r;
       instance_number := instance_number r;
       instance_pdf_url := instance_pdf_url r;
       is_assigned := is_assigned r;
       is_completed := true;
       assigned_round := assigned_round r |}
  else r.

(** [/update_completion]: the instance ids and the round of the request
    body, or [None] when a key is missing; the result is [updated_count]
    (or the error status) and the database afterwards. *)
Definition update_completion (data : option (list Z * Z)) (db : database)
  : (nat + Z) * database :=
  match data with
  | None => (inr 400%Z, db)
  | Some (completed_instances, round_id) =>
      (inl (length completed_instances),
       foldl (λ db instance_id,
                {| tasks := tasks db;
                   task_instances :=
                     complete_row instance_id round_id <$> task_instances db;
                   model_responses := model_responses db |})
             db completed_instances)
  end.

(** The two [UPDATE] statements of [/reset_assignments]. *)
Definition reset_row (retain_completion : bool) (r : instance_row) : instance_row :=
  if retain_completion then
    if is_completed r then r
    else {| instance_pk := instance_pk r;
            instance_task := instance_task r;
            instance_number := instance_number r;
            instance_pdf_url := instance_pdf_url r;
            is_assigned := false;
            is_completed := is_completed r;
            assigned_round := 0 |}
  else {| instance_pk := instance_pk r;
          instance_task := instance_task r;
          instance_number := instance_number r;
          instance_pdf_url := instance_pdf_url r;
          is_assigned := false;
          is_completed := false;
          assigned_round := 0 |}.

(** [/reset_assignments]: [reset_count] (the rows the statement matched)
    and the database afterwards. *)
Definition reset_assignments (retain_completion : bool) (db : database)
  : nat * database :=
  (if retain_completion
   then length (filter (λ r, is_completed r = false) (task_instances db))
   else length (task_instances db),
   {| tasks := tasks db;
      task_instances := reset_row retain_completion <$> task_instances db;
      model_responses := model_responses db |}).




(** The instance that a call of [get_next_task_instance] selects. *)
Definition selected_instance (param_eq : Z → string → bool) (db : database)
    (task_id occ : string) (round_id : Z) : option instance_row :=
  match find_task param_eq db task_id occ with
  | Some task => select_instance db (task_pk task) round_id
  | None => None
  end.


(** Every row with primary key [pk] is assigned and completed. *)
Definition finished (pk : Z) (db : database) : Prop :=
  ∀ r, r ∈ task_instances db → instance_pk r = pk →
       is_assigned r = true ∧ is_completed r = true.

(** *** [/load_data]

    The request body, with the fields the handler reads: integers for the
    numbers and texts for the occupation and the urls, as in the example
    of its docstring. *)
Record response_entry : Type := {
  entry_model_number : Z;
  entry_response_url : string
}.

Record instance_entry : Type := {
  entry_instance_number : Z;
  entry_pdf_url : string;
  entry_model_responses : list response_entry
}.

Record task_entry : Type := {
  entry_task_id : Z;
  entry_occupation : string;
  entry_instances : list instance_entry
}.

(** The id SQLite gives to a new row of a table with an
    [INTEGER PRIMARY KEY]: one more than the largest id in use, and 1 in
    an empty table. *)
Definition next_rowid (ids : list Z) : Z :=
  match ids with
  | [] => 1
  | id :: rest => foldl Z.max id rest + 1
  end.

(** The rows that [UNIQUE(task_id, occupation)] compares a new task with,
    which are also the rows of [SELECT id FROM tasks WHERE task_id = ? AND
    occupation = ?]. *)
Definition matching_tasks (db : database) (task_id : Z) (occ : string)
  : list task_row :=
  filter (λ t, task_external_id t = task_id ∧ occupation t = occ) (tasks db).

(** [INSERT OR IGNORE INTO tasks (task_id, occupation) VALUES (?, ?)] *)
Definition insert_task (db : database) (task_id : Z) (occ : string) : database :=
  match matching_tasks db task_id occ with
  | _ :: _ => db
  | [] =>
      {| tasks := tasks db
                  ++ [ {| task_pk := next_rowid (task_pk <$> tasks db);
                          task_external_id := task_id;
                          occupation := occ |} ];
         task_instances := task_instances db;
         model_responses := model_responses db |}
  end.

Definition select_task_id (db : database) (task_id : Z) (occ : string) : option Z :=
  task_pk <$> head (matching_tasks db task_id occ).

(** The same for [UNIQUE(task_id, instance_number)]. *)
Definition matching_instances (db : database) (task_db_id number : Z)
  : list instance_row :=
  filter (λ r, instance_task r = task_db_id ∧ instance_number r = number)
         (task_instances db).

(** [INSERT OR IGNORE INTO task_instances (task_id, instance_number,
    pdf_url) VALUES (?, ?, ?)]; the other columns take their defaults. *)
Definition insert_instance (db : database) (task_db_id number : Z) (url : string)
  : database :=
  match matching_instances db task_db_id number with
  | _ :: _ => db
  | [] =>
      {| tasks := tasks db;
         task_instances :=
           task_instances db
           ++ [ {| instance_pk := next_rowid (instance_pk <$> task_instances db);
                   instance_task := task_db_id;
                   instance_number := number;
                   instance_pdf_url := url;
                   is_assigned := false;
                   is_completed := false;
                   assigned_round := 0 |} ];
         model_responses := model_responses db |}
  end.

Definition select_instance_id (db : database) (task_db_id number : Z) : option Z :=
  instance_pk <$> head (matching_instances db task_db_id number).

(** The same for [UNIQUE(task_instance_id, model_number)]. *)
Definition matching_responses (db : database) (instance_db_id number : Z)
  : list response_row :=
  filter (λ r, task_instance_id r = instance_db_id ∧ model_number r = number)
         (model_responses db).

(** [INSERT OR IGNORE INTO model_responses (task_instance_id, model_number,
    pdf_url) VALUES (?, ?, ?)] *)
Definition insert_response (instance_db_id : Z) (db : database) (model : response_entry)
  : database :=
  match matching_responses db instance_db_id (entry_model_number model) with
  | _ :: _ => db
  | [] =>
      {| tasks := tasks db;
         task_instances := task_instances db;
         model_responses :=
           model_responses db
           ++ [ {| response_pk := next_rowid (response_pk <$> model_responses db);
                   task_instance_id := instance_db_id;
                   model_number := entry_model_number model;
                   response_pdf_url := entry_response_url model |} ] |}
  end.

(** The body of [for instance in task['instances']]; [None] when
    [fetchone()] has no row to subscript. *)
Definition load_instance (task_db_id : Z) (state : option database)
    (instance : instance_entry) : option database :=
  db ← state;
  let db := insert_instance db task_db_id (entry_instance_number instance)
              (entry_pdf_url instance) in
  instance_db_id ← select_instance_id db task_db_id (entry_instance_number instance);
  Some (foldl (insert_response instance_db_id) db (entry_model_responses instance)).

(** The body of [for task in data['tasks']]. *)
Definition load_task (state : option database) (task : task_entry) : option database :=
  db ← state;
  let db := insert_task db (entry_task_id task) (entry_occupation task) in
  task_db_id ← select_task_id db (entry_task_id task) (entry_occupation task);
  foldl (load_instance task_db_id) (Some db) (entry_instances task).

Inductive load_result : Type :=
  | Loaded (loaded_tasks loaded_instances loaded_model_responses : nat)
  | LoadError (status : Z).

(** The three counters: they count the entries of the request, inserted
    or not. *)
Definition instance_count (data : list task_entry) : nat :=
  sum_list (length ∘ entry_instances <$> data).

Definition model_count (data : list task_entry) : nat :=
  sum_list ((λ task, sum_list (length ∘ entry_model_responses
                               <$> entry_instances task)) <$> data).

(** [/load_data]: [None] is a body without the key [tasks].  An exception
    leaves the [with] block before the commit, so nothing is written. *)
Definition load_data (data : option (list task_entry)) (db : database)
  : load_result * database :=
  match data with
  | None => (LoadError 400, db)
  | Some data =>
      match foldl load_task (Some db) data with
      | Some db' => (Loaded (length data) (instance_count data) (model_count data), db')
      | None => (LoadError 500, db)
      end
  end.

(** Every table of [db'] starts with the rows of the table of [db]. *)
Definition extends (db db' : database) : Prop :=
  tasks db `prefix_of` tasks db'
  ∧ task_instances db `prefix_of` task_instances db'
  ∧ model_responses db `prefix_of` model_responses db'.

(** What it means for an entry of a request to be in the database: the
    row with its key exists, under the id that the handler's [SELECT]
    returns. *)
Definition response_stored (db : database) (instance_db_id : Z)
    (model : response_entry) : Prop :=
  matching_responses db instance_db_id (entry_model_number model) ≠ [].

Definition instance_stored (db : database) (task_db_id : Z)
    (instance : instance_entry) : Prop :=
  ∃ instance_db_id,
    select_instance_id db task_db_id (entry_instance_number instance)
    = Some instance_db_id
    ∧ ∀ model, model ∈ entry_model_responses instance →
               response_stored db instance_db_id model.

Definition task_stored (db : database) (task : task_entry) : Prop :=
  ∃ task_db_id,
    select_task_id db (entry_task_id task) (entry_occupation task) = Some task_db_id
    ∧ ∀ instance, instance ∈ entry_instances task →
                  instance_stored db task_db_id instance.

(** The ids of the rows of each table are pairwise distinct, as a primary
    key is. *)
Definition unique_ids (db : database) : Prop :=
  NoDup (task_pk <$> tasks db)
  ∧ NoDup (instance_pk <$> task_instances db)
  ∧ NoDup (response_pk <$> model_responses db).

(** *** Example data *)

(** A comparison for the examples: the bound text is the decimal numeral
    of the stored integer. *)
Definition decimal_eq (n : Z) (s : string) : bool := String.eqb (pretty n) s.

(** An instance that was assigned in round 1 and never completed. *)
Definition reassigned_row : instance_row :=
  {| instance_pk := 10; instance_task := 1; instance_number := 1;
     instance_pdf_url := "https://example.org/t7_i1.pdf";
     is_assigned := true; is_completed := false; assigned_round := 1 |}.

(** One task whose only instance is [reassigned_row]. *)
Definition db_reassigned : database :=
  {| tasks := [ {| task_pk := 1; task_external_id := 7; occupation := "nurse" |} ];
     task_instances := [ reassigned_row ];
     model_responses := [] |}.

Definition response_of (n : Z) : response_row :=
  {| response_pk := n; task_instance_id := 10; model_number := n;
     response_pdf_url := "https://example.org/m" ++ pretty n ++ ".pdf" |}.

(** One task with a fresh instance and seven model responses. *)
Definition db_seven : database :=
  {| tasks := [ {| task_pk := 1; task_external_id := 7; occupation := "nurse" |} ];
     task_instances :=
       [ {| instance_pk := 10; instance_task := 1; instance_number := 1;
            instance_pdf_url := "https://example.org/t7_i1.pdf";
            is_assigned := false; is_completed := false; assigned_round := 0 |} ];
     model_responses := response_of <$> [1; 2; 3; 4; 5; 6; 7]%Z |}.


(** A request with the keys of [db_seven] and other urls. *)
Definition example_request : list task_entry :=
  [ {| entry_task_id := 7;
       entry_occupation := "nurse";
       entry_instances :=
         [ {| entry_instance_number := 1;
              entry_pdf_url := "https://example.org/t7_i1_v2.pdf";
              entry_model_responses :=
                [ {| entry_model_number := 1;
                     entry_response_url := "https://example.org/m1_v2.pdf" |};
                  {| entry_model_number := 2;
                     entry_response_url := "https://example.org/m2_v2.pdf" |} ] |} ] |} ].

End QualtricsDatabase.

(** ** PDF_upload.py: Latin square randomization *)
Module LatinSquare.

(** Outcome of a call that may raise. *)
Inductive outcome (A : Type) : Type :=
  | Returns (result : A)
  | Raises (exception message : string).
Arguments Returns {A} result.
Arguments Raises {A} exception message.

(** [MODEL_NAMES], in insertion order. *)
Definition MODEL_NAMES : list (string * string) :=
  [ ("model1", "GPT_4o_2025");
    ("model2", "Claude_3_Opus");
    ("model3", "Gemini_Ultra");
    ("model4", "GPT_4_Turbo");
    ("model5", "Claude_3_Sonnet") ].

(** [list(MODEL_NAMES.values())] *)
Definition model_names : list string := snd <$> MODEL_NAMES.

Definition base_squares : list (list nat) :=
  [ [0; 1; 2; 3; 4];
    [1; 2; 3; 4; 0];
    [2; 3; 4; 0; 1];
    [3; 4; 0; 1; 2];
    [4; 0; 1; 2; 3] ]%nat.

(** [model_names[i]] and [latin_square_orders[square_index]]; the indices
    used are in range. *)
Definition name_at (i : nat) : string := default "" (model_names !! i).

(** The orders before shuffling: [[model_names[i] for i in square_row]]. *)
Definition latin_square_orders : list (list string) :=
  (λ square_row : list nat, name_at <$> square_row) <$> base_squares.

(** The [for i in range(n_rows)] loop over the shuffled orders. *)
Definition repeat_orders (orders : list (list string)) (n_rows : Z)
  : list (list string) :=
  (λ i, default [] (orders !! (i mod length orders)%nat)) <$> seq 0 (Z.to_nat n_rows).

Definition generate_latin_square_orders (rng : nat → nat) (n_models n_rows : Z)
  : outcome (list (list string)) :=
  if negb (n_models =? 5)%Z then
    Raises "ValueError" "This implementation is designed for exactly 5 models"
  else
    Returns (repeat_orders (PyRandom.shuffle rng latin_square_orders) n_rows).

(** [position_counts[model][position]] of [verify_latin_square_balance],
    counted on the orders themselves (the order strings it receives are
    these orders joined with commas). *)
Definition position_count (orders : list (list string)) (model : string)
    (position : nat) : nat :=
  length (filter (λ order, order !! position = Some model) orders).

(** The cyclic shift by [k] of the model names. *)
Definition cyclic_shift (k : nat) : list string := rotate k model_names.


(** *** Applying the orders to the model columns *)

(** [','.join(items)] *)
Fixpoint join (sep : string) (items : list string) : string :=
  match items with
  | [] => ""
  | x :: rest =>
      match rest with
      | [] => x
      | _ :: _ => x ++ sep ++ join sep rest
      end
  end.

(** [s.split(sep)] for a separator of one character. *)
Fixpoint split (sep : ascii) (s : string) : list string :=
  match s with
  | EmptyString => [""]
  | String c rest =>
      let parts := split sep rest in
      if Ascii.eqb c sep then "" :: parts
      else String c (hd "" parts) :: tl parts
  end.

Definition model_columns : list string :=
  ["model1"; "model2"; "model3"; "model4"; "model5"].

(** [position_counts] after the loop over the order strings; [None] when
    the subscript [position_counts[model][position]] is out of range. *)
Definition count_order (counts : option (gmap string (list nat)))
    (order_string : string) : option (gmap string (list nat)) :=
  foldl (λ acc item,
           counts ← acc;
           match counts !! item.2 with
           | None => Some counts
           | Some row =>
               k ← row !! item.1;
               Some (<[item.2 := <[item.1 := S k]> row]> counts)
           end)
        counts (imap pair (split "," order_string)).

Definition position_counts (order_strings model_names : list string)
  : option (gmap string (list nat)) :=
  foldl count_order
        (Some (list_to_map ((λ model, (model, replicate 5 0%nat)) <$> model_names)))
        order_strings.

(** [abs(pos_count - total_rows / 5) > 1].  The script computes this in
    floating point; for counts and totals below [2^53] the outcome is
    that of the exact comparison, written here on integers. *)
Definition out_of_tolerance (total_rows pos_count : nat) : bool :=
  (5 <? Z.abs (5 * Z.of_nat pos_count - Z.of_nat total_rows))%Z.

(** [verify_latin_square_balance]: the value of [balanced] that decides
    which of the two messages is logged. *)
Definition verify_latin_square_balance (order_strings model_names : list string)
  : option bool :=
  counts ← position_counts order_strings model_names;
  Some (forallb (λ model,
                   forallb (λ pos_count,
                              negb (out_of_tolerance (length order_strings) pos_count))
                           (default [] (counts !! model)))
                model_names).

(** A row of the data frame: its cells by column label.  The cells of the
    columns concerned are texts (the urls of the uploaded files). *)
Definition model_url_mapping (row : gmap string string) : option (gmap string string) :=
  foldl (λ acc item,
           mapping ← acc;
           original_model_name ← model_names !! item.1;
           url ← row !! item.2;
           Some (<[original_model_name := url]> mapping))
        (Some ∅) (imap pair model_columns).

Definition randomized_row_data (mapping : gmap string string)
    (current_order : list string) : option (gmap string string) :=
  foldl (λ acc item,
           data ← acc;
           new_col ← model_columns !! item.1;
           url ← mapping !! item.2;
           Some (<[new_col := url]> data))
        (Some ∅) (imap pair current_order).

(** One turn of the loop over the rows: the randomized cells and the order
    string of row [idx]. *)
Definition randomize_row (latin_orders : list (list string)) (idx : nat)
    (row : gmap string string) : option (gmap string string * string) :=
  current_order ← latin_orders !! idx;
  mapping ← model_url_mapping row;
  data ← randomized_row_data mapping current_order;
  Some (data, join "," current_order).

(** The assignments to the model columns and to [order_models], seen from
    one row. *)
Definition assign_columns (row : gmap string string)
    (item : gmap string string * string) : option (gmap string string) :=
  row' ← foldl (λ acc model_col,
                  row' ← acc;
                  url ← item.1 !! model_col;
                  Some (<[model_col := url]> row'))
               (Some row) model_columns;
  Some (<["order_models" := item.2]> row').

(** [apply_model_randomization]; [None] stands for a raised exception. *)
Definition apply_model_randomization (rng : nat → nat) (df : list (gmap string string))
  : option (list (gmap string string)) :=
  match generate_latin_square_orders rng 5 (Z.of_nat (length df)) with
  | Raises _ _ => None
  | Returns latin_orders =>
      items ← mapM (λ p, randomize_row latin_orders p.1 p.2) (imap pair df);
      randomized_df ← mapM (λ p, assign_columns p.1 p.2) (zip df items);
      _ ← verify_latin_square_balance (snd <$> items) model_names;
      Some randomized_df
  end.

(** *** Example data *)

(** A row with a question and the five uploaded responses. *)
Definition example_row : gmap string string :=
  <["model5" := "https://example.org/e.pdf"]>
    (<["model4" := "https://example.org/d.pdf"]>
       (<["model3" := "https://example.org/c.pdf"]>
          (<["model2" := "https://example.org/b.pdf"]>
             (<["model1" := "https://example.org/a.pdf"]>
                (<["Question" := "https://example.org/q.pdf"]> ∅))))).

End LatinSquare.

(** * Properties *)

(** ** The completion-code table *)
Section CompletionCodesFacts.
Import PyStr CompletionCodes.
Local Arguments String.eqb : simpl never.

Lemma subscripts_defined :
  assoc "APPROVED" COMPLETION_CODES = Some "C1G9PC0D"
  ∧ assoc "SCREENED_OUT" COMPLETION_CODES = Some "C1NFUEQ1"
  ∧ assoc "FAILED_ATTENTION" COMPLETION_CODES = Some "C1M8R1Y4"
  ∧ assoc "NO_CONSENT" COMPLETION_CODES = Some "COISODYI".
Proof. repeat split. Qed.

Lemma values_eq : values = ["C1G9PC0D"; "C1NFUEQ1"; "C1M8R1Y4"; "COISODYI"].
Proof. reflexivity. Qed.

Lemma names_eq :
  names = ["APPROVED"; "SCREENED_OUT"; "FAILED_ATTENTION"; "NO_CONSENT"].
Proof. reflexivity. Qed.

Lemma code_in_values name c :
  assoc name COMPLETION_CODES = Some c → c ∈ values.
Proof.
  rewrite values_eq. unfold COMPLETION_CODES. simpl.
  repeat (case (String.eqb _ name); [intros [= <-]; set_solver |]).
  discriminate.
Qed.

Lemma find_name_values c :
  c ∈ values → ∃ name, find_name c COMPLETION_CODES = Some name ∧ name ∈ names.
Proof.
  rewrite values_eq, names_eq. intros Hc.
  repeat (apply elem_of_cons in Hc as [-> | Hc];
          [eexists; split; [reflexivity | set_solver] |]).
  by apply elem_of_nil in Hc.
Qed.

Lemma find_name_unknown c :
  c ∉ values → find_name c COMPLETION_CODES = None.
Proof.
  rewrite values_eq. intros Hc. unfold COMPLETION_CODES. simpl.
  repeat match goal with
         | |- context [String.eqb ?a c] =>
             destruct (String.eqb_spec a c) as [<- | _];
             [exfalso; apply Hc; set_solver |]
         end.
  reflexivity.
Qed.

Lemma unknown_label_not_a_name c : "UNKNOWN(" ++ c ++ ")" ∉ names.
Proof.
  rewrite names_eq. intros H.
  repeat (apply elem_of_cons in H as [H | H]; [discriminate H |]).
  by apply elem_of_nil in H.
Qed.

Lemma truthy_values c : c ∈ values → truthy c = true.
Proof.
  rewrite values_eq. intros Hc.
  repeat (apply elem_of_cons in Hc as [-> | Hc]; [reflexivity |]).
  by apply elem_of_nil in Hc.
Qed.


Lemma api_action_unknown c :
  c ∉ values → get_api_action_for_completion_code c = "MANUAL_REVIEW".
Proof.
  rewrite values_eq. intros Hc. unfold get_api_action_for_completion_code.
  change (code "APPROVED") with "C1G9PC0D".
  change (code "SCREENED_OUT") with "C1NFUEQ1".
  change (code "FAILED_ATTENTION") with "C1M8R1Y4".
  change (code "NO_CONSENT") with "COISODYI".
  destruct (String.eqb_spec c "C1G9PC0D") as [-> | _]; [exfalso; apply Hc; set_solver |].
  destruct (String.eqb_spec c "C1NFUEQ1") as [-> | _]; [exfalso; apply Hc; set_solver |].
  rewrite bool_decide_eq_false_2; [reflexivity |].
  intros H. apply Hc. rewrite !elem_of_cons. right. right.
  by rewrite !elem_of_cons in H.
Qed.



(** C9.  The four configured codes are pairwise distinct; the name lookup
    inverts the table on each of its entries; and a code is known exactly
    when its looked-up name is one of the four configured names. *)
Theorem code_name_roundtrip :
  NoDup values
  ∧ (∀ name c : string,
      assoc name COMPLETION_CODES = Some c → get_code_name c = name)
  ∧ (∀ c : string,
      is_known_completion_code c = true ↔ get_code_name c ∈ names).
Proof.
  split; [| split].
  - rewrite values_eq. apply NoDup_ListNoDup.
    repeat (constructor; [simpl; intuition discriminate |]). constructor.
  - intros name c. unfold COMPLETION_CODES. simpl.
    repeat match goal with
           | |- context [String.eqb ?a name] =>
               destruct (String.eqb_spec a name) as [<- | _];
               [by intros [= <-] |]
           end.
    discriminate.
  - intros c. unfold is_known_completion_code. rewrite bool_decide_eq_true.
    unfold get_code_name. split.
    + intros Hc. rewrite (truthy_values c Hc). cbn [negb].
      by destruct (find_name_values c Hc) as (name & -> & Hn).
    + intros H. destruct (decide (c ∈ values)) as [| Hc]; [done |].
      rewrite (find_name_unknown c Hc) in H.
      destruct (truthy c); cbn [negb] in H.
      * by apply unknown_label_not_a_name in H.
      * rewrite names_eq in H.
        repeat (apply elem_of_cons in H as [H | H]; [discriminate H |]).
        by apply elem_of_nil in H.
Qed.

Lemma code_name_roundtrip_witness :
  get_code_name "C1M8R1Y4" = "FAILED_ATTENTION".
Proof.
  apply (proj1 (proj2 code_name_roundtrip)). reflexivity.
Defined.

End CompletionCodesFacts.

(** ** The review plan *)
Section ReviewPlanFacts.
Import PyStr ReviewPlan.
Local Arguments String.eqb : simpl never.
Local Arguments strip : simpl never.




End ReviewPlanFacts.

(** ** The Firestore-backed service *)
Section UrlDatabaseFacts.
Import PyStr UrlDatabase.
Local Arguments String.eqb : simpl never.

Lemma elem_of_stream (db : gmap string (gmap string value)) doc_id d :
  (doc_id, d) ∈ stream db ↔ db !! doc_id = Some d.
Proof.
  unfold stream. rewrite merge_sort_Permutation. apply elem_of_map_to_list.
Qed.

(** What the query with [limit(1)] returns. *)
Lemma query_available_cases (db : gmap string (gmap string value)) task_id :
  (query_available db task_id = []
   ∧ ∀ doc_id d, db !! doc_id = Some d → matches task_id d = false)
  ∨ (∃ doc_id d, query_available db task_id = [(doc_id, d)]
                 ∧ db !! doc_id = Some d ∧ matches task_id d = true).
Proof.
  unfold query_available.
  destruct (filter (λ p, matches task_id p.2 = true) (stream db))
    as [| [doc_id d] rest] eqn:Hf.
  - left. split; [done |]. intros doc_id d Hd.
    apply not_true_is_false. intros Hm.
    assert ((doc_id, d) ∈ filter (λ p, matches task_id p.2 = true) (stream db)) as Hin.
    { apply list_elem_of_filter. split; [done |]. by apply elem_of_stream. }
    rewrite Hf in Hin. by apply elem_of_nil in Hin.
  - right. exists doc_id, d. split; [done |].
    assert ((doc_id, d) ∈ filter (λ p, matches task_id p.2 = true) (stream db)) as Hin.
    { rewrite Hf. apply elem_of_cons. by left. }
    apply list_elem_of_filter in Hin as [Hm Hin].
    split; [by apply elem_of_stream | done].
Qed.

Lemma update_in_transaction_lookup now doc_id (db : gmap string (gmap string value)) d :
  db !! doc_id = Some d →
  ∃ d', update_in_transaction now doc_id db !! doc_id = Some d'
        ∧ d' !! "available" = Some (VBool false)
        ∧ d' !! "assigned_at" = Some (VTime now).
Proof.
  intros Hd. unfold update_in_transaction. rewrite lookup_alter_eq, Hd. cbn.
  eexists. split; [reflexivity |]. split.
  - rewrite lookup_insert_ne by done. apply lookup_insert_eq.
  - apply lookup_insert_eq.
Qed.

Lemma update_in_transaction_other now doc_id (db : gmap string (gmap string value)) j :
  doc_id ≠ j → update_in_transaction now doc_id db !! j = db !! j.
Proof. intros H. unfold update_in_transaction. by rewrite lookup_alter_ne. Qed.

(** The claim of C1 fails for the empty task id: the only document is
    available and matches it, and the request is refused with status 400
    before any query is made. *)
Lemma get_task_urls_empty_task_id_refused :
  has_available db_empty_task_id ""
  ∧ ¬ allocates "" 0 db_empty_task_id
  ∧ get_task_urls (Some "") 0 db_empty_task_id
    = (JsonError 400 "Missing task_id parameter", db_empty_task_id).
Proof.
  split; [| split].
  - eexists "doc1", _. split; [apply lookup_singleton_eq |]. reflexivity.
  - intros (doc_id & d & _ & _ & H & _). discriminate H.
  - reflexivity.
Qed.

(** C1 (amended).  For every request whose [task_id] is a non-empty string
    matching at least one available document, the endpoint returns the
    payload of one such document (task url, the five response urls, the
    document id) and that document's [available] field is [False]
    afterwards. *)
Theorem get_task_urls_allocates (task_id : string) (now : Z)
    (db : gmap string (gmap string value)) :
  truthy task_id = true →
  has_available db task_id →
  allocates task_id now db.
Proof.
  intros Ht (doc_id0 & d0 & Hd0 & Hm0). unfold allocates, get_task_urls.
  rewrite Ht. cbn [negb].
  destruct (query_available_cases db task_id)
    as [[_ Hnone] | (doc_id & d & -> & Hd & Hm)].
  - rewrite (Hnone _ _ Hd0) in Hm0. discriminate.
  - exists doc_id, d. repeat split; [done | done |]. cbn.
    destruct (update_in_transaction_lookup now doc_id db d Hd) as (d' & ? & ? & _).
    by exists d'.
Qed.

Lemma get_task_urls_allocates_witness :
  allocates "t1" 7
    (<["b" := <["task_id" := VStr "t1"]> (<["available" := VBool true]> ∅)]>
       (<["a" := <["task_id" := VStr "t1"]> (<["available" := VBool false]> ∅)]> ∅)).
Proof.
  apply get_task_urls_allocates.
  - reflexivity.
  - eexists "b", _. split; [apply lookup_insert_eq |]. vm_compute. reflexivity.
Defined.

(** The claim of C2 fails for the empty task id: nothing matches it in the
    empty collection, and the status is 400, not 404. *)
Lemma get_task_urls_empty_task_id_not_404 :
  (∀ doc_id d, (∅ : gmap string (gmap string value)) !! doc_id = Some d →
               matches "" d = false)
  ∧ ¬ not_found "" 0 ∅.
Proof.
  split.
  - intros doc_id d H. by rewrite lookup_empty in H.
  - intros [message H]. discriminate H.
Qed.

(** C2 (amended).  For every request whose [task_id] is a non-empty string
    matching no available document, the endpoint answers 404 and the
    collection is unchanged. *)
Theorem get_task_urls_not_found (task_id : string) (now : Z)
    (db : gmap string (gmap string value)) :
  truthy task_id = true →
  (∀ doc_id d, db !! doc_id = Some d → matches task_id d = false) →
  get_task_urls (Some task_id) now db
  = (JsonError 404 ("No available task instances for task ID: " ++ task_id), db).
Proof.
  intros Ht Hnone. unfold get_task_urls. rewrite Ht. cbn [negb].
  destruct (query_available_cases db task_id)
    as [[-> _] | (doc_id & d & _ & Hd & Hm)]; [done |].
  rewrite (Hnone _ _ Hd) in Hm. discriminate.
Qed.

Lemma get_task_urls_not_found_witness :
  get_task_urls (Some "t2") 7
    (<["a" := <["task_id" := VStr "t1"]> (<["available" := VBool true]> ∅)]> ∅)
  = (JsonError 404 "No available task instances for task ID: t2",
     <["a" := <["task_id" := VStr "t1"]> (<["available" := VBool true]> ∅)]> ∅).
Proof.
  apply get_task_urls_not_found.
  - reflexivity.
  - intros doc_id d H. apply lookup_insert_Some in H as [[<- <-] | [_ H]].
    + vm_compute. reflexivity.
    + by rewrite lookup_empty in H.
Defined.

(** A request without a usable [task_id] is refused and changes nothing. *)
Lemma get_task_urls_missing_parameter (task_id : option string) now
    (db : gmap string (gmap string value)) :
  from_option truthy false task_id = false →
  get_task_urls task_id now db = (JsonError 400 "Missing task_id parameter", db).
Proof.
  destruct task_id as [tid |]; cbn; [| done]. by intros ->.
Qed.

(** *** /import_data *)

Lemma default_available_field (item : gmap string value) :
  is_Some (default_available item !! "available")
  ∧ (item !! "available" = None →
     default_available item !! "available" = Some (VBool true))
  ∧ (∀ v, item !! "available" = Some v → default_available item = item).
Proof.
  unfold default_available.
  destruct (item !! "available") as [v |] eqn:Hv.
  - split; [by rewrite Hv | split; [done | done]].
  - rewrite lookup_insert_eq. split; [done | split; [done | done]].
Qed.

Lemma nan_to_none_supplies (row : gmap string value) :
  row !! "available" = None → nan_to_none row !! "available" = None.
Proof. intros H. unfold nan_to_none. by rewrite lookup_fmap, H. Qed.

Lemma commit_invariant (P : string → gmap string value → Prop)
    (ws : list (string * gmap string value)) :
  ∀ db : gmap string (gmap string value),
    (∀ w, w ∈ ws → P w.1 w.2) →
    (∀ doc_id d, db !! doc_id = Some d → P doc_id d) →
    ∀ doc_id d, commit ws db !! doc_id = Some d → P doc_id d.
Proof.
  unfold commit.
  induction ws as [| w ws IH]; intros db Hws Hdb doc_id d; cbn [foldl].
  - apply Hdb.
  - apply IH.
    + intros w' Hw'. apply Hws. apply elem_of_cons. by right.
    + intros doc_id' d' H. apply lookup_insert_Some in H as [[<- <-] | [_ H]].
      * apply Hws. apply elem_of_cons. by left.
      * by apply Hdb.
Qed.

Lemma batches_of_subseteq {A : Type} (batch_size : nat) :
  ∀ (fuel : nat) (items b : list A) (x : A),
    b ∈ batches_of fuel batch_size items → x ∈ b → x ∈ items.
Proof.
  induction fuel as [| fuel IH]; intros items b x Hb Hx.
  - destruct items; by apply elem_of_nil in Hb.
  - destruct items as [| a items]; [by apply elem_of_nil in Hb |].
    cbn [batches_of] in Hb. apply elem_of_cons in Hb as [-> | Hb].
    + by apply (subseteq_take batch_size).
    + apply (subseteq_drop batch_size). by apply (IH _ b).
Qed.

(** The fuel of [batches] is enough: the batches cover all the items, in
    order. *)
Lemma batches_of_concat {A : Type} (batch_size : nat) :
  (0 < batch_size)%nat →
  ∀ (fuel : nat) (items : list A),
    (length items ≤ fuel)%nat → concat (batches_of fuel batch_size items) = items.
Proof.
  intros Hb. induction fuel as [| fuel IH]; intros items Hlen.
  - destruct items; [done | cbn in Hlen; lia].
  - destruct items as [| a items]; [done |].
    cbn [batches_of concat]. rewrite IH; [apply take_drop |].
    rewrite length_drop. cbn [length] in *. lia.
Qed.

Lemma batches_concat {A : Type} (items : list A) :
  concat (batches 400 items) = items.
Proof. apply batches_of_concat; lia. Qed.

Lemma csv_batch_writes_from uuids (b : list (gmap string value)) :
  ∀ count w, w ∈ csv_batch_writes uuids count b →
             ∃ row, row ∈ b ∧ w.2 = default_available (nan_to_none row).
Proof.
  induction b as [| row b IH]; intros count w Hw; cbn in Hw.
  - by apply elem_of_nil in Hw.
  - apply elem_of_cons in Hw as [-> | Hw].
    + exists row. split; [apply elem_of_cons; by left | done].
    + destruct (IH _ _ Hw) as (row' & ? & ?). exists row'.
      split; [apply elem_of_cons; by right | done].
Qed.

Lemma json_batch_writes_from uuids (b : list json_item) :
  ∀ count ws w, json_batch_writes uuids count b = Some ws → w ∈ ws →
                ∃ fields, JObject fields ∈ b ∧ w.2 = default_available fields.
Proof.
  induction b as [| item b IH]; intros count ws w Hws Hw; cbn in Hws.
  - injection Hws as <-. by apply elem_of_nil in Hw.
  - destruct item as [fields |]; cbn in Hws; [| done].
    destruct (json_batch_writes uuids (S count) b) as [ws' |] eqn:Hb; [| done].
    cbn in Hws. injection Hws as <-.
    apply elem_of_cons in Hw as [-> | Hw].
    + exists fields. split; [apply elem_of_cons; by left | done].
    + destruct (IH _ _ _ Hb Hw) as (fields' & ? & ?). exists fields'.
      split; [apply elem_of_cons; by right | done].
Qed.

Lemma import_csv_batches_invariant (P : string → gmap string value → Prop) uuids
    (rows : list (gmap string value)) (bs : list (list (gmap string value))) :
  (∀ b row, b ∈ bs → row ∈ b → row ∈ rows) →
  (∀ doc_id row, row ∈ rows → P doc_id (default_available (nan_to_none row))) →
  ∀ count (db : gmap string (gmap string value)),
    (∀ doc_id d, db !! doc_id = Some d → P doc_id d) →
    ∀ doc_id d, (import_csv_batches uuids count bs db).2 !! doc_id = Some d →
                P doc_id d.
Proof.
  intros Hbs HP.
  induction bs as [| b bs IH]; intros count db Hdb doc_id d; cbn.
  - apply Hdb.
  - apply IH.
    + intros b' row Hb'. apply Hbs. apply elem_of_cons. by right.
    + apply commit_invariant; [| done].
      intros w Hw. destruct (csv_batch_writes_from _ _ _ _ Hw) as (row & Hrow & ->).
      apply HP. apply (Hbs b); [apply elem_of_cons; by left | done].
Qed.

Lemma import_json_batches_invariant (P : string → gmap string value → Prop) uuids
    (items : list json_item) (bs : list (list json_item)) :
  (∀ b item, b ∈ bs → item ∈ b → item ∈ items) →
  (∀ doc_id fields, JObject fields ∈ items → P doc_id (default_available fields)) →
  ∀ count (db : gmap string (gmap string value)),
    (∀ doc_id d, db !! doc_id = Some d → P doc_id d) →
    ∀ doc_id d, (import_json_batches uuids count bs db).2 !! doc_id = Some d →
                P doc_id d.
Proof.
  intros Hbs HP.
  induction bs as [| b bs IH]; intros count db Hdb doc_id d; cbn.
  - apply Hdb.
  - destruct (json_batch_writes uuids count b) as [ws |] eqn:Hws; cbn; [| apply Hdb].
    apply IH.
    + intros b' item Hb'. apply Hbs. apply elem_of_cons. by right.
    + apply commit_invariant; [| done].
      intros w Hw.
      destruct (json_batch_writes_from _ _ _ _ _ Hws Hw) as (fields & Hf & ->).
      apply HP. apply (Hbs b); [apply elem_of_cons; by left | done].
Qed.

(** C10.  Every record that [/import_data] writes, from a CSV row or from a
    JSON item, carries an [available] field, and the field is [True] when
    the row or item did not supply one: each document in the collection
    after the import is a document that was there before or the written
    form of an uploaded row or item, and every written form has the
    field. *)
Theorem import_data_sets_available (uuids : nat → string) (format_type : string)
    (clear_existing : bool) (read_csv : list (gmap string value))
    (json_load : list json_item) (db : gmap string (gmap string value)) :
  (∀ item : gmap string value,
      is_Some (default_available item !! "available")
      ∧ (item !! "available" = None →
         default_available item !! "available" = Some (VBool true)))
  ∧ (∀ d, written_from read_csv json_load d → is_Some (d !! "available"))
  ∧ (∀ doc_id d,
      (import_data uuids format_type clear_existing read_csv json_load db).2
        !! doc_id = Some d →
      db !! doc_id = Some d ∨ written_from read_csv json_load d).
Proof.
  split; [| split].
  - intros item. destruct (default_available_field item) as (? & ? & _). done.
  - intros d [(row & _ & -> & _) | (fields & _ & -> & _)];
      apply default_available_field.
  - set (P := λ (doc_id : string) (d : gmap string value),
             db !! doc_id = Some d ∨ written_from read_csv json_load d).
    assert (∀ doc_id d,
               (if clear_existing then ∅ else db) !! doc_id = Some d → P doc_id d)
      as Hdb0.
    { intros doc_id d H. left. destruct clear_existing; [| done].
      by rewrite lookup_empty in H. }
    unfold import_data.
    destruct (bool_decide (format_type ∈ ["csv"; "json"])); cbn [negb];
      [| intros doc_id d H; by left].
    destruct (String.eqb format_type "csv").
    + pose proof (import_csv_batches_invariant P uuids read_csv
                    (batches 400 read_csv)) as Hinv.
      destruct (import_csv_batches uuids 0 (batches 400 read_csv)
                  (if clear_existing then ∅ else db)) as [n db'] eqn:Himp.
      intros doc_id d H. cbn in H.
      eapply (Hinv (batches_of_subseteq 400 _ _)); [| apply Hdb0 | by rewrite Himp].
      intros doc_id' row Hrow. right. left. exists row.
      split; [done | split; [done |]].
      intros Hnone. apply default_available_field. by apply nan_to_none_supplies.
    + pose proof (import_json_batches_invariant P uuids json_load
                    (batches 400 json_load)) as Hinv.
      destruct (import_json_batches uuids 0 (batches 400 json_load)
                  (if clear_existing then ∅ else db)) as [[n |] db'] eqn:Himp;
        intros doc_id d H; cbn in H;
        (eapply (Hinv (batches_of_subseteq 400 _ _));
         [| apply Hdb0 | by rewrite Himp]);
        intros doc_id' fields Hf; right; right; exists fields;
        (split; [done | split; [done |]]);
        intros Hnone; by apply default_available_field.
Qed.

(** An upload of one CSV row that has no [available] column, into an
    empty collection, with ["u1"] as the fresh document id. *)
Lemma import_data_sets_available_witness :
  default_available (<["task_id" := VStr "t1"]> ∅) !! "available"
  = Some (VBool true)
  ∧ ((∅ : gmap string (gmap string value)) !! "u1"
     = Some (<["available" := VBool true]> (<["task_id" := VStr "t1"]> ∅))
     ∨ written_from [<["task_id" := VStr "t1"]> ∅] []
         (<["available" := VBool true]> (<["task_id" := VStr "t1"]> ∅))).
Proof.
  split.
  - apply (proj1 (import_data_sets_available (λ _, "u1") "csv" false [] [] ∅)).
    reflexivity.
  - apply (proj2 (proj2 (import_data_sets_available (λ _, "u1") "csv" false
                           [<["task_id" := VStr "t1"]> ∅] [] ∅)) "u1").
    vm_compute. reflexivity.
Defined.


End UrlDatabaseFacts.

(** ** Python's [random.sample] and [random.shuffle] *)
Section PyRandomFacts.
Import PyRandom.
Local Open Scope nat_scope.
Context {A : Type}.
Implicit Types x pool population : list A.

Lemma middle_to_end (l1 l2 : list A) (a b : A) :
  a :: (l1 ++ b :: l2) ≡ₚ (l1 ++ a :: l2) ++ [b].
Proof.
  rewrite <- app_assoc. cbn.
  rewrite <- !Permutation_middle. by rewrite app_nil_r.
Qed.

Lemma insert_pick x (j : nat) (a b : A) :
  x !! j = Some a → a :: <[j := b]> x ≡ₚ x ++ [b].
Proof.
  intros Hj.
  rewrite insert_take_drop by (by eapply lookup_lt_Some).
  rewrite middle_to_end. by rewrite take_drop_middle.
Qed.




Lemma swap_Permutation x (i j : nat) : swap x i j ≡ₚ x.
Proof.
  unfold swap.
  destruct (x !! i) as [a |] eqn:Hi; [| done].
  destruct (x !! j) as [b |] eqn:Hj; [| done].
  destruct (decide (i = j)) as [-> | Hne].
  - rewrite list_insert_insert_eq.
    assert (a = b) as -> by congruence. by rewrite list_insert_id.
  - apply Permutation_cons_inv with b.
    rewrite (insert_pick (<[i := b]> x) j b a)
      by (by rewrite list_lookup_insert_ne).
    rewrite <- Permutation_cons_append.
    rewrite (insert_pick x i a b Hi).
    by rewrite <- Permutation_cons_append.
Qed.

Lemma shuffle_loop_Permutation (rng : nat → nat) :
  ∀ (i step : nat) x, shuffle_loop rng step i x ≡ₚ x.
Proof.
  induction i as [| i IH]; intros step x; cbn [shuffle_loop]; [done |].
  by rewrite IH, swap_Permutation.
Qed.

Lemma shuffle_Permutation (rng : nat → nat) x : shuffle rng x ≡ₚ x.
Proof. apply shuffle_loop_Permutation. Qed.

End PyRandomFacts.

(** ** The SQLite-backed service *)
Section QualtricsDatabaseFacts.
Import QualtricsDatabase.
Local Arguments String.eqb : simpl never.
Local Open Scope nat_scope.
Local Open Scope list_scope.

Variable param_eq : Z → string → bool.
Variable rng : nat → nat.

Lemma least_instance_elem_of (rows : list instance_row) r :
  least_instance rows = Some r → r ∈ rows.
Proof.
  revert r. induction rows as [| r0 rows IH]; intros r; cbn; [done |].
  destruct (least_instance rows) as [r' |].
  - destruct (instance_number r' <? instance_number r0)%Z; intros [= <-].
    + apply elem_of_cons. right. by apply IH.
    + apply elem_of_cons. by left.
  - intros [= <-]. apply elem_of_cons. by left.
Qed.

Lemma select_instance_eligible db task_db_id round_id r :
  select_instance db task_db_id round_id = Some r →
  r ∈ task_instances db ∧ eligible task_db_id round_id r = true.
Proof.
  intros H. apply least_instance_elem_of, list_elem_of_filter in H. tauto.
Qed.

Lemma mark_assigned_rows db round_id instance_id r' :
  r' ∈ task_instances (mark_assigned db round_id instance_id) →
  instance_pk r' = instance_id →
  is_assigned r' = true ∧ assigned_round r' = round_id.
Proof.
  cbn. intros (r & -> & _)%list_elem_of_fmap. unfold assign_row.
  destruct (instance_pk r =? instance_id)%Z eqn:Hpk; cbn; [done |].
  intros Heq. apply Z.eqb_neq in Hpk. done.
Qed.

Lemma mark_assigned_row_present db round_id r :
  r ∈ task_instances db →
  ∃ r', r' ∈ task_instances (mark_assigned db round_id (instance_pk r))
        ∧ instance_pk r' = instance_pk r.
Proof.
  intros Hr. exists (assign_row round_id (instance_pk r) r). split.
  - cbn. by apply list_elem_of_fmap_2.
  - unfold assign_row. by rewrite Z.eqb_refl.
Qed.


(** The claim of C5 fails for an instance assigned in an earlier round and
    not completed: it is selected again while [is_assigned] is true. *)
Lemma get_next_task_instance_reassigns :
  select_instance db_reassigned 1 2 = Some reassigned_row
  ∧ is_assigned reassigned_row = true
  ∧ get_next_task_instance decimal_eq (λ _, 0) db_reassigned "7" "nurse" 2
    = (Some ("https://example.org/t7_i1.pdf", [None; None; None; None; None]),
       mark_assigned db_reassigned 2 10).
Proof. repeat split. Qed.

(** C5 (amended).  Every task instance returned by
    [get_next_task_instance] was, when selected, an instance of the
    requested task that was unassigned, or not completed and assigned in an
    earlier round than the requested one; on return it is marked assigned
    ([is_assigned = TRUE]) with [assigned_round] set to the requested
    round. *)
Theorem get_next_task_instance_marks_assigned (db : database)
    (task_id occ : string) (round_id : Z) (url : string)
    (models : list (option string)) (db' : database) :
  get_next_task_instance param_eq rng db task_id occ round_id
  = (Some (url, models), db') →
  ∃ task r,
    find_task param_eq db task_id occ = Some task
    ∧ r ∈ task_instances db
    ∧ instance_task r = task_pk task
    ∧ instance_pdf_url r = url
    ∧ (is_assigned r = false
       ∨ (is_completed r = false ∧ (assigned_round r < round_id)%Z))
    ∧ (∃ r', r' ∈ task_instances db' ∧ instance_pk r' = instance_pk r)
    ∧ ∀ r', r' ∈ task_instances db' → instance_pk r' = instance_pk r →
            is_assigned r' = true ∧ assigned_round r' = round_id.
Proof.
  unfold get_next_task_instance.
  destruct (find_task param_eq db task_id occ) as [task |]; [| done].
  destruct (select_instance db (task_pk task) round_id) as [r |] eqn:Hsel; [| done].
  intros [= <- <- <-].
  apply select_instance_eligible in Hsel as [Hr Hel].
  unfold eligible in Hel.
  apply andb_true_iff in Hel as [Htask Hel]. apply Z.eqb_eq in Htask.
  exists task, r. repeat split; try done.
  - apply orb_true_iff in Hel as [Hel | Hel].
    + left. by apply negb_true_iff.
    + right. apply andb_true_iff in Hel as [Hc Hlt].
      split; [by apply negb_true_iff | by apply Z.ltb_lt].
  - by apply mark_assigned_row_present.
  - by eapply mark_assigned_rows.
  - by eapply mark_assigned_rows.
Qed.


End QualtricsDatabaseFacts.

Lemma get_next_task_instance_marks_assigned_witness :
  ∃ task r,
    QualtricsDatabase.find_task QualtricsDatabase.decimal_eq
      QualtricsDatabase.db_reassigned "7" "nurse" = Some task
    ∧ r ∈ QualtricsDatabase.task_instances QualtricsDatabase.db_reassigned
    ∧ QualtricsDatabase.instance_task r = QualtricsDatabase.task_pk task
    ∧ QualtricsDatabase.instance_pdf_url r = "https://example.org/t7_i1.pdf"
    ∧ (QualtricsDatabase.is_assigned r = false
       ∨ (QualtricsDatabase.is_completed r = false
          ∧ (QualtricsDatabase.assigned_round r < 2)%Z))
    ∧ (∃ r', r' ∈ QualtricsDatabase.task_instances
                    (QualtricsDatabase.mark_assigned
                       QualtricsDatabase.db_reassigned 2 10)
             ∧ QualtricsDatabase.instance_pk r' = QualtricsDatabase.instance_pk r)
    ∧ ∀ r', r' ∈ QualtricsDatabase.task_instances
                   (QualtricsDatabase.mark_assigned
                      QualtricsDatabase.db_reassigned 2 10) →
            QualtricsDatabase.instance_pk r' = QualtricsDatabase.instance_pk r →
            QualtricsDatabase.is_assigned r' = true
            ∧ QualtricsDatabase.assigned_round r' = 2%Z.
Proof.
  apply (get_next_task_instance_marks_assigned QualtricsDatabase.decimal_eq
           (λ _, 0%nat) QualtricsDatabase.db_reassigned "7" "nurse" 2
           "https://example.org/t7_i1.pdf" [None; None; None; None; None]).
  reflexivity.
Defined.


(** ** Latin square randomization *)

(** Counting over a list of five items repeated cyclically. *)
Section CyclicRepeat.
Local Open Scope nat_scope.
Local Open Scope list_scope.
Context {A : Type} (d : A) (P : A → Prop) `{!∀ x, Decision (P x)}.

Local Abbreviation cyc L n :=
  ((λ i, default d (L%list !! (i mod length L%list))) <$> seq 0 n).

Lemma cyc_prefix (L : list A) (r : nat) :
  length L = 5 → r ≤ 5 → cyc L r = take r L.
Proof.
  intros HL Hr. rewrite HL.
  destruct L as [| a0 [| a1 [| a2 [| a3 [| a4 [| a5 L]]]]]]; try discriminate HL.
  do 6 (destruct r as [| r]; [reflexivity |]). lia.
Qed.

Lemma cyc_period (L : list A) (n : nat) :
  length L = 5 → cyc L (5 + n) = L ++ cyc L n.
Proof.
  intros HL. rewrite seq_app, fmap_app.
  rewrite (cyc_prefix L 5 HL), firstn_all2 by lia.
  f_equal. change (seq (0 + 5) n) with (seq (5 + 0) n).
  rewrite <- (fmap_add_seq 5 0 n), <- list_fmap_compose.
  apply list_fmap_ext. intros _ i _. cbn [compose]. rewrite HL.
  replace (5 + i) with (i + 1 * 5) by lia. by rewrite Nat.Div0.mod_add.
Qed.

Lemma cyc_count_bounds (L : list A) :
  length L = 5 → length (filter P L) = 1 →
  ∀ q r, r < 5 →
    q ≤ length (filter P (cyc L (5 * q + r)))
    ∧ length (filter P (cyc L (5 * q + r))) ≤ q + (if decide (r = 0) then 0 else 1).
Proof.
  intros HL H1. induction q as [| q IH]; intros r Hr.
  - rewrite Nat.mul_0_r, Nat.add_0_l, cyc_prefix by lia.
    destruct (decide (r = 0)) as [-> | _]; [rewrite take_0; cbn; lia |].
    split; [lia |].
    rewrite <- (take_drop r L), filter_app, length_app in H1. lia.
  - replace (5 * S q + r) with (5 + (5 * q + r)) by lia.
    rewrite cyc_period, filter_app, length_app, H1 by done.
    specialize (IH r Hr). lia.
Qed.

Lemma cyc_count (L : list A) (n : nat) :
  length L = 5 → length (filter P L) = 1 →
  length (filter P (cyc L n)) = n / 5
  ∨ length (filter P (cyc L n)) = (n + 4) / 5.
Proof.
  intros HL H1.
  pose proof (cyc_count_bounds L HL H1 (n / 5) (n mod 5)) as Hb.
  rewrite <- Nat.div_mod_eq in Hb.
  destruct Hb as [Hlo Hhi]; [apply Nat.mod_upper_bound; lia |].
  pose proof (Nat.div_mod_eq n 5) as Hn.
  pose proof (Nat.mod_upper_bound n 5 ltac:(lia)) as Hr.
  destruct (decide (n mod 5 = 0)) as [H0 | H0].
  - left. lia.
  - assert ((n + 4) / 5 = n / 5 + 1) as ->; [| lia].
    symmetry. apply (Nat.div_unique _ 5 _ (n mod 5 - 1)); lia.
Qed.

End CyclicRepeat.

Section LatinSquareFacts.
Import LatinSquare.
Local Arguments String.eqb : simpl never.
Local Open Scope nat_scope.
Local Open Scope list_scope.

Variable rng : nat → nat.

Lemma latin_square_orders_shifts :
  latin_square_orders = cyclic_shift <$> seq 0 5.
Proof. reflexivity. Qed.

Lemma shifts_NoDup : NoDup (cyclic_shift <$> seq 0 5).
Proof.
  apply NoDup_ListNoDup. cbn.
  repeat (constructor; [cbn; intuition discriminate |]). constructor.
Qed.

Lemma shuffled_Permutation :
  PyRandom.shuffle rng latin_square_orders ≡ₚ latin_square_orders.
Proof. apply shuffle_Permutation. Qed.

Lemma shuffled_length : length (PyRandom.shuffle rng latin_square_orders) = 5.
Proof. by rewrite shuffled_Permutation. Qed.

Lemma repeat_orders_length orders n_rows :
  length (repeat_orders orders n_rows) = Z.to_nat n_rows.
Proof. unfold repeat_orders. by rewrite length_fmap, length_seq. Qed.

Lemma repeat_orders_lookup orders n_rows i :
  i < Z.to_nat n_rows →
  repeat_orders orders n_rows !! i
  = Some (default [] (orders !! (i mod length orders))).
Proof.
  intros Hi. unfold repeat_orders.
  by rewrite list_lookup_fmap, lookup_seq_lt.
Qed.

Lemma repeat_orders_elem_of orders n_rows order :
  length orders = 5 → order ∈ repeat_orders orders n_rows → order ∈ orders.
Proof.
  intros HL (i & -> & _)%list_elem_of_fmap.
  destruct (lookup_lt_is_Some_2 orders (i mod length orders)) as [o Ho].
  { apply Nat.mod_upper_bound. lia. }
  rewrite Ho. cbn. by eapply list_elem_of_lookup_2.
Qed.

Lemma repeat_orders_first_five orders n_rows :
  length orders = 5 → (5 ≤ n_rows)%Z → take 5 (repeat_orders orders n_rows) = orders.
Proof.
  intros HL Hn. unfold repeat_orders.
  rewrite <- fmap_take, take_seq, Nat.min_l by lia.
  rewrite (cyc_prefix [] orders 5) by lia. apply firstn_all2. lia.
Qed.

(** Before shuffling, every model is at every position in exactly one of
    the five orders. *)
Lemma latin_square_once model position :
  model ∈ model_names → position < 5 →
  length (filter (λ order : list string, order !! position = Some model)
            latin_square_orders) = 1.
Proof.
  intros Hm Hp.
  change model_names with
    ["GPT_4o_2025"; "Claude_3_Opus"; "Gemini_Ultra"; "GPT_4_Turbo";
     "Claude_3_Sonnet"]%string in Hm.
  repeat (apply elem_of_cons in Hm as [-> | Hm];
          [do 5 (destruct position as [| position]; [reflexivity |]); lia |]).
  by apply elem_of_nil in Hm.
Qed.

(** C3.  For every [n_rows >= 0], [generate_latin_square_orders(5, n_rows)]
    returns a list of exactly [n_rows] orders; each order is a cyclic shift
    of the five model names; when [n_rows >= 5] the first five orders are
    the five cyclic shifts, which are pairwise distinct, in some order; and
    order [i] equals order [i mod 5].  For every [n_models] other than 5
    the call raises [ValueError]. *)
Theorem generate_latin_square_orders_spec :
  (∀ n_rows : Z, (0 ≤ n_rows)%Z →
     ∃ orders,
       generate_latin_square_orders rng 5 n_rows = Returns orders
       ∧ Z.of_nat (length orders) = n_rows
       ∧ (∀ order, order ∈ orders → ∃ k, k < 5 ∧ order = cyclic_shift k)
       ∧ ((5 ≤ n_rows)%Z → take 5 orders ≡ₚ cyclic_shift <$> seq 0 5)
       ∧ (∀ i, i < length orders → orders !! i = orders !! (i mod 5)))
  ∧ NoDup (cyclic_shift <$> seq 0 5)
  ∧ (∀ n_models n_rows : Z, n_models ≠ 5%Z →
       generate_latin_square_orders rng n_models n_rows
       = Raises "ValueError" "This implementation is designed for exactly 5 models").
Proof.
  split; [| split; [apply shifts_NoDup |]].
  - intros n_rows Hn. eexists. split; [reflexivity |].
    pose proof shuffled_length as HL.
    split; [rewrite repeat_orders_length; lia |]. split; [| split].
    + intros order Ho. apply repeat_orders_elem_of in Ho; [| done].
      rewrite shuffled_Permutation, latin_square_orders_shifts in Ho.
      apply list_elem_of_fmap in Ho as (k & -> & Hk).
      exists k. split; [| done]. apply elem_of_seq in Hk. lia.
    + intros H5. rewrite repeat_orders_first_five by done.
      by rewrite shuffled_Permutation.
    + intros i Hi. rewrite repeat_orders_length in Hi.
      assert (i mod 5 < 5) as Hlt by (apply Nat.mod_upper_bound; lia).
      assert (i mod 5 ≤ i) as Hle by (apply Nat.Div0.mod_le).
      rewrite !repeat_orders_lookup by lia.
      by rewrite HL, Nat.Div0.mod_mod.
  - intros n_models n_rows Hne. unfold generate_latin_square_orders.
    by apply Z.eqb_neq in Hne as ->.
Qed.

(** C4.  For every [n_rows >= 0], in the orders returned by
    [generate_latin_square_orders(5, n_rows)] each of the five models is at
    each of the five positions either [floor(n_rows / 5)] or
    [ceil(n_rows / 5)] times. *)
Theorem latin_square_balance (n_rows : Z) (orders : list (list string))
    (model : string) (position : nat) :
  (0 ≤ n_rows)%Z →
  generate_latin_square_orders rng 5 n_rows = Returns orders →
  model ∈ model_names →
  position < 5 →
  position_count orders model position = Z.to_nat n_rows / 5
  ∨ position_count orders model position = (Z.to_nat n_rows + 4) / 5.
Proof.
  intros _ [= <-] Hm Hp. unfold position_count, repeat_orders.
  apply cyc_count; [apply shuffled_length |].
  rewrite shuffled_Permutation. by apply latin_square_once.
Qed.

End LatinSquareFacts.

Lemma generate_latin_square_orders_spec_witness :
  (∃ orders,
      LatinSquare.generate_latin_square_orders (λ n, 7 * n + 3)%nat 5 7
      = LatinSquare.Returns orders
      ∧ Z.of_nat (length orders) = 7%Z
      ∧ (∀ order, order ∈ orders →
                  ∃ k, (k < 5)%nat ∧ order = LatinSquare.cyclic_shift k)
      ∧ ((5 ≤ 7)%Z → take 5 orders ≡ₚ LatinSquare.cyclic_shift <$> seq 0 5)
      ∧ (∀ i, (i < length orders)%nat → orders !! i = orders !! (i mod 5)%nat))
  ∧ LatinSquare.generate_latin_square_orders (λ n, 7 * n + 3)%nat 4 7
    = LatinSquare.Raises "ValueError"
        "This implementation is designed for exactly 5 models".
Proof.
  split.
  - apply (proj1 (generate_latin_square_orders_spec (λ n, 7 * n + 3)%nat) 7%Z).
    lia.
  - apply (proj2 (proj2 (generate_latin_square_orders_spec (λ n, 7 * n + 3)%nat))).
    lia.
Defined.

Lemma latin_square_balance_witness :
  LatinSquare.position_count
    (LatinSquare.repeat_orders
       (PyRandom.shuffle (λ n, 7 * n + 3)%nat LatinSquare.latin_square_orders) 7)
    "Gemini_Ultra" 2 = (Z.to_nat 7 / 5)%nat
  ∨ LatinSquare.position_count
      (LatinSquare.repeat_orders
         (PyRandom.shuffle (λ n, 7 * n + 3)%nat LatinSquare.latin_square_orders) 7)
      "Gemini_Ultra" 2 = ((Z.to_nat 7 + 4) / 5)%nat.
Proof.
  apply (latin_square_balance (λ n, 7 * n + 3)%nat 7).
  - lia.
  - reflexivity.
  - vm_compute. apply elem_of_cons. right. apply elem_of_cons. right.
    apply elem_of_cons. by left.
  - lia.
Defined.

(** ** More on the completion-code policy *)
Section CompletionCodesPolicy.
Import PyStr CompletionCodes.
Local Arguments String.eqb : simpl never.





(** [analyze_completion_code] agrees with the other lookups: its [known]
    flag is [is_known_completion_code], its meaning is [get_code_name] for
    every non-empty code, and its expected outcome corresponds to the
    recommended API action. *)
Theorem analyze_completion_code_consistent (c : string) :
  known (analyze_completion_code c) = is_known_completion_code c
  ∧ (c ≠ "" → meaning (analyze_completion_code c) = get_code_name c)
  ∧ (expected_outcome (analyze_completion_code c) = "AUTO_APPROVE"
     ↔ get_api_action_for_completion_code c = "SKIP")
  ∧ (expected_outcome (analyze_completion_code c) = "SCREENED_OUT_WITH_PAYMENT"
     ↔ get_api_action_for_completion_code c = "SCREEN_OUT")
  ∧ (expected_outcome (analyze_completion_code c) = "REJECT"
     ↔ get_api_action_for_completion_code c = "REJECT")
  ∧ (expected_outcome (analyze_completion_code c) ∈ ["MANUAL_REVIEW"; "UNKNOWN"]
     ↔ get_api_action_for_completion_code c = "MANUAL_REVIEW").
Proof.
  destruct (decide (c ∈ values)) as [Hc | Hc].
  - rewrite values_eq in Hc.
    repeat (apply elem_of_cons in Hc as [-> | Hc];
            [vm_compute; repeat split; try done; try discriminate;
             intros H; repeat (apply elem_of_cons in H as [H | H]; [discriminate H |]);
             by apply elem_of_nil in H |]).
    by apply elem_of_nil in Hc.
  - rewrite (api_action_unknown c Hc).
    unfold analyze_completion_code, is_known_completion_code, get_code_name.
    rewrite (find_name_unknown c Hc).
    rewrite (bool_decide_eq_false_2 _ Hc).
    destruct c as [| a c']; cbn [truthy negb known meaning expected_outcome].
    + repeat split; try done; try discriminate.
      intros _. apply elem_of_cons. right. apply elem_of_cons. by left.
    + repeat split; try done; try discriminate.
      intros _. apply elem_of_cons. by left.
Qed.

Lemma analyze_completion_code_consistent_witness :
  meaning (analyze_completion_code "C1NFUEQ1") = get_code_name "C1NFUEQ1".
Proof.
  apply (proj1 (proj2 (analyze_completion_code_consistent "C1NFUEQ1"))).
  discriminate.
Defined.


End CompletionCodesPolicy.

(** ** More on the review plan *)
Section ReviewPlanEntries.
Import PyStr ReviewPlan.
Local Arguments String.eqb : simpl never.
Local Arguments strip : simpl never.
Local Open Scope nat_scope.

(** The entry of a step does not depend on the counters so far. *)
Lemma review_step_entry participant_data summary summary' sub :
  (review_step participant_data summary sub).1
  = (review_step participant_data summary' sub).1.
Proof.
  unfold review_step.
  repeat match goal with
         | |- context [match ?o with Some _ => _ | None => _ end] => destruct o
         | |- context [if ?b then _ else _] => destruct b
         end; reflexivity.
Qed.

Lemma review_loop_entries participant_data subs :
  ∀ plan summary,
    (review_loop participant_data subs plan summary).1
    = (plan ++ ((λ sub, (review_step participant_data summary0 sub).1) <$> subs))%list.
Proof.
  induction subs as [| sub rest IH]; intros plan summary; cbn [review_loop fmap list_fmap].
  - by rewrite app_nil_r.
  - pose proof (review_step_entry participant_data summary summary0 sub) as He.
    destruct (review_step participant_data summary sub) as [e summary'].
    cbn in He. rewrite IH, <- app_assoc, He. reflexivity.
Qed.

Lemma generate_review_plan_map prolific_submissions participant_data :
  generate_review_plan prolific_submissions participant_data
  = (λ sub, (review_step participant_data summary0 sub).1) <$> prolific_submissions.
Proof.
  unfold generate_review_plan, generate_review_plan_run.
  by rewrite review_loop_entries.
Qed.

(** The plan follows the submissions in order: entry [i] carries the id,
    the participant id, the status and the completion code of submission
    [i]. *)
Theorem review_plan_follows_submissions (prolific_submissions : list submission)
    (participant_data : gmap string (gmap string string)) (i : nat)
    (sub : submission) :
  prolific_submissions !! i = Some sub →
  ∃ e, generate_review_plan prolific_submissions participant_data !! i = Some e
       ∧ prolific_submission_id e = sub_get sub "id"
       ∧ prolific_participant_id e = sub_get sub "participant_id"
       ∧ current_prolific_status e = sub_get sub "status"
       ∧ actual_completion_code e = sub_get_or_empty sub "study_code".
Proof.
  intros Hi. rewrite generate_review_plan_map, list_lookup_fmap, Hi. cbn.
  eexists. split; [reflexivity |]. unfold review_step.
  repeat match goal with
         | |- context [match ?o with Some _ => _ | None => _ end] => destruct o
         | |- context [if ?b then _ else _] => destruct b
         end; cbn; done.
Qed.

Lemma review_plan_follows_submissions_witness :
  ∃ e, generate_review_plan
         [ {[ "id" := Some "s1" ]}; {[ "id" := Some "s2"; "study_code" := None ]} ]
         ∅ !! 1 = Some e
       ∧ prolific_submission_id e = Some "s2"
       ∧ prolific_participant_id e = None
       ∧ current_prolific_status e = None
       ∧ actual_completion_code e = None.
Proof.
  exact (review_plan_follows_submissions
           [ {[ "id" := Some "s1" ]}; {[ "id" := Some "s2"; "study_code" := None ]} ]
           ∅ 1 {[ "id" := Some "s2"; "study_code" := None ]} eq_refl).
Defined.

(** What an entry says about the submission it was made from. *)
Lemma review_step_entry_cases participant_data sub :
  let e := (review_step participant_data summary0 sub).1 in
  let code := sub_get_or_empty sub "study_code" in
  match find_row participant_data (sub_get sub "participant_id") with
  | None =>
      validation_status e = "NO_CSV_DATA" ∧ local_status e = ""
      ∧ proposed_action e
        = (if truthy_opt code then "APPROVE_NO_LOCAL_DATA"
           else "MANUAL_REVIEW_NO_LOCAL_DATA")
  | Some csv_row =>
      local_status e = strip (get_str csv_row "status")
      ∧ match truthy_opt code, truthy (local_status e) with
        | true, true =>
            if agreement code (local_status e) then
              validation_status e = "MATCH"
              ∧ proposed_action e
                = action_for (local_status e) "NO_ACTION_NO_CSV_DATA"
                    "APPROVE" "REJECT" "SCREEN_OUT"
            else
              validation_status e = "MISMATCH"
              ∧ proposed_action e = "MANUAL_REVIEW_MISMATCH"
        | true, false =>
            validation_status e = "CODE_ONLY"
            ∧ proposed_action e = "MANUAL_REVIEW_NO_LOCAL_DECISION"
        | false, true =>
            validation_status e = "CSV_ONLY"
            ∧ proposed_action e
              = action_for (local_status e) "NO_ACTION_NO_CSV_DATA"
                  "APPROVE_NO_CODE" "REJECT_NO_CODE" "SCREEN_OUT_NO_CODE"
        | false, false =>
            validation_status e = "NEITHER"
            ∧ proposed_action e = "MANUAL_REVIEW_NO_DATA"
        end
  end.
Proof.
  cbn zeta. unfold review_step.
  destruct (find_row participant_data (sub_get sub "participant_id")) as [csv_row |].
  - destruct (truthy_opt (sub_get_or_empty sub "study_code"));
      destruct (truthy (strip (get_str csv_row "status"))) eqn:Hs;
      cbn [andb negb]; try destruct (agreement _ _) eqn:Ha;
      cbn [fst local_status validation_status proposed_action];
      rewrite ?Hs, ?Ha; done.
  - destruct (truthy_opt (sub_get_or_empty sub "study_code")); cbn; done.
Qed.

Lemma agreement_status code status :
  agreement code status = true →
  (status = "APPROVED" ∧ opt_in code ["C1DQRLH1"; "COMPLETION_CODE_APPROVED"] = true)
  ∨ status = "REJECTED" ∨ status = "SCREENED-OUT".
Proof.
  unfold agreement. intros H.
  repeat (apply orb_true_iff in H as [H | H]);
    apply andb_true_iff in H as [Hc Hs].
  - left. by apply String.eqb_eq in Hs.
  - right. left. by apply String.eqb_eq in Hs.
  - apply bool_decide_eq_true in Hs.
    apply elem_of_cons in Hs as [-> | Hs]; [by right; right |].
    apply elem_of_cons in Hs as [-> | Hs]; [by right; left |].
    by apply elem_of_nil in Hs.
Qed.

(** The plan never proposes a payment decision on its own authority: an
    entry proposes APPROVE, REJECT or SCREEN_OUT only when its validation
    status is MATCH, then the action is the one named by the local status,
    and APPROVE requires one of the two approval codes; a MISMATCH entry
    always proposes MANUAL_REVIEW_MISMATCH. *)
Theorem review_plan_actions (prolific_submissions : list submission)
    (participant_data : gmap string (gmap string string)) (e : plan_entry) :
  e ∈ generate_review_plan prolific_submissions participant_data →
  (proposed_action e ∈ ["APPROVE"; "REJECT"; "SCREEN_OUT"] →
   validation_status e = "MATCH")
  ∧ (validation_status e = "MATCH" →
     (local_status e = "APPROVED" ∧ proposed_action e = "APPROVE"
      ∧ opt_in (actual_completion_code e)
           ["C1DQRLH1"; "COMPLETION_CODE_APPROVED"] = true)
     ∨ (local_status e = "REJECTED" ∧ proposed_action e = "REJECT")
     ∨ (local_status e = "SCREENED-OUT" ∧ proposed_action e = "SCREEN_OUT"))
  ∧ (validation_status e = "MISMATCH" →
     proposed_action e = "MANUAL_REVIEW_MISMATCH").
Proof.
  rewrite generate_review_plan_map.
  intros (sub & -> & Hsub)%list_elem_of_fmap.
  assert (actual_completion_code (review_step participant_data summary0 sub).1
          = sub_get_or_empty sub "study_code") as Hcode.
  { unfold review_step.
    repeat match goal with
           | |- context [match ?o with Some _ => _ | None => _ end] => destruct o
           | |- context [if ?b then _ else _] => destruct b
           end; reflexivity. }
  pose proof (review_step_entry_cases participant_data sub) as H.
  cbn zeta in H. rewrite Hcode.
  set (e := (review_step participant_data summary0 sub).1) in *.
  assert (∀ a b : string, a ∈ ["APPROVE"; "REJECT"; "SCREEN_OUT"] → a = b →
            b ∈ ["APPROVE"; "REJECT"; "SCREEN_OUT"]) as Hin by (by intros a b ? <-).
  destruct (find_row participant_data (sub_get sub "participant_id")) as [csv_row |].
  - destruct H as [Hl H].
    destruct (truthy_opt (sub_get_or_empty sub "study_code"));
      destruct (truthy (local_status e)).
    + destruct (agreement _ (local_status e)) eqn:Ha; destruct H as [Hv Hp].
      * split; [done |]. split; [| by rewrite Hv].
        intros _. rewrite Hp. unfold action_for.
        destruct (agreement_status _ _ Ha) as [[Hs Hc] | [Hs | Hs]];
          rewrite Hs; cbn; auto.
      * rewrite Hv, Hp. repeat split; try done.
        intros Hx. exfalso.
        repeat (apply elem_of_cons in Hx as [Hx | Hx]; [discriminate Hx |]).
        by apply elem_of_nil in Hx.
    + destruct H as [Hv Hp]. rewrite Hv, Hp. repeat split; try done.
      intros Hx. exfalso.
      repeat (apply elem_of_cons in Hx as [Hx | Hx]; [discriminate Hx |]).
      by apply elem_of_nil in Hx.
    + destruct H as [Hv Hp]. rewrite Hv, Hp. repeat split; try done.
      intros Hx. exfalso. unfold action_for in Hx.
      repeat match type of Hx with
             | context [if ?b then _ else _] => destruct b
             end;
        repeat (apply elem_of_cons in Hx as [Hx | Hx]; [discriminate Hx |]);
        by apply elem_of_nil in Hx.
    + destruct H as [Hv Hp]. rewrite Hv, Hp. repeat split; try done.
      intros Hx. exfalso.
      repeat (apply elem_of_cons in Hx as [Hx | Hx]; [discriminate Hx |]).
      by apply elem_of_nil in Hx.
  - destruct H as (Hv & _ & Hp). rewrite Hv, Hp. repeat split; try done.
    intros Hx. exfalso.
    destruct (truthy_opt _);
      repeat (apply elem_of_cons in Hx as [Hx | Hx]; [discriminate Hx |]);
      by apply elem_of_nil in Hx.
Qed.

Lemma review_plan_actions_witness :
  proposed_action
    ((review_step {[ "p1" := {[ "status" := "APPROVED" ]} ]} summary0
        {[ "participant_id" := Some "p1"; "study_code" := Some "C1G9PC0D" ]}).1)
  = "MANUAL_REVIEW_MISMATCH".
Proof.
  apply (review_plan_actions
           [ {[ "participant_id" := Some "p1"; "study_code" := Some "C1G9PC0D" ]} ]
           {[ "p1" := {[ "status" := "APPROVED" ]} ]}).
  - rewrite generate_review_plan_map. apply elem_of_cons. by left.
  - vm_compute. reflexivity.
Defined.

Lemma review_step_status participant_data summary sub :
  let r := review_step participant_data summary sub in
  validation_status r.1
    ∈ ["MATCH"; "MISMATCH"; "CSV_ONLY"; "CODE_ONLY"; "NEITHER"; "NO_CSV_DATA"]
  ∧ (validation_status r.1 = "NO_CSV_DATA"
     ↔ find_row participant_data (sub_get sub "participant_id") = None)
  ∧ matches r.2
    = matches summary + (if decide (validation_status r.1 = "MATCH") then 1 else 0)
  ∧ mismatches r.2
    = mismatches summary
      + (if decide (validation_status r.1 = "MISMATCH") then 1 else 0)
  ∧ csv_only r.2
    = csv_only summary
      + (if decide (validation_status r.1 = "CSV_ONLY") then 1 else 0)
  ∧ code_only r.2
    = code_only summary
      + (if decide (validation_status r.1 = "CODE_ONLY") then 1 else 0)
  ∧ neither r.2
    = neither summary
      + (if decide (validation_status r.1 = "NEITHER") then 1 else 0).
Proof.
  cbn zeta. unfold review_step.
  destruct (find_row participant_data (sub_get sub "participant_id")) as [csv_row |].
  - destruct (truthy_opt (sub_get_or_empty sub "study_code"));
      destruct (truthy (strip (get_str csv_row "status")));
      cbn [andb negb]; try destruct (agreement _ _); cbn;
      (split; [repeat (apply elem_of_cons; first [by left | right]) |]);
      repeat split; try done; repeat case_decide; try done; lia.
  - destruct (truthy_opt (sub_get_or_empty sub "study_code")); cbn;
      (split; [repeat (apply elem_of_cons; first [by left | right]) |]);
      repeat split; try done; repeat case_decide; try done; lia.
Qed.

End ReviewPlanEntries.

Section ReviewPlanSummary.
Import PyStr ReviewPlan.
Local Arguments String.eqb : simpl never.
Local Arguments strip : simpl never.
Local Open Scope nat_scope.

Lemma count_status_snoc status plan e :
  count_status status (plan ++ [e])
  = count_status status plan + (if decide (validation_status e = status) then 1 else 0).
Proof.
  unfold count_status. rewrite filter_app, length_app. f_equal.
  case_decide.
  - by rewrite filter_cons_True.
  - by rewrite filter_cons_False.
Qed.

Lemma review_loop_counters participant_data subs :
  ∀ plan summary,
    let r := review_loop participant_data subs plan summary in
    length r.1 = length plan + length subs
    ∧ matches r.2 + count_status "MATCH" plan
      = matches summary + count_status "MATCH" r.1
    ∧ mismatches r.2 + count_status "MISMATCH" plan
      = mismatches summary + count_status "MISMATCH" r.1
    ∧ csv_only r.2 + count_status "CSV_ONLY" plan
      = csv_only summary + count_status "CSV_ONLY" r.1
    ∧ code_only r.2 + count_status "CODE_ONLY" plan
      = code_only summary + count_status "CODE_ONLY" r.1
    ∧ neither r.2 + count_status "NEITHER" plan
      = neither summary + count_status "NEITHER" r.1
    ∧ count_status "NO_CSV_DATA" r.1
      = count_status "NO_CSV_DATA" plan
        + length (filter (λ sub, find_row participant_data
                                   (sub_get sub "participant_id") = None) subs).
Proof.
  induction subs as [| sub rest IH]; intros plan summary; cbn [review_loop].
  - cbn zeta. cbn [fst snd]. rewrite filter_nil. cbn [length]. lia.
  - pose proof (review_step_status participant_data summary sub) as Hstep.
    destruct (review_step participant_data summary sub) as [e summary'].
    cbn in Hstep. destruct Hstep as (_ & Hno & H1 & H2 & H3 & H4 & H5).
    specialize (IH (plan ++ [e])%list summary'). cbn zeta in IH.
    rewrite !count_status_snoc, length_app in IH. cbn [length] in *.
    destruct IH as (I0 & I1 & I2 & I3 & I4 & I5 & I6).
    assert (length (filter (λ sub, find_row participant_data
                                     (sub_get sub "participant_id") = None)
                      (sub :: rest))
            = (if decide (validation_status e = "NO_CSV_DATA") then 1 else 0)
              + length (filter (λ sub, find_row participant_data
                                         (sub_get sub "participant_id") = None) rest))
      as Hf.
    { destruct (decide (validation_status e = "NO_CSV_DATA")) as [Hd | Hd].
      - rewrite filter_cons_True by (cbn beta; by apply Hno). reflexivity.
      - rewrite filter_cons_False by (cbn beta; by rewrite <- Hno). reflexivity. }
    cbn zeta. rewrite Hf. repeat split; try lia.
    clear -H2 I2. repeat case_decide; first [lia | done].
Qed.

Lemma count_status_total (plan : list plan_entry) :
  (∀ e, e ∈ plan →
        validation_status e
          ∈ ["MATCH"; "MISMATCH"; "CSV_ONLY"; "CODE_ONLY"; "NEITHER"; "NO_CSV_DATA"]) →
  count_status "MATCH" plan + count_status "MISMATCH" plan
  + count_status "CSV_ONLY" plan + count_status "CODE_ONLY" plan
  + count_status "NEITHER" plan + count_status "NO_CSV_DATA" plan
  = length plan.
Proof.
  induction plan as [| e plan IH] using rev_ind; intros Hall; [reflexivity |].
  rewrite !count_status_snoc, length_app. cbn [length].
  rewrite <- IH by (intros e' He'; apply Hall, elem_of_app; by left).
  assert (e ∈ (plan ++ [e])%list) as He by (apply elem_of_app; right; apply elem_of_cons; by left).
  apply Hall in He.
  repeat (apply elem_of_cons in He as [-> | He];
          [repeat case_decide; try discriminate; try done; lia |]).
  by apply elem_of_nil in He.
Qed.

(** Each counter of the printed summary is the number of plan entries
    with its validation status; the entries without local data are the
    submissions whose participant is not in the local map; and the five
    counters and the entries without local data add up to the number of
    submissions. *)
Theorem review_plan_summary (prolific_submissions : list submission)
    (participant_data : gmap string (gmap string string)) :
  let plan := generate_review_plan prolific_submissions participant_data in
  let summary := (generate_review_plan_run prolific_submissions participant_data).2 in
  matches summary = count_status "MATCH" plan
  ∧ mismatches summary = count_status "MISMATCH" plan
  ∧ csv_only summary = count_status "CSV_ONLY" plan
  ∧ code_only summary = count_status "CODE_ONLY" plan
  ∧ neither summary = count_status "NEITHER" plan
  ∧ count_status "NO_CSV_DATA" plan
    = length (filter (λ sub, find_row participant_data
                               (sub_get sub "participant_id") = None)
                prolific_submissions)
  ∧ matches summary + mismatches summary + csv_only summary + code_only summary
    + neither summary + count_status "NO_CSV_DATA" plan
    = length prolific_submissions.
Proof.
  cbn zeta.
  pose proof (review_loop_counters participant_data prolific_submissions [] summary0)
    as H.
  cbn zeta in H. fold (generate_review_plan_run prolific_submissions participant_data) in H.
  fold (generate_review_plan prolific_submissions participant_data) in H.
  change (count_status _ []) with 0 in H. cbn [matches mismatches csv_only code_only
    neither summary0 length] in H.
  destruct H as (H0 & H1 & H2 & H3 & H4 & H5 & H6).
  pose proof (count_status_total
                (generate_review_plan prolific_submissions participant_data)) as Ht.
  assert (count_status "MATCH" (generate_review_plan prolific_submissions participant_data)
          + count_status "MISMATCH" (generate_review_plan prolific_submissions participant_data)
          + count_status "CSV_ONLY" (generate_review_plan prolific_submissions participant_data)
          + count_status "CODE_ONLY" (generate_review_plan prolific_submissions participant_data)
          + count_status "NEITHER" (generate_review_plan prolific_submissions participant_data)
          + count_status "NO_CSV_DATA" (generate_review_plan prolific_submissions participant_data)
          = length (generate_review_plan prolific_submissions participant_data)) as Hsum.
  { apply Ht. rewrite generate_review_plan_map.
    intros e (sub & -> & _)%list_elem_of_fmap.
    apply (review_step_status participant_data summary0 sub). }
  clear Ht. repeat split; lia.
Qed.

End ReviewPlanSummary.

Section ReviewPlanLocalData.
Import PyStr ReviewPlan.
Local Arguments String.eqb : simpl never.
Local Arguments strip : simpl never.
Local Open Scope nat_scope.








End ReviewPlanLocalData.

Section ActionCounts.
Import PyStr ReviewPlan.
Local Arguments String.eqb : simpl never.
Local Open Scope nat_scope.

Lemma counts_get_bump a key counts :
  counts_get a (bump key counts)
  = if String.eqb key a then Some (default 0 (counts_get key counts) + 1)
    else counts_get a counts.
Proof.
  induction counts as [| [k n] rest IH]; cbn [bump counts_get].
  - by destruct (String.eqb key a).
  - destruct (String.eqb_spec k key) as [-> | Hk]; cbn [counts_get].
    + by destruct (String.eqb key a).
    + rewrite IH. destruct (String.eqb_spec k a) as [-> | Ha].
      * by destruct (String.eqb_spec key a) as [<- | _].
      * by destruct (String.eqb_spec key a) as [_ | _].
Qed.

Lemma bump_keys_sum key counts :
  NoDup counts.*1 →
  NoDup (bump key counts).*1
  ∧ sum_list (bump key counts).*2 = S (sum_list counts.*2)
  ∧ ∀ k, k ∈ (bump key counts).*1 ↔ k = key ∨ k ∈ counts.*1.
Proof.
  induction counts as [| [k n] rest IH]; cbn [bump]; intros Hnd.
  - cbn. split; [apply NoDup_singleton |]. split; [done |].
    intros k. rewrite elem_of_cons. tauto.
  - cbn in Hnd. apply NoDup_cons in Hnd as [Hk Hnd].
    destruct (String.eqb_spec k key) as [-> | Hne]; cbn.
    + split; [by apply NoDup_cons |]. split; [lia |].
      intros k'. rewrite elem_of_cons. tauto.
    + destruct (IH Hnd) as (I1 & I2 & I3).
      split; [| split; [lia |]].
      * apply NoDup_cons. split; [| done]. rewrite I3. by intros [? | ?].
      * intros k'. rewrite !elem_of_cons, I3. tauto.
Qed.

Lemma action_counts_snoc plan e :
  action_counts (plan ++ [e]) = bump (proposed_action e) (action_counts plan).
Proof. unfold action_counts. by rewrite foldl_app. Qed.

Lemma count_action_snoc a plan e :
  count_action a (plan ++ [e])
  = count_action a plan + (if String.eqb (proposed_action e) a then 1 else 0).
Proof.
  unfold count_action. rewrite filter_app, length_app. f_equal.
  destruct (String.eqb_spec (proposed_action e) a).
  - by rewrite filter_cons_True.
  - by rewrite filter_cons_False.
Qed.

(** The action summary printed after saving: each proposed action that
    occurs in the plan is listed once, with the number of entries
    proposing it; actions that do not occur are not listed (no zero
    counts); and the counts add up to the number of entries. *)
Theorem action_counts_spec (review_plan : list plan_entry) :
  NoDup (action_counts review_plan).*1
  ∧ (∀ a, counts_get a (action_counts review_plan)
          = if count_action a review_plan =? 0 then None
            else Some (count_action a review_plan))
  ∧ sum_list (action_counts review_plan).*2 = length review_plan.
Proof.
  induction review_plan as [| e plan IH] using rev_ind.
  - cbn. split; [apply NoDup_nil_2 | done].
  - destruct IH as (Hnd & Hget & Hsum).
    rewrite action_counts_snoc.
    destruct (bump_keys_sum (proposed_action e) _ Hnd) as (B1 & B2 & _).
    split; [done |]. split.
    + intros a. rewrite counts_get_bump, count_action_snoc, !Hget.
      destruct (String.eqb_spec (proposed_action e) a) as [-> | Hne].
      * destruct (count_action a plan =? 0) eqn:H0.
        -- apply Nat.eqb_eq in H0. by rewrite H0.
        -- cbn [default]. apply Nat.eqb_neq in H0.
           destruct (count_action a plan + 1 =? 0) eqn:H1; [| done].
           apply Nat.eqb_eq in H1. lia.
      * by rewrite Nat.add_0_r.
    + rewrite B2, Hsum, length_app. cbn. lia.
Qed.

End ActionCounts.

(** ** More on the Firestore-backed service *)
Section UrlDatabaseAllocation.
Import PyStr UrlDatabase.
Local Arguments String.eqb : simpl never.
Local Open Scope nat_scope.

Lemma update_in_transaction_insert now doc_id (db : gmap string (gmap string value)) d :
  db !! doc_id = Some d →
  update_in_transaction now doc_id db
  = <[doc_id := <["assigned_at" := VTime now]> (<["available" := VBool false]> d)]> db.
Proof.
  intros Hd. apply map_eq. intros j. unfold update_in_transaction.
  destruct (decide (doc_id = j)) as [<- | Hne].
  - by rewrite lookup_alter_eq, lookup_insert_eq, Hd.
  - by rewrite lookup_alter_ne, lookup_insert_ne.
Qed.

(** The two outcomes of a request. *)
Lemma get_task_urls_cases (task_id : option string) (now : Z)
    (db : gmap string (gmap string value)) :
  match (get_task_urls task_id now db).1 with
  | Json200 body =>
      ∃ tid d,
        task_id = Some tid
        ∧ db !! task_instance_id body = Some d
        ∧ matches tid d = true
        ∧ body = response_data (task_instance_id body) d
        ∧ (get_task_urls task_id now db).2
          = <[task_instance_id body :=
                <["assigned_at" := VTime now]> (<["available" := VBool false]> d)]> db
  | JsonError status _ =>
      (get_task_urls task_id now db).2 = db
      ∧ (status = 400%Z ∨ status = 404%Z)
  end.
Proof.
  unfold get_task_urls. destruct task_id as [tid |]; [| cbn; auto].
  destruct (truthy tid); cbn [negb]; [| cbn; auto].
  destruct (query_available_cases db tid)
    as [[-> _] | (doc_id & d & -> & Hd & Hm)]; [cbn; auto |].
  cbn. exists tid, d. repeat split; try done.
  by apply update_in_transaction_insert.
Qed.

(** What a request does, in full: a 200 response carries the payload of
    an available document of the requested task, and the collection
    afterwards differs only in that document, whose [available] is [False]
    and whose [assigned_at] is the time of the request; every error
    response leaves the collection unchanged. *)
Theorem get_task_urls_effect (task_id : option string) (now : Z)
    (db : gmap string (gmap string value)) :
  (∀ body, (get_task_urls task_id now db).1 = Json200 body →
     ∃ tid d,
       task_id = Some tid
       ∧ db !! task_instance_id body = Some d
       ∧ matches tid d = true
       ∧ body = response_data (task_instance_id body) d
       ∧ (∀ doc_id, doc_id ≠ task_instance_id body →
            (get_task_urls task_id now db).2 !! doc_id = db !! doc_id)
       ∧ (get_task_urls task_id now db).2 !! task_instance_id body
         = Some (<["assigned_at" := VTime now]> (<["available" := VBool false]> d)))
  ∧ (∀ status message, (get_task_urls task_id now db).1 = JsonError status message →
       (get_task_urls task_id now db).2 = db
       ∧ (status = 400%Z ∨ status = 404%Z)).
Proof.
  pose proof (get_task_urls_cases task_id now db) as H.
  destruct (get_task_urls task_id now db).1 as [body0 | status0 message0].
  - split; [| done]. intros body [= <-].
    destruct H as (tid & d & Ht & Hd & Hm & Hb & ->).
    exists tid, d. repeat split; try done.
    + intros doc_id Hne. by rewrite lookup_insert_ne.
    + apply lookup_insert_eq.
  - split; [done |]. intros status message [= <- <-]. exact H.
Qed.

Lemma get_task_urls_effect_witness :
  ∃ tid d,
    Some "t1" = Some tid
    ∧ ({[ "a" := {[ "task_id" := VStr "t1"; "available" := VBool true ]} ]}
         : gmap string (gmap string value)) !! "a" = Some d
    ∧ matches tid d = true
    ∧ response_data "a" {[ "task_id" := VStr "t1"; "available" := VBool true ]}
      = response_data "a" d
    ∧ (∀ doc_id, doc_id ≠ "a" →
         (get_task_urls (Some "t1") 7
            {[ "a" := {[ "task_id" := VStr "t1"; "available" := VBool true ]} ]}).2
           !! doc_id
         = ({[ "a" := {[ "task_id" := VStr "t1"; "available" := VBool true ]} ]}
              : gmap string (gmap string value)) !! doc_id)
    ∧ (get_task_urls (Some "t1") 7
         {[ "a" := {[ "task_id" := VStr "t1"; "available" := VBool true ]} ]}).2
        !! "a"
      = Some (<["assigned_at" := VTime 7]> (<["available" := VBool false]> d)).
Proof.
  apply (proj1 (get_task_urls_effect (Some "t1") 7
                  {[ "a" := {[ "task_id" := VStr "t1"; "available" := VBool true ]} ]})
           (response_data "a" {[ "task_id" := VStr "t1"; "available" := VBool true ]})).
  vm_compute. reflexivity.
Defined.

(** A document whose [available] field is not [True] is never handed out,
    and no request changes it. *)
Lemma get_task_urls_skips_unavailable (task_id : option string) (now : Z)
    (db : gmap string (gmap string value)) (doc_id : string) (d : gmap string value) :
  db !! doc_id = Some d →
  d !! "available" ≠ Some (VBool true) →
  (∀ body, (get_task_urls task_id now db).1 = Json200 body →
           task_instance_id body ≠ doc_id)
  ∧ (get_task_urls task_id now db).2 !! doc_id = Some d.
Proof.
  intros Hd Hav.
  pose proof (get_task_urls_cases task_id now db) as H.
  destruct (get_task_urls task_id now db).1 as [body | status message].
  - destruct H as (tid & d0 & _ & Hd0 & Hm & _ & ->).
    assert (task_instance_id body ≠ doc_id) as Hne.
    { intros Heq. rewrite Heq, Hd in Hd0. injection Hd0 as <-.
      unfold matches in Hm.
      destruct (d !! "task_id") as [[] |]; try done.
      destruct (d !! "available") as [[| [] | | | |] |]; try done. }
    split; [by intros ? [= <-] |]. by rewrite lookup_insert_ne.
  - destruct H as [-> _]. split; [done | done].
Qed.

Lemma handed_out_cons response responses :
  handed_out (response :: responses)
  = match response with
    | Json200 body => task_instance_id body :: handed_out responses
    | JsonError _ _ => handed_out responses
    end.
Proof. by destruct response. Qed.

(** Documents that are unavailable before a run of requests are not
    handed out during it. *)
Lemma serve_skips_unavailable (requests : list (option string * Z)) :
  ∀ (db : gmap string (gmap string value)) doc_id d,
    db !! doc_id = Some d → d !! "available" ≠ Some (VBool true) →
    doc_id ∉ handed_out (serve_task_requests requests db).1.
Proof.
  induction requests as [| [task_id now] rest IH]; intros db doc_id d Hd Hav;
    cbn [serve_task_requests].
  - cbn. apply not_elem_of_nil.
  - destruct (get_task_urls_skips_unavailable task_id now db doc_id d Hd Hav)
      as [Hne Hkeep].
    destruct (get_task_urls task_id now db) as [response db'] eqn:Hg.
    cbn in Hne, Hkeep.
    specialize (IH db' doc_id d Hkeep Hav).
    destruct (serve_task_requests rest db') as [responses db''].
    cbn [fst] in IH |- *. rewrite handed_out_cons.
    destruct response as [body |]; [| done].
    apply not_elem_of_cons. split; [| done].
    intros ->. by apply (Hne body).
Qed.

(** No task instance is handed out twice: over any sequence of requests
    the document ids in the 200 responses are pairwise distinct. *)
Theorem serve_task_requests_no_double_allocation
    (requests : list (option string * Z)) (db : gmap string (gmap string value)) :
  NoDup (handed_out (serve_task_requests requests db).1).
Proof.
  revert db. induction requests as [| [task_id now] rest IH]; intros db;
    cbn [serve_task_requests].
  - cbn. apply NoDup_nil_2.
  - pose proof (get_task_urls_cases task_id now db) as He.
    destruct (get_task_urls task_id now db) as [response db'] eqn:Hg.
    cbn in He. specialize (IH db').
    pose proof (serve_skips_unavailable rest db') as Hskip.
    destruct (serve_task_requests rest db') as [responses db''].
    cbn [fst] in IH, Hskip |- *. rewrite handed_out_cons.
    destruct response as [body |]; [| done].
    destruct He as (tid & d & _ & _ & _ & _ & ->).
    apply NoDup_cons. split; [| done].
    eapply Hskip.
    + apply lookup_insert_eq.
    + rewrite lookup_insert_ne by done. by rewrite lookup_insert_eq.
Qed.

Lemma available_count_0 task_id (db : gmap string (gmap string value)) :
  available_count task_id db = 0
  ↔ ∀ doc_id d, db !! doc_id = Some d → matches task_id d = false.
Proof.
  unfold available_count. rewrite map_size_empty_iff, map_empty_filter.
  unfold map_Forall. split; intros H doc_id d Hd.
  - apply not_true_is_false. by apply (H doc_id d).
  - cbn. rewrite (H doc_id d Hd). discriminate.
Qed.

Lemma matches_allocated task_id now (d : gmap string value) :
  matches task_id (<["assigned_at" := VTime now]> (<["available" := VBool false]> d))
  = false.
Proof.
  unfold matches.
  rewrite (lookup_insert_ne _ "assigned_at" "task_id") by done.
  rewrite (lookup_insert_ne _ "assigned_at" "available") by done.
  rewrite lookup_insert_eq.
  by destruct (<["available":=VBool false]> d !! "task_id") as [[] |].
Qed.

Lemma matches_task_id t1 t2 (d : gmap string value) :
  matches t1 d = true → matches t2 d = true → t1 = t2.
Proof.
  unfold matches.
  destruct (d !! "task_id") as [[| | | t | |] |]; try done.
  destruct (d !! "available") as [[| [] | | | |] |]; try done.
  intros <-%String.eqb_eq <-%String.eqb_eq. done.
Qed.

Lemma available_count_step (task_id : string) (now : Z)
    (db : gmap string (gmap string value)) :
  truthy task_id = true →
  (available_count task_id db = 0 →
   ∃ message, get_task_urls (Some task_id) now db = (JsonError 404 message, db))
  ∧ (available_count task_id db ≠ 0 →
     ∃ body, (get_task_urls (Some task_id) now db).1 = Json200 body
             ∧ available_count task_id (get_task_urls (Some task_id) now db).2
               = available_count task_id db - 1).
Proof.
  intros Ht.
  pose proof (get_task_urls_cases (Some task_id) now db) as He.
  split.
  - intros H0. rewrite available_count_0 in H0.
    unfold get_task_urls. rewrite Ht. cbn [negb].
    destruct (query_available_cases db task_id)
      as [[-> _] | (doc_id & d & _ & Hd & Hm)]; [by eexists |].
    rewrite (H0 _ _ Hd) in Hm. discriminate Hm.
  - intros Hn.
    destruct (get_task_urls (Some task_id) now db).1 as [body | status message] eqn:Hr.
    + exists body. split; [done |].
      destruct He as (tid & d & [= <-] & Hd & Hm & _ & ->).
      unfold available_count.
      rewrite map_filter_insert_False
        by (cbn; rewrite matches_allocated; discriminate).
      rewrite map_filter_delete, map_size_delete_Some; [lia |].
      exists d. by apply map_lookup_filter_Some_2.
    + exfalso. apply Hn. apply available_count_0.
      destruct (query_available_cases db task_id)
        as [[_ Hnone] | (doc_id & d & Hq & _ & _)]; [done |].
      unfold get_task_urls in Hr. rewrite Ht, Hq in Hr. discriminate Hr.
Qed.

(** Serving a request uses up exactly one available document of the
    requested task and none of any other task: with no document available
    the answer is 404, otherwise it is a 200 and the task has one available
    document fewer, while the count of every other task is unchanged. *)
Theorem get_task_urls_available_count (task_id : string) (now : Z)
    (db : gmap string (gmap string value)) :
  truthy task_id = true →
  (available_count task_id db = 0 →
   ∃ message, get_task_urls (Some task_id) now db = (JsonError 404 message, db))
  ∧ (available_count task_id db ≠ 0 →
     ∃ body, (get_task_urls (Some task_id) now db).1 = Json200 body
             ∧ available_count task_id (get_task_urls (Some task_id) now db).2
               = available_count task_id db - 1)
  ∧ (∀ other, other ≠ task_id →
       available_count other (get_task_urls (Some task_id) now db).2
       = available_count other db).
Proof.
  intros Ht.
  destruct (available_count_step task_id now db Ht) as [H0 Hn].
  split; [exact H0 | split; [exact Hn |]].
  pose proof (get_task_urls_cases (Some task_id) now db) as He.
  intros other Hne.
  destruct (get_task_urls (Some task_id) now db).1 as [body | status message].
  - destruct He as (tid & d & [= <-] & Hd & Hm & _ & ->).
    unfold available_count. f_equal.
    apply map_filter_insert_not'.
    + cbn. rewrite matches_allocated. discriminate.
    + intros y Hy. rewrite Hd in Hy. injection Hy as <-. cbn.
      intros Hm'. apply Hne. symmetry. by apply (matches_task_id _ _ d).
  - by destruct He as [-> _].
Qed.

Lemma get_task_urls_available_count_witness :
  ∃ message,
    get_task_urls (Some "t1") 7
      {[ "a" := {[ "task_id" := VStr "t1"; "available" := VBool false ]} ]}
    = (JsonError 404 message,
       {[ "a" := {[ "task_id" := VStr "t1"; "available" := VBool false ]} ]}).
Proof.
  apply (proj1 (get_task_urls_available_count "t1" 7 _ eq_refl)).
  apply available_count_0. intros doc_id d H.
  apply lookup_singleton_Some in H as [_ <-]. vm_compute. reflexivity.
Defined.

(** A run of requests for one task is served until the task's available
    documents are used up: the number of 200 responses is the smaller of
    the number of requests and the number of available documents. *)
Theorem serve_task_requests_until_exhausted (task_id : string) (nows : list Z)
    (db : gmap string (gmap string value)) :
  truthy task_id = true →
  length (handed_out (serve_task_requests ((λ now, (Some task_id, now)) <$> nows) db).1)
  = min (length nows) (available_count task_id db).
Proof.
  intros Ht. revert db.
  induction nows as [| now nows IH]; intros db; cbn [fmap list_fmap serve_task_requests].
  - reflexivity.
  - destruct (available_count_step task_id now db Ht) as (H0 & Hn).
    destruct (get_task_urls (Some task_id) now db) as [response db'] eqn:Hg.
    specialize (IH db').
    change (list_fmap _ _ ?f nows) with (f <$> nows).
    destruct (serve_task_requests _ db') as [responses db''].
    cbn [fst snd] in *. rewrite handed_out_cons.
    destruct (decide (available_count task_id db = 0)) as [Hz | Hnz].
    + destruct (H0 Hz) as [message [= -> ->]].
      rewrite IH, Hz. lia.
    + destruct (Hn Hnz) as (body & -> & Hc). cbn [length].
      rewrite IH, Hc. lia.
Qed.

Lemma serve_task_requests_until_exhausted_witness :
  length (handed_out
            (serve_task_requests ((λ now, (Some "t1", now)) <$> [1; 2; 3]%Z)
               {[ "a" := {[ "task_id" := VStr "t1"; "available" := VBool true ]} ]}).1)
  = min (length [1; 2; 3]%Z)
        (available_count "t1"
           {[ "a" := {[ "task_id" := VStr "t1"; "available" := VBool true ]} ]}).
Proof. apply serve_task_requests_until_exhausted. reflexivity. Defined.

End UrlDatabaseAllocation.

Section UrlDatabaseAvailability.
Import PyStr UrlDatabase.
Local Arguments String.eqb : simpl never.
Local Open Scope nat_scope.

(** [/check_occupation_status] answers 400 without a usable
    [occupation_id], and otherwise reports available tasks exactly when
    some document has that occupation id and [available == True]. *)
Theorem check_occupation_status_spec (occupation_id : option string)
    (db : gmap string (gmap string value)) :
  (from_option truthy false occupation_id = false →
   check_occupation_status occupation_id db
   = StatusError 400 "Missing occupation_id parameter")
  ∧ (∀ o, occupation_id = Some o → truthy o = true →
       ∃ b, check_occupation_status occupation_id db = HasAvailableTasks b
            ∧ (b = true
               ↔ ∃ doc_id d, db !! doc_id = Some d ∧ occupation_matches o d = true)).
Proof.
  split.
  - destruct occupation_id as [o |]; cbn; [| done]. by intros ->.
  - intros o -> Ht. unfold check_occupation_status. rewrite Ht. cbn [negb].
    destruct (filter (λ p, occupation_matches o p.2 = true) (stream db))
      as [| [doc_id d] rest] eqn:Hf; cbn [take].
    + exists false. split; [done |]. split; [done |].
      intros (doc_id & d & Hd & Hm). exfalso.
      assert ((doc_id, d) ∈ filter (λ p, occupation_matches o p.2 = true) (stream db))
        as Hin by (apply list_elem_of_filter; split; [done | by apply elem_of_stream]).
      rewrite Hf in Hin. by apply elem_of_nil in Hin.
    + exists true. split; [done |]. split; [| done]. intros _.
      assert ((doc_id, d) ∈ filter (λ p, occupation_matches o p.2 = true) (stream db))
        as Hin by (rewrite Hf; apply elem_of_cons; by left).
      apply list_elem_of_filter in Hin as [Hm Hin].
      exists doc_id, d. split; [by apply elem_of_stream | done].
Qed.

Lemma check_occupation_status_spec_witness :
  check_occupation_status (Some "") ∅
  = StatusError 400 "Missing occupation_id parameter".
Proof.
  apply (proj1 (check_occupation_status_spec (Some "") ∅)). reflexivity.
Defined.

Lemma last_update_cons doc_id u updates :
  last_update doc_id (u :: updates)
  = match last_update doc_id updates with
    | Some v => Some v
    | None => if decide (u.1 = VStr doc_id) then Some u.2 else None
    end.
Proof.
  unfold last_update. destruct (decide (u.1 = VStr doc_id)) as [Hu | Hu].
  - rewrite (filter_cons_True (λ u : value * value, u.1 = VStr doc_id)) by exact Hu.
    rewrite fmap_cons.
    destruct (snd <$> filter (λ u : value * value, u.1 = VStr doc_id) updates)
      as [| v vs]; [done |].
    rewrite last_cons_cons.
    destruct (last (v :: vs)) eqn:Hl; [done |]. by apply last_None in Hl.
  - rewrite (filter_cons_False (λ u : value * value, u.1 = VStr doc_id)) by exact Hu.
    by destruct (last _).
Qed.

Lemma commit_updates_spec (updates : list (value * value)) :
  ∀ db : gmap string (gmap string value),
    (applicable updates db →
     ∃ db', commit_updates updates db = Some db'
            ∧ ∀ doc_id,
                db' !! doc_id
                = (λ d, match last_update doc_id updates with
                        | Some v => <["available" := v]> d
                        | None => d
                        end) <$> db !! doc_id)
    ∧ (¬ applicable updates db → commit_updates updates db = None).
Proof.
  induction updates as [| [id v] rest IH]; intros db.
  - split.
    + intros _. exists db. split; [done |]. intros doc_id. cbn.
      by destruct (db !! doc_id).
    + intros H. exfalso. apply H. intros u Hu. by apply elem_of_nil in Hu.
  - assert (∀ doc_id d, db !! doc_id = Some d →
              applicable rest (<[doc_id := <["available" := v]> d]> db)
              ↔ applicable rest db) as Hsame.
    { intros doc_id d Hd. unfold applicable.
      split; intros H u Hu; destruct (H u Hu) as (j & Hj & Hs); exists j;
        (split; [done |]).
      - apply lookup_insert_is_Some in Hs as [<- | [_ Hs]]; [by eexists | done].
      - apply lookup_insert_is_Some. destruct (decide (doc_id = j)); auto. }
    split.
    + intros Happ.
      destruct (Happ (id, v)) as (doc_id & Hid & [d Hd]);
        [apply elem_of_cons; by left |].
      cbn in Hid. subst id. cbn [commit_updates]. rewrite Hd.
      destruct (IH (<[doc_id := <["available" := v]> d]> db)) as [IH1 _].
      destruct IH1 as (db' & -> & Hdb').
      { apply (Hsame doc_id d Hd). intros u Hu. apply Happ, elem_of_cons. by right. }
      exists db'. split; [done |]. intros j.
      rewrite Hdb', last_update_cons. cbn [fst snd].
      destruct (decide (doc_id = j)) as [<- | Hne].
      * rewrite lookup_insert_eq, Hd. cbn. rewrite decide_True by done.
        destruct (last_update doc_id rest); [| done].
        by rewrite insert_insert_eq.
      * rewrite lookup_insert_ne by done.
        rewrite (decide_False (P := VStr doc_id = VStr j)) by congruence.
        by destruct (last_update j rest).
    + intros Hnot. cbn [commit_updates].
      destruct id as [| | | doc_id | |]; try done.
      destruct (db !! doc_id) as [d |] eqn:Hd; [| done].
      apply IH. intros Happ. apply Hnot.
      intros u [-> | Hu]%elem_of_cons.
      * exists doc_id. split; [done | by eexists].
      * by apply (proj1 (Hsame doc_id d Hd) Happ).
Qed.

(** [/update_task_availability] applies its batch as a whole or not at
    all.  When every update names a document of the collection by a string
    id, the answer is a success that counts the items having both keys,
    no document is created or removed, and each document is changed only
    in its [available] field, which takes the value of the last update
    naming it; otherwise the answer is 500 and the collection is
    unchanged.  Without a [task_instances] list the answer is 400. *)
Theorem update_task_availability_spec (items : list (gmap string value))
    (db : gmap string (gmap string value)) :
  (applicable (pending_updates items) db →
   ∃ db', update_task_availability (Some items) db
          = (UpdateSuccess (length (pending_updates items)), db')
          ∧ ∀ doc_id,
              db' !! doc_id
              = (λ d, match last_update doc_id (pending_updates items) with
                      | Some v => <["available" := v]> d
                      | None => d
                      end) <$> db !! doc_id)
  ∧ (¬ applicable (pending_updates items) db →
     update_task_availability (Some items) db = (UpdateError 500, db))
  ∧ update_task_availability None db = (UpdateError 400, db).
Proof.
  destruct (commit_updates_spec (pending_updates items) db) as [Hok Hfail].
  split; [| split; [| done]].
  - intros Happ. destruct (Hok Happ) as (db' & Hc & Hdb').
    exists db'. unfold update_task_availability. by rewrite Hc.
  - intros Hnot. unfold update_task_availability. by rewrite (Hfail Hnot).
Qed.

Lemma update_task_availability_spec_witness :
  update_task_availability
    (Some [ {[ "task_instance_id" := VStr "a"; "available" := VBool true ]};
            {[ "task_instance_id" := VStr "missing"; "available" := VBool true ]} ])
    {[ "a" := {[ "available" := VBool false ]} ]}
  = (UpdateError 500, {[ "a" := {[ "available" := VBool false ]} ]}).
Proof.
  apply (proj1 (proj2 (update_task_availability_spec _ _))).
  intros H.
  destruct (H (VStr "missing", VBool true)) as (doc_id & Hid & Hs).
  - vm_compute. apply elem_of_cons. right. apply elem_of_cons. by left.
  - cbn in Hid. injection Hid as <-.
    rewrite lookup_singleton_ne in Hs by done. by destruct Hs.
Defined.

End UrlDatabaseAvailability.

Section UrlDatabaseComposition.
Import PyStr UrlDatabase.
Local Arguments String.eqb : simpl never.
Local Open Scope nat_scope.

Lemma matches_available task_id (d : gmap string value) :
  matches task_id d = true → d !! "available" = Some (VBool true).
Proof.
  unfold matches.
  destruct (d !! "task_id") as [[] |]; try done.
  by destruct (d !! "available") as [[| [] | | | |] |].
Qed.

(** Handing a document out and then re-enabling it through
    [/update_task_availability] restores the collection except for the
    recorded assignment time: the update succeeds with count 1 and the
    document is as before, with [assigned_at] set. *)
Theorem reenable_after_allocation (task_id : option string) (now : Z)
    (db : gmap string (gmap string value)) (body : task_payload) :
  (get_task_urls task_id now db).1 = Json200 body →
  ∃ d, db !! task_instance_id body = Some d
       ∧ update_task_availability
           (Some [ {[ "task_instance_id" := VStr (task_instance_id body);
                      "available" := VBool true ]} ])
           (get_task_urls task_id now db).2
         = (UpdateSuccess 1,
            <[task_instance_id body := <["assigned_at" := VTime now]> d]> db).
Proof.
  intros Hr. pose proof (get_task_urls_cases task_id now db) as H.
  rewrite Hr in H. destruct H as (tid & d & _ & Hd & Hm & _ & ->).
  exists d. split; [done |].
  unfold update_task_availability. cbn [pending_updates].
  rewrite lookup_insert_eq.
  rewrite lookup_insert_ne by done. rewrite lookup_singleton_eq.
  cbn [commit_updates length]. rewrite lookup_insert_eq.
  cbn [commit_updates]. rewrite insert_insert_eq. do 2 f_equal.
  apply map_eq. intros k.
  destruct (decide (k = "available")) as [-> | Hk].
  - rewrite lookup_insert_eq, lookup_insert_ne by done.
    symmetry. by apply (matches_available tid).
  - rewrite lookup_insert_ne by done.
    destruct (decide (k = "assigned_at")) as [-> | Hk'].
    + by rewrite !lookup_insert_eq.
    + by rewrite !lookup_insert_ne.
Qed.

Lemma reenable_after_allocation_witness :
  ∃ d, ({[ "a" := {[ "task_id" := VStr "t1"; "available" := VBool true ]} ]}
          : gmap string (gmap string value)) !! "a" = Some d
       ∧ update_task_availability
           (Some [ {[ "task_instance_id" := VStr "a"; "available" := VBool true ]} ])
           (get_task_urls (Some "t1") 7
              {[ "a" := {[ "task_id" := VStr "t1"; "available" := VBool true ]} ]}).2
         = (UpdateSuccess 1,
            <["a" := <["assigned_at" := VTime 7]> d]>
              {[ "a" := {[ "task_id" := VStr "t1"; "available" := VBool true ]} ]}).
Proof.
  apply (reenable_after_allocation (Some "t1") 7
           {[ "a" := {[ "task_id" := VStr "t1"; "available" := VBool true ]} ]}
           (response_data "a" {[ "task_id" := VStr "t1"; "available" := VBool true ]})).
  vm_compute. reflexivity.
Defined.

Lemma dashboard_fold (l : list (string * gmap string value)) :
  ∀ stats,
    let r := foldl (λ stats task,
                      if counted_available task.2 then
                        {| total_tasks := total_tasks stats;
                           available_tasks := available_tasks stats + 1;
                           unavailable_tasks := unavailable_tasks stats |}
                      else
                        {| total_tasks := total_tasks stats;
                           available_tasks := available_tasks stats;
                           unavailable_tasks := unavailable_tasks stats + 1 |})
                   stats l in
    total_tasks r = total_tasks stats
    ∧ available_tasks r
      = available_tasks stats
        + length (filter (λ p, counted_available p.2 = true) l)
    ∧ available_tasks r + unavailable_tasks r
      = available_tasks stats + unavailable_tasks stats + length l.
Proof.
  induction l as [| task l IH]; intros stats; cbn [foldl].
  - cbn. lia.
  - cbn zeta. destruct (counted_available task.2) eqn:Hc.
    + rewrite filter_cons_True by done.
      destruct (IH {| total_tasks := total_tasks stats;
                      available_tasks := available_tasks stats + 1;
                      unavailable_tasks := unavailable_tasks stats |})
        as (I1 & I2 & I3).
      cbn in I1, I2, I3 |- *. lia.
    + rewrite filter_cons_False by (by rewrite Hc).
      destruct (IH {| total_tasks := total_tasks stats;
                      available_tasks := available_tasks stats;
                      unavailable_tasks := unavailable_tasks stats + 1 |})
        as (I1 & I2 & I3).
      cbn in I1, I2, I3 |- *. lia.
Qed.

(** The dashboard counters: every document is counted once, as available
    or as unavailable; and because every document that a task request can
    be served from is counted as available, a dashboard showing no
    available task means that every [/get_task_urls] request is answered
    with an error. *)
Theorem dashboard_counts_spec (db : gmap string (gmap string value)) :
  total_tasks (dashboard_counts db) = size db
  ∧ available_tasks (dashboard_counts db) + unavailable_tasks (dashboard_counts db)
    = total_tasks (dashboard_counts db)
  ∧ (available_tasks (dashboard_counts db) = 0 →
     ∀ task_id now, ∃ status message,
       get_task_urls task_id now db = (JsonError status message, db)).
Proof.
  unfold dashboard_counts.
  pose proof (dashboard_fold (stream db)
                {| total_tasks := length (stream db);
                   available_tasks := 0; unavailable_tasks := 0 |})
    as (H1 & H2 & H3).
  cbn zeta in *. cbn [total_tasks available_tasks unavailable_tasks] in H1, H2, H3.
  assert (length (stream db) = size db) as Hlen.
  { unfold stream. by rewrite merge_sort_Permutation, length_map_to_list. }
  split; [by rewrite H1 | split; [rewrite H1; lia |]].
  intros H0 task_id now. rewrite H2 in H0. cbn in H0.
  apply length_zero_iff_nil in H0.
  unfold get_task_urls.
  destruct task_id as [tid |]; [| by eexists _, _].
  destruct (truthy tid); cbn [negb]; [| by eexists _, _].
  destruct (query_available_cases db tid)
    as [[-> _] | (doc_id & d & _ & Hd & Hm)]; [by eexists _, _ |].
  exfalso.
  assert ((doc_id, d) ∈ filter (λ p, counted_available p.2 = true) (stream db)) as Hin.
  { apply list_elem_of_filter. split; [| by apply elem_of_stream].
    cbn. unfold counted_available. by rewrite (matches_available tid d Hm). }
  rewrite H0 in Hin. by apply elem_of_nil in Hin.
Qed.

Lemma dashboard_counts_spec_witness :
  ∃ status message,
    get_task_urls (Some "t1") 7
      {[ "a" := {[ "task_id" := VStr "t1"; "available" := VInt 0 ]} ]}
    = (JsonError status message,
       {[ "a" := {[ "task_id" := VStr "t1"; "available" := VInt 0 ]} ]}).
Proof.
  apply (proj2 (proj2 (dashboard_counts_spec
                         {[ "a" := {[ "task_id" := VStr "t1"; "available" := VInt 0 ]} ]}))).
  vm_compute. reflexivity.
Defined.

End UrlDatabaseComposition.

Section ImportBatches.
Import PyStr UrlDatabase.
Local Arguments String.eqb : simpl never.
Local Open Scope nat_scope.
Local Open Scope list_scope.

Variable uuids : nat → string.

Lemma commit_app ws1 ws2 (db : gmap string (gmap string value)) :
  commit (ws1 ++ ws2) db = commit ws2 (commit ws1 db).
Proof. unfold commit. by rewrite foldl_app. Qed.

Lemma csv_batch_writes_app (l1 l2 : list (gmap string value)) :
  ∀ count,
    csv_batch_writes uuids count (l1 ++ l2)
    = csv_batch_writes uuids count l1
      ++ csv_batch_writes uuids (count + length l1) l2.
Proof.
  induction l1 as [| row l1 IH]; intros count; cbn.
  - by rewrite Nat.add_0_r.
  - rewrite IH. do 3 f_equal. lia.
Qed.

Lemma import_csv_batches_concat (bs : list (list (gmap string value))) :
  ∀ count (db : gmap string (gmap string value)),
    import_csv_batches uuids count bs db
    = (count + length (concat bs),
       commit (csv_batch_writes uuids count (concat bs)) db).
Proof.
  induction bs as [| b bs IH]; intros count db; cbn [import_csv_batches concat].
  - cbn. by rewrite Nat.add_0_r.
  - rewrite IH, csv_batch_writes_app, commit_app, length_app.
    f_equal. lia.
Qed.

Lemma json_batch_writes_app (l1 l2 : list json_item) :
  ∀ count,
    json_batch_writes uuids count (l1 ++ l2)
    = match json_batch_writes uuids count l1,
            json_batch_writes uuids (count + length l1) l2 with
      | Some ws1, Some ws2 => Some (ws1 ++ ws2)
      | _, _ => None
      end.
Proof.
  induction l1 as [| item l1 IH]; intros count; cbn.
  - rewrite Nat.add_0_r. by destruct (json_batch_writes uuids count l2).
  - destruct item as [fields |]; cbn; [| done].
    rewrite IH. replace (count + S (length l1)) with (S count + length l1) by lia.
    destruct (json_batch_writes uuids (S count) l1); [| reflexivity].
    destruct (json_batch_writes uuids (S count + length l1) l2); reflexivity.
Qed.

Lemma json_batch_writes_objects (l : list json_item) :
  ∀ count,
    (∀ j, j < length l → ∃ fields, l !! j = Some (JObject fields)) →
    ∃ ws, json_batch_writes uuids count l = Some ws.
Proof.
  induction l as [| item l IH]; intros count Hall; cbn.
  - by eexists.
  - destruct (Hall 0) as [fields Hf]; [cbn; lia |]. injection Hf as ->. cbn.
    destruct (IH (S count)) as [ws ->]; [| by eexists].
    intros j Hj. apply (Hall (S j)). cbn. lia.
Qed.

Lemma json_batch_writes_other (l : list json_item) i :
  l !! i = Some JOther → ∀ count, json_batch_writes uuids count l = None.
Proof.
  revert i. induction l as [| item l IH]; intros i Hi count; [done |].
  destruct i as [| i]; cbn in Hi.
  - by injection Hi as ->.
  - cbn. destruct item; cbn; [| done]. by rewrite (IH i Hi).
Qed.

Lemma import_json_batches_concat (bs : list (list json_item)) :
  ∀ count (db : gmap string (gmap string value)) ws,
    json_batch_writes uuids count (concat bs) = Some ws →
    import_json_batches uuids count bs db
    = (Some (count + length (concat bs)), commit ws db).
Proof.
  induction bs as [| b bs IH]; intros count db ws; cbn [import_json_batches concat].
  - cbn. intros [= <-]. by rewrite Nat.add_0_r.
  - rewrite json_batch_writes_app.
    destruct (json_batch_writes uuids count b) as [ws1 |]; [| done].
    destruct (json_batch_writes uuids (count + length b) (concat bs))
      as [ws2 |] eqn:H2; [| done].
    intros [= <-]. rewrite (IH _ _ ws2 H2), commit_app, length_app.
    f_equal. f_equal. lia.
Qed.

Lemma import_json_batches_bad :
  ∀ (fuel : nat) (items : list json_item) count
    (db : gmap string (gmap string value)) i,
    length items ≤ fuel →
    items !! i = Some JOther →
    (∀ j, j < i → ∃ fields, items !! j = Some (JObject fields)) →
    ∃ ws, json_batch_writes uuids count (take (400 * (i / 400)) items) = Some ws
          ∧ import_json_batches uuids count (batches_of fuel 400 items) db
            = (None, commit ws db).
Proof.
  induction fuel as [| fuel IH]; intros items count db i Hlen Hi Hbefore.
  - destruct items; [done | cbn in Hlen; lia].
  - assert (batches_of (S fuel) 400 items
            = take 400 items :: batches_of fuel 400 (drop 400 items)) as ->
      by (by destruct items).
    cbn [import_json_batches].
    destruct (decide (i < 400)) as [Hlt | Hge].
    + rewrite (Nat.div_small i 400 Hlt), Nat.mul_0_r, take_0.
      exists []. split; [done |].
      rewrite (json_batch_writes_other (take 400 items) i); [done |].
      by rewrite lookup_take_lt.
    + assert (400 ≤ i) as Hi400 by lia.
      assert (i < length items) as Hil by (by eapply lookup_lt_Some).
      assert (length (take 400 items) = 400) as Ht by (rewrite length_take; lia).
      destruct (json_batch_writes_objects (take 400 items) count) as [ws1 Hws1].
      { intros j Hj. rewrite Ht in Hj. rewrite lookup_take_lt by done.
        apply Hbefore. lia. }
      rewrite Hws1, Ht.
      destruct (IH (drop 400 items) (count + 400) (commit ws1 db) (i - 400))
        as (ws2 & Hws2 & ->).
      * rewrite length_drop. lia.
      * rewrite lookup_drop. by replace (400 + (i - 400)) with i by lia.
      * intros j Hj. rewrite lookup_drop. apply Hbefore. lia.
      * exists (ws1 ++ ws2). split; [| by rewrite commit_app].
        assert (400 * (i / 400) = 400 + 400 * ((i - 400) / 400)) as ->.
        { replace i with ((i - 400) + 1 * 400) at 1 by lia.
          rewrite Nat.div_add by lia. lia. }
        rewrite <- (take_drop 400 items) at 1.
        rewrite take_app_add' by done.
        by rewrite json_batch_writes_app, Hws1, Ht, Hws2.
Qed.

End ImportBatches.

Section ImportEffects.
Import PyStr UrlDatabase.
Local Arguments String.eqb : simpl never.
Local Open Scope nat_scope.
Local Open Scope list_scope.

Variable uuids : nat → string.

Lemma import_csv_result (clear_existing : bool)
    (read_csv : list (gmap string value)) (json_load : list json_item)
    (db : gmap string (gmap string value)) :
  import_data uuids "csv" clear_existing read_csv json_load db
  = (ImportSuccess (length read_csv) clear_existing,
     commit (csv_batch_writes uuids 0 read_csv)
            (if clear_existing then ∅ else db)).
Proof.
  unfold import_data.
  rewrite bool_decide_eq_true_2 by (apply elem_of_cons; by left).
  cbn [negb]. rewrite String.eqb_refl.
  by rewrite import_csv_batches_concat, batches_concat.
Qed.

(** Batching is invisible in a CSV import: the rows are written in file
    order as if in one batch, after the optional clearing, and the count
    returned is the number of rows.  With a format other than csv or json
    the answer is 400 and nothing is written or cleared. *)
Theorem import_data_csv (format_type : string) (clear_existing : bool)
    (read_csv : list (gmap string value)) (json_load : list json_item)
    (db : gmap string (gmap string value)) :
  (format_type ∉ ["csv"; "json"]%string →
   import_data uuids format_type clear_existing read_csv json_load db
   = (ImportError 400, db))
  ∧ (format_type = "csv"%string →
     import_data uuids format_type clear_existing read_csv json_load db
     = (ImportSuccess (length read_csv) clear_existing,
        commit (csv_batch_writes uuids 0 read_csv)
               (if clear_existing then ∅ else db))).
Proof.
  split.
  - intros Hno. unfold import_data. by rewrite bool_decide_eq_false_2.
  - intros ->. apply import_csv_result.
Qed.

(** A JSON import writes all items in order when each is an object.  An
    item that is not an object stops the import with status 500, but the
    batches of 400 that were completed before it stay written: if the
    first such item is at position [i], exactly the first
    [400 * (i / 400)] items have been written. *)
Theorem import_data_json (clear_existing : bool)
    (read_csv : list (gmap string value)) (json_load : list json_item)
    (db : gmap string (gmap string value)) :
  (∀ ws, json_batch_writes uuids 0 json_load = Some ws →
     import_data uuids "json" clear_existing read_csv json_load db
     = (ImportSuccess (length json_load) clear_existing,
        commit ws (if clear_existing then ∅ else db)))
  ∧ (∀ i, json_load !! i = Some JOther →
       (∀ j, j < i → ∃ fields, json_load !! j = Some (JObject fields)) →
       ∃ ws, json_batch_writes uuids 0 (take (400 * (i / 400)) json_load) = Some ws
             ∧ import_data uuids "json" clear_existing read_csv json_load db
               = (ImportError 500, commit ws (if clear_existing then ∅ else db))).
Proof.
  split.
  - intros ws Hws. unfold import_data. cbn [negb].
    rewrite bool_decide_eq_true_2
      by (apply elem_of_cons; right; apply elem_of_cons; by left).
    cbn [negb]. change (String.eqb "json" "csv") with false. cbn iota.
    rewrite (import_json_batches_concat uuids _ 0 _ ws)
      by (by rewrite batches_concat).
    by rewrite batches_concat.
  - intros i Hi Hbefore. unfold import_data.
    rewrite bool_decide_eq_true_2
      by (apply elem_of_cons; right; apply elem_of_cons; by left).
    cbn [negb]. change (String.eqb "json" "csv") with false. cbn iota.
    destruct (import_json_batches_bad uuids (length json_load) json_load 0
                (if clear_existing then ∅ else db) i) as (ws & Hws & Himp);
      [done | done | done |].
    exists ws. split; [done |]. unfold batches. by rewrite Himp.
Qed.

Lemma csv_batch_writes_lookup (rows : list (gmap string value)) :
  ∀ count i,
    csv_batch_writes uuids count rows !! i
    = csv_write (uuids (count + i)) <$> rows !! i.
Proof.
  induction rows as [| row rows IH]; intros count i; [done |].
  destruct i as [| i]; cbn.
  - by rewrite Nat.add_0_r.
  - rewrite IH. do 3 f_equal. lia.
Qed.

Lemma commit_last_write (ws : list (string * gmap string value)) :
  ∀ (db : gmap string (gmap string value)) i w,
    ws !! i = Some w →
    (∀ j w', i < j → ws !! j = Some w' → w'.1 ≠ w.1) →
    commit ws db !! w.1 = Some w.2.
Proof.
  induction ws as [| w0 ws IH] using rev_ind; intros db i w Hi Hlater; [done |].
  rewrite commit_app. cbn.
  destruct (decide (i = length ws)) as [-> | Hne].
  - rewrite lookup_app_r, Nat.sub_diag in Hi by lia. injection Hi as ->.
    apply lookup_insert_eq.
  - assert (i < length ws) as Hlt.
    { apply lookup_lt_Some in Hi. rewrite length_app in Hi. cbn in Hi. lia. }
    rewrite lookup_app_l in Hi by done.
    rewrite lookup_insert_ne.
    + apply (IH db i w Hi). intros j w' Hj Hw'. apply (Hlater j w' Hj).
      by rewrite lookup_app_l by (by eapply lookup_lt_Some).
    + apply (Hlater (length ws) w0 Hlt).
      by rewrite lookup_app_r, Nat.sub_diag by lia.
Qed.

(** Imported rows can be handed out: after a CSV import, a row with a
    non-empty string [task_id] and no [available] column, whose document
    id is not written again by a later row, makes a request for its task
    succeed. *)
Theorem import_then_get_task_urls (clear_existing : bool)
    (read_csv : list (gmap string value)) (json_load : list json_item)
    (db : gmap string (gmap string value)) (i : nat) (row : gmap string value)
    (task_id : string) (now : Z) :
  read_csv !! i = Some row →
  row !! "task_id"%string = Some (VStr task_id) →
  truthy task_id = true →
  row !! "available"%string = None →
  (∀ j row', i < j → read_csv !! j = Some row' →
     (csv_write (uuids j) row').1 ≠ (csv_write (uuids i) row).1) →
  ∃ body,
    (get_task_urls (Some task_id) now
       (import_data uuids "csv" clear_existing read_csv json_load db).2).1
    = Json200 body.
Proof.
  intros Hi Htask Ht Hav Hlater.
  rewrite import_csv_result.
  cbn [snd].
  set (db' := commit _ _).
  assert (db' !! (csv_write (uuids i) row).1 = Some (csv_write (uuids i) row).2) as Hd.
  { apply (commit_last_write _ _ i).
    - by rewrite csv_batch_writes_lookup, Hi.
    - intros j w' Hj Hw'. rewrite csv_batch_writes_lookup in Hw'.
      destruct (read_csv !! j) as [row' |] eqn:Hrow'; [| done].
      injection Hw' as <-. by apply (Hlater j row'). }
  assert (matches task_id (csv_write (uuids i) row).2 = true) as Hm.
  { cbn. unfold default_available, nan_to_none.
    rewrite lookup_fmap, Hav. cbn. unfold matches.
    rewrite lookup_insert_ne by done.
    rewrite lookup_insert_eq, lookup_fmap, Htask. cbn.
    apply String.eqb_refl. }
  unfold get_task_urls. rewrite Ht. cbn [negb].
  destruct (query_available_cases db' task_id)
    as [[_ Hnone] | (doc_id & d & -> & _ & _)]; [| by eexists].
  rewrite (Hnone _ _ Hd) in Hm. discriminate Hm.
Qed.

End ImportEffects.

Lemma import_data_csv_witness :
  UrlDatabase.import_data (λ n, pretty n) "xml" true [] [] {[ "a" := ∅ ]} = (UrlDatabase.ImportError 400, {[ "a" := ∅ ]}).
Proof.
  apply (proj1 (import_data_csv (λ n, pretty n) "xml" true [] [] {[ "a" := ∅ ]})).
  intros H. apply elem_of_cons in H as [H | H]; [discriminate H |].
  apply elem_of_cons in H as [H | H]; [discriminate H |]. by apply elem_of_nil in H.
Defined.

Lemma import_data_json_witness :
  ∃ ws, UrlDatabase.json_batch_writes (λ n, pretty n) 0 (take (400 * (1 / 400)) [UrlDatabase.JObject ∅; UrlDatabase.JOther]) = Some ws
        ∧ UrlDatabase.import_data (λ n, pretty n) "json" false [] [UrlDatabase.JObject ∅; UrlDatabase.JOther] ∅
          = (UrlDatabase.ImportError 500, UrlDatabase.commit ws ∅).
Proof.
  apply (proj2 (import_data_json (λ n, pretty n) false [] [UrlDatabase.JObject ∅; UrlDatabase.JOther] ∅) 1).
  - reflexivity.
  - intros j Hj. exists ∅. by replace j with 0 by lia.
Defined.

Lemma import_then_get_task_urls_witness :
  ∃ body,
    (UrlDatabase.get_task_urls (Some "t1") 7
       (UrlDatabase.import_data (λ n, pretty n) "csv" true
          [ {[ "task_id" := UrlDatabase.VStr "t1" ]} ] [] ∅).2).1
    = UrlDatabase.Json200 body.
Proof.
  apply (import_then_get_task_urls (λ n, pretty n) true
           [ {[ "task_id" := UrlDatabase.VStr "t1" ]} ] [] ∅ 0
           {[ "task_id" := UrlDatabase.VStr "t1" ]} "t1" 7).
  - reflexivity.
  - reflexivity.
  - reflexivity.
  - reflexivity.
  - intros j row' Hj Hrow'. destruct j; [lia | done].
Defined.

(** ** More on the SQLite-backed service *)
Section QualtricsAssignment.
Import QualtricsDatabase.
Local Arguments String.eqb : simpl never.
Local Open Scope nat_scope.
Local Open Scope list_scope.

Variable param_eq : Z → string → bool.
Variable rng : nat → nat.



Lemma get_next_selected db task_id occ round_id :
  get_next_task_instance param_eq rng db task_id occ round_id
  = match selected_instance param_eq db task_id occ round_id with
    | Some instance =>
        (Some (instance_pdf_url instance,
               select_models rng (all_models db (instance_pk instance))),
         mark_assigned db round_id (instance_pk instance))
    | None => (None, db)
    end.
Proof.
  unfold get_next_task_instance, selected_instance.
  destruct (find_task param_eq db task_id occ) as [task |]; [| done].
  by destruct (select_instance db (task_pk task) round_id).
Qed.




End QualtricsAssignment.



Section QualtricsRounds.
Import QualtricsDatabase.
Local Arguments String.eqb : simpl never.
Local Open Scope nat_scope.
Local Open Scope list_scope.

Variable param_eq : Z → string → bool.
Variable rng : nat → nat.

Lemma complete_row_fields instance_id round_id r :
  instance_pk (complete_row instance_id round_id r) = instance_pk r
  ∧ assigned_round (complete_row instance_id round_id r) = assigned_round r.
Proof. unfold complete_row. by destruct (_ && _). Qed.

Lemma complete_row_step id ids round_id r :
  (if bool_decide (instance_pk r ∈ ids) && (assigned_round r =? round_id)%Z
   then complete_row (instance_pk r) round_id (complete_row id round_id r)
   else complete_row id round_id r)
  = (if bool_decide (instance_pk r ∈ id :: ids) && (assigned_round r =? round_id)%Z
     then complete_row (instance_pk r) round_id r else r).
Proof.
  unfold complete_row.
  destruct (assigned_round r =? round_id)%Z eqn:Hr; rewrite ?andb_false_r; [| done].
  rewrite !andb_true_r.
  destruct (instance_pk r =? id)%Z eqn:Hid.
  - apply Z.eqb_eq in Hid.
    rewrite (bool_decide_eq_true_2 (instance_pk r ∈ id :: ids))
      by (apply elem_of_cons; by left).
    cbn. rewrite Z.eqb_refl, Hr. cbn. by destruct (bool_decide _).
  - apply Z.eqb_neq in Hid. cbn. rewrite Z.eqb_refl, Hr. cbn.
    destruct (decide (instance_pk r ∈ ids)) as [Hin | Hnin].
    + rewrite (bool_decide_eq_true_2 (instance_pk r ∈ ids)) by done.
      by rewrite (bool_decide_eq_true_2 (instance_pk r ∈ id :: ids))
        by (apply elem_of_cons; by right).
    + rewrite (bool_decide_eq_false_2 (instance_pk r ∈ ids)) by done.
      by rewrite (bool_decide_eq_false_2 (instance_pk r ∈ id :: ids))
        by (intros [? | ?]%elem_of_cons; done).
Qed.

Lemma update_completion_rows (ids : list Z) (round_id : Z) :
  ∀ db,
    let db' := (update_completion (Some (ids, round_id)) db).2 in
    tasks db' = tasks db
    ∧ model_responses db' = model_responses db
    ∧ length (task_instances db') = length (task_instances db)
    ∧ ∀ i r, task_instances db !! i = Some r →
        task_instances db' !! i
        = Some (if bool_decide (instance_pk r ∈ ids)
                   && (assigned_round r =? round_id)%Z
                then complete_row (instance_pk r) round_id r else r).
Proof.
  induction ids as [| id ids IH]; intros db; cbn zeta.
  - cbn. repeat split; done.
  - cbn [update_completion snd foldl].
    specialize (IH {| tasks := tasks db;
                      task_instances := complete_row id round_id <$> task_instances db;
                      model_responses := model_responses db |}).
    cbn zeta in IH. cbn [update_completion snd] in IH.
    destruct IH as (I1 & I2 & I3 & I4). cbn [tasks model_responses task_instances] in *.
    rewrite length_fmap in I3. repeat split; try done.
    intros i r Hi.
    rewrite (I4 i (complete_row id round_id r)) by (by rewrite list_lookup_fmap, Hi).
    f_equal.
    destruct (complete_row_fields id round_id r) as [-> ->].
    apply complete_row_step.
Qed.


Lemma finished_not_selected pk db task_id occ round_id instance :
  finished pk db →
  selected_instance param_eq db task_id occ round_id = Some instance →
  instance_pk instance ≠ pk.
Proof.
  intros Hf Hs Hpk. unfold selected_instance in Hs.
  destruct (find_task param_eq db task_id occ) as [task |]; [| done].
  apply (select_instance_eligible param_eq) in Hs as [Hin Hel].
  destruct (Hf instance Hin Hpk) as [Ha Hc].
  unfold eligible in Hel. rewrite Ha, Hc in Hel. cbn in Hel.
  by rewrite andb_false_r in Hel.
Qed.

(** Completed instances stay out of circulation: an instance that is
    assigned and completed is never selected, in any round, and it remains
    assigned and completed through further calls of
    [get_next_task_instance], through [/update_completion], and through
    [/reset_assignments] when completion is retained. *)
Theorem finished_instances_stay_out (pk : Z) (db : database) :
  finished pk db →
  (∀ task_id occ round_id instance,
      selected_instance param_eq db task_id occ round_id = Some instance →
      instance_pk instance ≠ pk)
  ∧ (∀ task_id occ round_id,
       finished pk (get_next_task_instance param_eq rng db task_id occ round_id).2)
  ∧ (∀ data, finished pk (update_completion data db).2)
  ∧ finished pk (reset_assignments true db).2.
Proof.
  intros Hf. split; [| split; [| split]].
  - intros task_id occ round_id instance. by apply finished_not_selected.
  - intros task_id occ round_id. rewrite (get_next_selected param_eq rng).
    destruct (selected_instance param_eq db task_id occ round_id) as [instance |] eqn:Hs;
      [| done].
    cbn. intros r' (r & -> & Hr)%list_elem_of_fmap Hpk. unfold assign_row in *.
    destruct (instance_pk r =? instance_pk instance)%Z eqn:Heq.
    + apply Z.eqb_eq in Heq. cbn in Hpk. exfalso.
      apply (finished_not_selected pk db task_id occ round_id instance Hf Hs).
      congruence.
    + by apply Hf.
  - intros [[ids round_id] |]; [| done].
    intros r' Hr' Hpk. apply list_elem_of_lookup in Hr' as [i Hi].
    destruct (update_completion_rows ids round_id db) as (_ & _ & Hlen & Hrows).
    cbn zeta in Hlen, Hrows.
    destruct (task_instances db !! i) as [r |] eqn:Hri.
    + rewrite (Hrows i r Hri) in Hi. injection Hi as <-.
      assert (r ∈ task_instances db) as Hin by (by eapply list_elem_of_lookup_2).
      destruct (_ && _).
      * unfold complete_row in *. rewrite Z.eqb_refl in *.
        destruct (assigned_round r =? round_id)%Z; cbn in *;
          destruct (Hf r Hin Hpk); done.
      * by apply Hf.
    + apply lookup_ge_None in Hri. apply lookup_lt_Some in Hi. lia.
  - cbn. intros r' (r & -> & Hr)%list_elem_of_fmap Hpk. unfold reset_row in *.
    destruct (is_completed r) eqn:Hc.
    + by apply Hf.
    + cbn in Hpk. destruct (Hf r Hr Hpk) as [_ Hc']. congruence.
Qed.

End QualtricsRounds.


Lemma finished_instances_stay_out_witness :
  QualtricsDatabase.finished 10
    (QualtricsDatabase.reset_assignments true
       (QualtricsDatabase.update_completion (Some ([10%Z], 1%Z))
          QualtricsDatabase.db_reassigned).2).2.
Proof.
  apply (finished_instances_stay_out QualtricsDatabase.decimal_eq (λ n, n) 10).
  intros r Hr Hpk. vm_compute in Hr.
  apply elem_of_cons in Hr as [-> | Hr]; [by split |]. by apply elem_of_nil in Hr.
Defined.

(** ** The remaining endpoints of the SQLite service *)

Section QualtricsEndpoints.
Import QualtricsDatabase.
Local Arguments String.eqb : simpl never.
Local Open Scope nat_scope.
Local Open Scope list_scope.

Variable param_eq : Z → string → bool.
Variable rng : nat → nat.












End QualtricsEndpoints.



(** ** Applying and checking the Latin square *)

Section LatinSquareApplied.
Import LatinSquare.
Local Arguments String.eqb : simpl never.
Local Open Scope nat_scope.
Local Open Scope list_scope.

Variable rng : nat → nat.

Lemma split_join_shift k :
  k < 5 → split "," (join "," (cyclic_shift k)) = cyclic_shift k.
Proof. intros Hk. do 5 (destruct k as [| k]; [reflexivity |]). lia. Qed.

Lemma count_order_shift (counts : gmap string (list nat)) (f : nat → nat → nat) k :
  k < 5 →
  (∀ j, j < 5 → counts !! name_at j = Some (f j <$> seq 0 5)) →
  ∃ counts',
    count_order (Some counts) (join "," (cyclic_shift k)) = Some counts'
    ∧ ∀ j, j < 5 →
        counts' !! name_at j
        = Some ((λ p, if decide (cyclic_shift k !! p = Some (name_at j))
                      then S (f j p) else f j p) <$> seq 0 5).
Proof.
  intros Hk Hc.
  pose proof (Hc 0 ltac:(lia)) as H0. pose proof (Hc 1 ltac:(lia)) as H1.
  pose proof (Hc 2 ltac:(lia)) as H2. pose proof (Hc 3 ltac:(lia)) as H3.
  pose proof (Hc 4 ltac:(lia)) as H4.
  cbn in H0, H1, H2, H3, H4.
  do 5 (destruct k as [| k];
        [eexists; split;
         [unfold count_order; rewrite split_join_shift by lia;
          match goal with
          | |- context [cyclic_shift ?n] =>
              let l := eval vm_compute in (cyclic_shift n) in
              change (cyclic_shift n) with l
          end;
          cbn [imap foldl fst snd compose mbind option_bind];
          repeat (rewrite ?lookup_insert_ne by discriminate;
                  first [rewrite H0 | rewrite H1 | rewrite H2 | rewrite H3
                        | rewrite H4];
                  cbn [lookup list_lookup mbind option_bind]);
          reflexivity
         | intros j Hj;
           do 5 (destruct j as [| j];
                 [match goal with
                  | |- context [name_at ?n] =>
                      let l := eval vm_compute in (name_at n) in
                      change (name_at n) with l
                  end;
                  rewrite ?lookup_insert_ne by discriminate;
                  rewrite lookup_insert_eq; reflexivity |]);
           lia] |]).
  lia.
Qed.

Lemma position_count_snoc orders order model position :
  position_count (orders ++ [order]) model position
  = if decide (order !! position = Some model)
    then S (position_count orders model position)
    else position_count orders model position.
Proof.
  unfold position_count. rewrite filter_app, length_app.
  destruct (decide (order !! position = Some model)).
  - rewrite filter_cons_True by done. cbn. lia.
  - rewrite filter_cons_False by done. cbn. lia.
Qed.

Lemma position_counts_shifts (orders : list (list string)) :
  (∀ order, order ∈ orders → ∃ k, k < 5 ∧ order = cyclic_shift k) →
  ∃ counts,
    position_counts (join "," <$> orders) model_names = Some counts
    ∧ ∀ j, j < 5 →
        counts !! name_at j = Some (position_count orders (name_at j) <$> seq 0 5).
Proof.
  induction orders as [| order orders IH] using rev_ind; intros Hs.
  - eexists. split; [reflexivity |]. intros j Hj.
    do 5 (destruct j as [| j]; [reflexivity |]). lia.
  - destruct IH as (counts & Hcounts & Hc).
    { intros o Ho. apply Hs, elem_of_app. by left. }
    destruct (Hs order) as (k & Hk & ->).
    { apply elem_of_app. right. apply elem_of_cons. by left. }
    destruct (count_order_shift counts
                (λ j p, position_count orders (name_at j) p) k Hk Hc)
      as (counts' & Hcounts' & Hc').
    exists counts'. split.
    + unfold position_counts in *. rewrite fmap_app, foldl_app, Hcounts.
      exact Hcounts'.
    + intros j Hj. rewrite (Hc' j Hj). f_equal.
      apply list_fmap_ext. intros _ p _. by rewrite position_count_snoc.
Qed.

Lemma within_tolerance (n c : nat) :
  c = n / 5 ∨ c = (n + 4) / 5 → out_of_tolerance n c = false.
Proof.
  intros Hc. unfold out_of_tolerance. apply Z.ltb_ge.
  pose proof (Nat.div_mod_eq n 5) as H1.
  pose proof (Nat.mod_upper_bound n 5 ltac:(lia)) as H2.
  pose proof (Nat.div_mod_eq (n + 4) 5) as H3.
  pose proof (Nat.mod_upper_bound (n + 4) 5 ltac:(lia)) as H4.
  lia.
Qed.

Lemma generated_orders_balanced (n_rows : Z) orders :
  generate_latin_square_orders rng 5 n_rows = Returns orders →
  (∀ order, order ∈ orders → ∃ k, k < 5 ∧ order = cyclic_shift k)
  ∧ length orders = Z.to_nat n_rows
  ∧ ∀ model position, model ∈ model_names → position < 5 →
      position_count orders model position = Z.to_nat n_rows / 5
      ∨ position_count orders model position = (Z.to_nat n_rows + 4) / 5.
Proof.
  intros [= <-]. split; [| split].
  - intros order Ho. apply repeat_orders_elem_of in Ho; [| apply shuffled_length].
    rewrite shuffled_Permutation, latin_square_orders_shifts in Ho.
    apply list_elem_of_fmap in Ho as (k & -> & Hk).
    exists k. split; [| done]. apply elem_of_seq in Hk. lia.
  - apply repeat_orders_length.
  - intros model position Hm Hp. unfold position_count, repeat_orders.
    apply cyc_count; [apply shuffled_length |].
    rewrite shuffled_Permutation. by apply latin_square_once.
Qed.

Lemma name_at_elem_of j : j < 5 → name_at j ∈ model_names.
Proof.
  intros Hj. unfold name_at.
  destruct (model_names !! j) as [m |] eqn:Hm.
  - by eapply list_elem_of_lookup_2.
  - apply lookup_ge_None in Hm. cbn in Hm. lia.
Qed.

(** The balance check never warns about the orders the script generates:
    for the order strings of [generate_latin_square_orders(5, n_rows)],
    [verify_latin_square_balance] counts, for each model and position,
    the orders with that model at that position, no subscript is out of
    range, and every count is within the tolerance of [n_rows / 5]. *)
Theorem verify_latin_square_balance_passes (n_rows : Z)
    (orders : list (list string)) :
  generate_latin_square_orders rng 5 n_rows = Returns orders →
  (∃ counts,
      position_counts (join "," <$> orders) model_names = Some counts
      ∧ ∀ model, model ∈ model_names →
          counts !! model = Some (position_count orders model <$> seq 0 5))
  ∧ verify_latin_square_balance (join "," <$> orders) model_names = Some true.
Proof.
  intros Hgen.
  destruct (generated_orders_balanced n_rows orders Hgen) as (Hs & Hlen & Hbal).
  destruct (position_counts_shifts orders Hs) as (counts & Hc & Hlookup).
  assert (∀ model, model ∈ model_names → ∃ j, j < 5 ∧ model = name_at j) as Hname.
  { intros model (j & Hj)%list_elem_of_lookup. exists j.
    split; [apply lookup_lt_Some in Hj; cbn in Hj; lia |].
    unfold name_at. by rewrite Hj. }
  split.
  - exists counts. split; [exact Hc |].
    intros model (j & Hj & ->)%Hname. by apply Hlookup.
  - unfold verify_latin_square_balance. rewrite Hc. cbn [mbind option_bind].
    f_equal. apply forallb_forall. intros model Hm%list_elem_of_In.
    destruct (Hname model Hm) as (j & Hj & ->).
    rewrite Hlookup by done. cbn [default].
    apply forallb_forall. intros c Hin%list_elem_of_In.
    apply list_elem_of_fmap in Hin as (p & -> & Hp). apply elem_of_seq in Hp.
    rewrite length_fmap, Hlen. rewrite within_tolerance; [done |].
    apply Hbal; [done | lia].
Qed.

Local Abbreviation mapping_of u0 u1 u2 u3 u4 :=
  (<["Claude_3_Sonnet" := u4]> (<["GPT_4_Turbo" := u3]> (<["Gemini_Ultra" := u2]>
     (<["Claude_3_Opus" := u1]> (<["GPT_4o_2025" := u0]> ∅))))
   : gmap string string).

Local Abbreviation assigned row s d0 d1 d2 d3 d4 :=
  (<["order_models" := s]> (<["model5" := d4]> (<["model4" := d3]>
     (<["model3" := d2]> (<["model2" := d1]> (<["model1" := d0]> row)))))
   : gmap string string).

Lemma model_url_mapping_Some (row : gmap string string) u0 u1 u2 u3 u4 :
  row !! "model1" = Some u0 → row !! "model2" = Some u1 →
  row !! "model3" = Some u2 → row !! "model4" = Some u3 →
  row !! "model5" = Some u4 →
  model_url_mapping row = Some (mapping_of u0 u1 u2 u3 u4).
Proof.
  intros H0 H1 H2 H3 H4. unfold model_url_mapping.
  cbn [imap foldl model_columns fst snd compose].
  rewrite H0, H1, H2, H3, H4. reflexivity.
Qed.

Lemma mapping_of_lookup (u0 u1 u2 u3 u4 : string) :
  ∀ j name, model_names !! j = Some name →
            mapping_of u0 u1 u2 u3 u4 !! name = [u0; u1; u2; u3; u4] !! j.
Proof.
  intros j name Hj.
  do 5 (destruct j as [| j];
        [injection Hj as <-;
         rewrite ?lookup_insert_ne by discriminate;
         apply lookup_insert_eq |]).
  discriminate Hj.
Qed.

Lemma randomized_row_data_shift (mapping : gmap string string)
    (u0 u1 u2 u3 u4 : string) k :
  (∀ j name, model_names !! j = Some name →
             mapping !! name = [u0; u1; u2; u3; u4] !! j) →
  k < 5 →
  ∃ data,
    randomized_row_data mapping (cyclic_shift k) = Some data
    ∧ ∀ i col, model_columns !! i = Some col →
               data !! col = [u0; u1; u2; u3; u4] !! ((i + k) mod 5).
Proof.
  intros Hm Hk.
  pose proof (Hm 0 _ eq_refl) as M0. pose proof (Hm 1 _ eq_refl) as M1.
  pose proof (Hm 2 _ eq_refl) as M2. pose proof (Hm 3 _ eq_refl) as M3.
  pose proof (Hm 4 _ eq_refl) as M4. cbn in M0, M1, M2, M3, M4.
  do 5 (destruct k as [| k];
        [eexists; split;
         [unfold randomized_row_data;
          match goal with
          | |- context [cyclic_shift ?n] =>
              let l := eval vm_compute in (cyclic_shift n) in
              change (cyclic_shift n) with l
          end;
          cbn [imap foldl model_columns fst snd compose lookup list_lookup
               mbind option_bind];
          rewrite M0, M1, M2, M3, M4; reflexivity
         | intros i col Hi;
           do 5 (destruct i as [| i];
                 [injection Hi as <-;
                  rewrite ?lookup_insert_ne by discriminate;
                  apply lookup_insert_eq |]);
           discriminate Hi] |]).
  lia.
Qed.

Lemma assign_columns_Some (row data : gmap string string) s d0 d1 d2 d3 d4 :
  data !! "model1" = Some d0 → data !! "model2" = Some d1 →
  data !! "model3" = Some d2 → data !! "model4" = Some d3 →
  data !! "model5" = Some d4 →
  assign_columns row (data, s) = Some (assigned row s d0 d1 d2 d3 d4).
Proof.
  intros H0 H1 H2 H3 H4. unfold assign_columns.
  cbn [foldl model_columns fst snd]. cbn [mbind option_bind].
  rewrite H0. cbn [mbind option_bind]. rewrite H1. cbn [mbind option_bind].
  rewrite H2. cbn [mbind option_bind]. rewrite H3. cbn [mbind option_bind].
  rewrite H4. reflexivity.
Qed.

Lemma assigned_lookup (row : gmap string string) s d0 d1 d2 d3 d4 :
  assigned row s d0 d1 d2 d3 d4 !! "order_models" = Some s
  ∧ (∀ i col, model_columns !! i = Some col →
       assigned row s d0 d1 d2 d3 d4 !! col = [d0; d1; d2; d3; d4] !! i)
  ∧ (∀ col, col ∉ model_columns → col ≠ "order_models" →
       assigned row s d0 d1 d2 d3 d4 !! col = row !! col).
Proof.
  split; [apply lookup_insert_eq | split].
  - intros i col Hi.
    do 5 (destruct i as [| i];
          [injection Hi as <-;
           rewrite ?lookup_insert_ne by discriminate;
           apply lookup_insert_eq |]).
    discriminate Hi.
  - intros col Hn Ho. unfold model_columns in Hn.
    rewrite !not_elem_of_cons in Hn.
    destruct Hn as (N1 & N2 & N3 & N4 & N5 & _).
    by rewrite !lookup_insert_ne.
Qed.

Lemma randomize_row_shift (latin_orders : list (list string)) idx
    (row : gmap string string) k :
  latin_orders !! idx = Some (cyclic_shift k) → k < 5 →
  (∀ col, col ∈ model_columns → is_Some (row !! col)) →
  ∃ data row',
    randomize_row latin_orders idx row = Some (data, join "," (cyclic_shift k))
    ∧ assign_columns row (data, join "," (cyclic_shift k)) = Some row'
    ∧ row' !! "order_models" = Some (join "," (cyclic_shift k))
    ∧ (∀ i col col',
         model_columns !! i = Some col →
         model_columns !! ((i + k) mod 5) = Some col' →
         row' !! col = row !! col')
    ∧ (∀ col, col ∉ model_columns → col ≠ "order_models" → row' !! col = row !! col).
Proof.
  intros Ho Hk Hcols.
  destruct (Hcols "model1") as [u0 H0]; [repeat constructor |].
  destruct (Hcols "model2") as [u1 H1]; [repeat constructor |].
  destruct (Hcols "model3") as [u2 H2]; [repeat constructor |].
  destruct (Hcols "model4") as [u3 H3]; [repeat constructor |].
  destruct (Hcols "model5") as [u4 H4]; [repeat constructor |].
  assert (∀ j col', model_columns !! j = Some col' →
                    row !! col' = [u0; u1; u2; u3; u4] !! j) as Hrow.
  { intros j col' Hj.
    do 5 (destruct j as [| j]; [by injection Hj as <- |]). discriminate Hj. }
  destruct (randomized_row_data_shift (mapping_of u0 u1 u2 u3 u4) u0 u1 u2 u3 u4 k
              (mapping_of_lookup u0 u1 u2 u3 u4) Hk) as (data & Hdata & Hcells).
  assert (∀ i col, model_columns !! i = Some col → is_Some (data !! col)) as Hsome.
  { intros i col Hi. rewrite (Hcells i col Hi). apply lookup_lt_is_Some_2.
    change (length [u0; u1; u2; u3; u4]) with 5. apply Nat.mod_upper_bound. lia. }
  destruct (Hsome 0 "model1" eq_refl) as [d0 D0].
  destruct (Hsome 1 "model2" eq_refl) as [d1 D1].
  destruct (Hsome 2 "model3" eq_refl) as [d2 D2].
  destruct (Hsome 3 "model4" eq_refl) as [d3 D3].
  destruct (Hsome 4 "model5" eq_refl) as [d4 D4].
  assert (∀ i col, model_columns !! i = Some col →
                   data !! col = [d0; d1; d2; d3; d4] !! i) as Hd.
  { intros i col Hi.
    do 5 (destruct i as [| i]; [by injection Hi as <- |]). discriminate Hi. }
  destruct (assigned_lookup row (join "," (cyclic_shift k)) d0 d1 d2 d3 d4)
    as (L1 & L2 & L3).
  exists data, (assigned row (join "," (cyclic_shift k)) d0 d1 d2 d3 d4).
  split; [| split; [| split; [| split]]].
  - unfold randomize_row. rewrite Ho. cbn [mbind option_bind].
    rewrite (model_url_mapping_Some row u0 u1 u2 u3 u4) by done.
    cbn [mbind option_bind]. by rewrite Hdata.
  - by apply assign_columns_Some.
  - done.
  - intros i col col' Hi Hj.
    by rewrite (L2 i col Hi), <- (Hd i col Hi), (Hcells i col Hi), (Hrow _ col' Hj).
  - done.
Qed.

(** [apply_model_randomization] loses no response and records how to undo
    itself: on a data frame whose rows have the five model columns it
    raises nothing and returns as many rows; row [idx] gets the order
    generated for it, a cyclic shift by some [k] of the model names, whose
    comma-joined text is stored in [order_models] and splits back into the
    order; the new cell of model column [i] is the old cell of model column
    [(i + k) mod 5], whose model name is entry [i] of the order; every
    other column is unchanged. *)
Theorem apply_model_randomization_spec (df : list (gmap string string)) :
  (∀ row col, row ∈ df → col ∈ model_columns → is_Some (row !! col)) →
  ∃ latin_orders randomized_df,
    generate_latin_square_orders rng 5 (Z.of_nat (length df)) = Returns latin_orders
    ∧ apply_model_randomization rng df = Some randomized_df
    ∧ length randomized_df = length df
    ∧ ∀ idx row, df !! idx = Some row →
        ∃ row' k,
          randomized_df !! idx = Some row'
          ∧ k < 5
          ∧ latin_orders !! idx = Some (cyclic_shift k)
          ∧ (∃ order_string,
                row' !! "order_models" = Some order_string
                ∧ split "," order_string = cyclic_shift k)
          ∧ (∀ i col col',
               model_columns !! i = Some col →
               model_columns !! ((i + k) mod 5) = Some col' →
               row' !! col = row !! col'
               ∧ cyclic_shift k !! i = model_names !! ((i + k) mod 5))
          ∧ (∀ col, col ∉ model_columns → col ≠ "order_models" →
                    row' !! col = row !! col).
Proof.
  intros Hcols.
  destruct (generate_latin_square_orders rng 5 (Z.of_nat (length df)))
    as [orders | ? ?] eqn:Hgen; [| discriminate Hgen].
  destruct (generated_orders_balanced _ _ Hgen) as (Hs & Hlen & _).
  rewrite Nat2Z.id in Hlen.
  assert (∀ idx row, df !! idx = Some row →
            ∃ k, k < 5 ∧ orders !! idx = Some (cyclic_shift k)) as Hk.
  { intros idx row Hi.
    destruct (lookup_lt_is_Some_2 orders idx) as [o Ho].
    { rewrite Hlen. by eapply lookup_lt_Some. }
    destruct (Hs o) as (k & Hk & ->); [by eapply list_elem_of_lookup_2 |].
    by exists k. }
  assert (∀ idx row, df !! idx = Some row →
            ∀ col, col ∈ model_columns → is_Some (row !! col)) as Hrow.
  { intros idx row Hi col Hc. apply Hcols; [by eapply list_elem_of_lookup_2 | done]. }
  destruct (mapM_is_Some_2 (λ p, randomize_row orders p.1 p.2) (imap pair df))
    as [items Hitems].
  { apply Forall_lookup. intros idx p Hp.
    apply list_lookup_imap_Some in Hp as (row & Hi & ->). cbn [compose fst snd].
    destruct (Hk idx row Hi) as (k & Hk5 & Ho).
    by destruct (randomize_row_shift orders idx row k Ho Hk5 (Hrow idx row Hi))
      as (data & row' & -> & _). }
  pose proof (mapM_Some_1 _ _ _ Hitems) as F1.
  pose proof (length_mapM _ _ _ Hitems) as Hlen1. rewrite length_imap in Hlen1.
  assert (∀ idx row, df !! idx = Some row →
            ∃ item, items !! idx = Some item
                    ∧ randomize_row orders idx row = Some item) as Hitem.
  { intros idx row Hi.
    destruct (Forall2_lookup_l _ _ _ idx (idx, row) F1) as (item & ? & ?).
    { by rewrite list_lookup_imap, Hi. }
    by exists item. }
  destruct (mapM_is_Some_2 (λ p, assign_columns p.1 p.2) (zip df items))
    as [randomized_df Hdf].
  { apply Forall_lookup. intros idx [row item] Hp.
    apply lookup_zip_Some in Hp as [Hi Hit]. cbn [compose fst snd].
    destruct (Hk idx row Hi) as (k & Hk5 & Ho).
    destruct (Hitem idx row Hi) as (item' & Hit' & Hr).
    assert (item' = item) as -> by congruence.
    destruct (randomize_row_shift orders idx row k Ho Hk5 (Hrow idx row Hi))
      as (data & row' & Hr' & Ha & _).
    rewrite Hr in Hr'. injection Hr' as ->. by rewrite Ha. }
  pose proof (mapM_Some_1 _ _ _ Hdf) as F2.
  pose proof (length_mapM _ _ _ Hdf) as Hlen2. rewrite length_zip in Hlen2.
  assert (snd <$> items = join "," <$> orders) as Hstr.
  { apply list_eq. intros idx. rewrite !list_lookup_fmap.
    destruct (df !! idx) as [row |] eqn:Hi.
    - destruct (Hk idx row Hi) as (k & Hk5 & Ho).
      destruct (Hitem idx row Hi) as (item & Hit & Hr).
      destruct (randomize_row_shift orders idx row k Ho Hk5 (Hrow idx row Hi))
        as (data & row' & Hr' & _).
      rewrite Hr in Hr'. injection Hr' as ->. by rewrite Hit, Ho.
    - apply lookup_ge_None in Hi.
      by rewrite (lookup_ge_None_2 items), (lookup_ge_None_2 orders) by lia. }
  exists orders, randomized_df. split; [done |]. split; [| split].
  - unfold apply_model_randomization. rewrite Hgen, Hitems.
    cbn [mbind option_bind]. rewrite Hdf. cbn [mbind option_bind].
    rewrite Hstr. destruct (position_counts_shifts orders Hs) as (counts & Hc & _).
    unfold verify_latin_square_balance. by rewrite Hc.
  - lia.
  - intros idx row Hi.
    destruct (Hk idx row Hi) as (k & Hk5 & Ho).
    destruct (Hitem idx row Hi) as (item & Hit & Hr).
    destruct (randomize_row_shift orders idx row k Ho Hk5 (Hrow idx row Hi))
      as (data & row' & Hr' & Ha & Horder & Hcells & Hrest).
    rewrite Hr in Hr'. injection Hr' as ->.
    destruct (Forall2_lookup_l _ _ _ idx (row, (data, join "," (cyclic_shift k))) F2)
      as (row'' & Hrow'' & Ha'').
    { by apply lookup_zip_Some. }
    cbn [fst snd] in Ha''. rewrite Ha in Ha''. injection Ha'' as <-.
    exists row', k. split; [done |]. split; [done |]. split; [done |].
    split; [| split; [| done]].
    + eexists. split; [exact Horder |]. by apply split_join_shift.
    + intros i col col' Hc Hc'. split; [by eapply Hcells |].
      apply lookup_lt_Some in Hc. cbn in Hc.
      clear -Hc Hk5.
      do 5 (destruct k as [| k];
            [do 5 (destruct i as [| i]; [reflexivity |]); lia |]).
      lia.
Qed.

End LatinSquareApplied.

Lemma verify_latin_square_balance_passes_witness :
  LatinSquare.verify_latin_square_balance
    (LatinSquare.join "," <$>
       LatinSquare.repeat_orders
         (PyRandom.shuffle (λ n, 7 * n + 3)%nat LatinSquare.latin_square_orders) 7)
    LatinSquare.model_names
  = Some true.
Proof.
  apply (proj2 (verify_latin_square_balance_passes (λ n, 7 * n + 3)%nat 7 _ eq_refl)).
Defined.

Lemma apply_model_randomization_spec_witness :
  ∃ randomized_df,
    LatinSquare.apply_model_randomization (λ n, 7 * n + 3)%nat
      [LatinSquare.example_row; LatinSquare.example_row] = Some randomized_df
    ∧ length randomized_df = 2%nat.
Proof.
  destruct (apply_model_randomization_spec (λ n, 7 * n + 3)%nat
              [LatinSquare.example_row; LatinSquare.example_row])
    as (latin_orders & randomized_df & _ & Hr & Hlen & _).
  - intros row col Hrow Hcol.
    assert (row = LatinSquare.example_row) as ->.
    { apply elem_of_cons in Hrow as [-> | Hrow]; [done |].
      apply elem_of_cons in Hrow as [-> | Hrow]; [done |].
      by apply elem_of_nil in Hrow. }
    unfold LatinSquare.model_columns in Hcol.
    repeat (apply elem_of_cons in Hcol as [-> | Hcol];
            [unfold LatinSquare.example_row;
             rewrite ?lookup_insert_ne by discriminate;
             rewrite lookup_insert_eq; by eexists |]).
    by apply elem_of_nil in Hcol.
  - exists randomized_df. split; [exact Hr | exact Hlen].
Defined.

(** ** Loading data into the SQLite service *)

Section QualtricsLoad.
Import QualtricsDatabase.
Local Arguments String.eqb : simpl never.
Local Open Scope nat_scope.
Local Open Scope list_scope.

Lemma extends_refl db : extends db db.
Proof. by repeat split. Qed.

Lemma extends_trans db1 db2 db3 : extends db1 db2 → extends db2 db3 → extends db1 db3.
Proof.
  intros (A1 & A2 & A3) (B1 & B2 & B3).
  repeat split; by etrans.
Qed.

Lemma head_filter_prefix {A} (P : A → Prop) `{!∀ x, Decision (P x)} (l l' : list A) x :
  l `prefix_of` l' → head (filter P l) = Some x → head (filter P l') = Some x.
Proof.
  intros [k ->] Hh. rewrite filter_app.
  destruct (filter P l); [done |]. done.
Qed.

Lemma filter_prefix_nonempty {A} (P : A → Prop) `{!∀ x, Decision (P x)}
    (l l' : list A) :
  l `prefix_of` l' → filter P l ≠ [] → filter P l' ≠ [].
Proof.
  intros [k ->] Hne. rewrite filter_app. by destruct (filter P l).
Qed.

Lemma select_task_id_extends db db' task_id occ k :
  extends db db' → select_task_id db task_id occ = Some k →
  select_task_id db' task_id occ = Some k.
Proof.
  intros (Ht & _ & _). unfold select_task_id, matching_tasks.
  destruct (head (filter _ (tasks db))) as [t |] eqn:Hh; [| done].
  intros [= <-]. by rewrite (head_filter_prefix _ _ _ t Ht Hh).
Qed.

Lemma select_instance_id_extends db db' task_db_id number i :
  extends db db' → select_instance_id db task_db_id number = Some i →
  select_instance_id db' task_db_id number = Some i.
Proof.
  intros (_ & Hi & _). unfold select_instance_id, matching_instances.
  destruct (head (filter _ (task_instances db))) as [r |] eqn:Hh; [| done].
  intros [= <-]. by rewrite (head_filter_prefix _ _ _ r Hi Hh).
Qed.

Lemma response_stored_extends db db' i model :
  extends db db' → response_stored db i model → response_stored db' i model.
Proof.
  intros (_ & _ & Hr). unfold response_stored, matching_responses.
  by apply filter_prefix_nonempty.
Qed.

Lemma instance_stored_extends db db' k instance :
  extends db db' → instance_stored db k instance → instance_stored db' k instance.
Proof.
  intros He (i & Hi & Hm). exists i. split.
  - by eapply select_instance_id_extends.
  - intros model Hin. eapply response_stored_extends; [done | by apply Hm].
Qed.

Lemma task_stored_extends db db' task :
  extends db db' → task_stored db task → task_stored db' task.
Proof.
  intros He (k & Hk & Hi). exists k. split.
  - by eapply select_task_id_extends.
  - intros instance Hin. eapply instance_stored_extends; [done | by apply Hi].
Qed.

Lemma foldl_max_ge (rest : list Z) (a : Z) :
  (a ≤ foldl Z.max a rest)%Z ∧ ∀ x, x ∈ rest → (x ≤ foldl Z.max a rest)%Z.
Proof.
  revert a. induction rest as [| y rest IH]; intros a; cbn [foldl].
  - split; [lia |]. intros x H. by apply elem_of_nil in H.
  - destruct (IH (Z.max a y)) as [I1 I2]. split; [lia |].
    intros x [-> | Hin]%elem_of_cons; [lia | by apply I2].
Qed.

Lemma next_rowid_fresh (ids : list Z) : next_rowid ids ∉ ids.
Proof.
  destruct ids as [| id rest]; [by intros ?%elem_of_nil |].
  cbn [next_rowid]. destruct (foldl_max_ge rest id) as [H1 H2].
  intros [Heq | Hin]%elem_of_cons; [lia |]. specialize (H2 _ Hin). lia.
Qed.

Lemma NoDup_snoc_fresh (ids : list Z) : NoDup ids → NoDup (ids ++ [next_rowid ids]).
Proof.
  intros Hnd. apply NoDup_app. split; [done |]. split.
  - intros x Hx [-> | H]%elem_of_cons; [by apply (next_rowid_fresh ids) |].
    by apply elem_of_nil in H.
  - apply NoDup_singleton.
Qed.

(** The three inserts. *)
Lemma insert_task_spec db task_id occ :
  extends db (insert_task db task_id occ)
  ∧ is_Some (select_task_id (insert_task db task_id occ) task_id occ)
  ∧ (is_Some (select_task_id db task_id occ) → insert_task db task_id occ = db)
  ∧ (unique_ids db → unique_ids (insert_task db task_id occ)).
Proof.
  unfold insert_task, select_task_id.
  destruct (matching_tasks db task_id occ) as [| t ts] eqn:Hm.
  - split; [| split; [| split]].
    + repeat split; [by eexists | done | done].
    + unfold matching_tasks in *. cbn [tasks]. rewrite filter_app, Hm.
      rewrite filter_cons_True by done. by eexists.
    + by intros [? ?].
    + intros (U1 & U2 & U3). repeat split; [| done | done].
      cbn [tasks]. rewrite fmap_app. by apply NoDup_snoc_fresh.
  - rewrite Hm. split; [apply extends_refl | split; [by eexists | done]].
Qed.

Lemma insert_instance_spec db task_db_id number url :
  extends db (insert_instance db task_db_id number url)
  ∧ is_Some (select_instance_id (insert_instance db task_db_id number url)
               task_db_id number)
  ∧ (is_Some (select_instance_id db task_db_id number) →
     insert_instance db task_db_id number url = db)
  ∧ (unique_ids db → unique_ids (insert_instance db task_db_id number url)).
Proof.
  unfold insert_instance, select_instance_id.
  destruct (matching_instances db task_db_id number) as [| r rs] eqn:Hm.
  - split; [| split; [| split]].
    + repeat split; [done | by eexists | done].
    + unfold matching_instances in *. cbn [task_instances]. rewrite filter_app, Hm.
      rewrite filter_cons_True by done. by eexists.
    + by intros [? ?].
    + intros (U1 & U2 & U3). repeat split; [done | | done].
      cbn [task_instances]. rewrite fmap_app. by apply NoDup_snoc_fresh.
  - rewrite Hm. split; [apply extends_refl | split; [by eexists | done]].
Qed.

Lemma insert_response_spec i db model :
  extends db (insert_response i db model)
  ∧ response_stored (insert_response i db model) i model
  ∧ (response_stored db i model → insert_response i db model = db)
  ∧ (unique_ids db → unique_ids (insert_response i db model)).
Proof.
  unfold insert_response, response_stored.
  destruct (matching_responses db i (entry_model_number model)) as [| r rs] eqn:Hm.
  - split; [| split; [| split]].
    + repeat split; [done | done | by eexists].
    + unfold matching_responses in *. cbn [model_responses]. rewrite filter_app, Hm.
      by rewrite filter_cons_True by done.
    + done.
    + intros (U1 & U2 & U3). repeat split; [done | done |].
      cbn [model_responses]. rewrite fmap_app. by apply NoDup_snoc_fresh.
  - by rewrite Hm.
Qed.

(** The loop over the model responses of an instance. *)
Lemma insert_responses_spec i models :
  ∀ db,
    let db' := foldl (insert_response i) db models in
    extends db db'
    ∧ (∀ model, model ∈ models → response_stored db' i model)
    ∧ ((∀ model, model ∈ models → response_stored db i model) → db' = db)
    ∧ (unique_ids db → unique_ids db').
Proof.
  induction models as [| model models IH]; intros db; cbn zeta.
  - split; [apply extends_refl | split; [| done]].
    intros model H. by apply elem_of_nil in H.
  - cbn [foldl].
    destruct (insert_response_spec i db model) as (E1 & S1 & N1 & U1).
    destruct (IH (insert_response i db model)) as (E2 & S2 & N2 & U2). cbn zeta in *.
    split; [by eapply extends_trans | split; [| split]].
    + intros m [-> | Hin]%elem_of_cons; [| by apply S2].
      by eapply response_stored_extends.
    + intros Hall. rewrite N1 in * by (apply Hall, elem_of_cons; by left).
      apply N2. intros m Hin. apply Hall, elem_of_cons. by right.
    + intros U. by apply U2, U1.
Qed.

Lemma load_instance_spec k db instance :
  (∃ db', load_instance k (Some db) instance = Some db'
          ∧ extends db db' ∧ instance_stored db' k instance
          ∧ (unique_ids db → unique_ids db'))
  ∧ (instance_stored db k instance → load_instance k (Some db) instance = Some db).
Proof.
  unfold load_instance. cbn [mbind option_bind].
  destruct (insert_instance_spec db k (entry_instance_number instance)
              (entry_pdf_url instance)) as (E1 & [i Hi] & N1 & U1).
  split.
  - rewrite Hi. cbn [mbind option_bind].
    destruct (insert_responses_spec i (entry_model_responses instance)
                (insert_instance db k (entry_instance_number instance)
                   (entry_pdf_url instance))) as (E2 & S2 & _ & U2).
    cbn zeta in *. eexists. split; [reflexivity |].
    split; [by eapply extends_trans |].
    split; [| by intros U; apply U2, U1].
    exists i. split; [by eapply select_instance_id_extends | done].
  - intros (i' & Hi' & Hm). rewrite N1 by (by eexists).
    rewrite Hi'. cbn [mbind option_bind]. f_equal.
    by apply insert_responses_spec.
Qed.

(** The loop over the instances of a task. *)
Lemma load_instances_spec k instances :
  ∀ db,
    (∃ db', foldl (load_instance k) (Some db) instances = Some db'
            ∧ extends db db'
            ∧ (∀ instance, instance ∈ instances → instance_stored db' k instance)
            ∧ (unique_ids db → unique_ids db'))
    ∧ ((∀ instance, instance ∈ instances → instance_stored db k instance) →
       foldl (load_instance k) (Some db) instances = Some db).
Proof.
  induction instances as [| instance instances IH]; intros db.
  - split; [| done]. exists db. split; [done |]. split; [apply extends_refl |].
    split; [| done]. intros instance H. by apply elem_of_nil in H.
  - cbn [foldl].
    destruct (load_instance_spec k db instance) as ((db1 & L1 & E1 & S1 & U1) & N1).
    split.
    + rewrite L1. destruct (IH db1) as ((db2 & L2 & E2 & S2 & U2) & _).
      exists db2. split; [done |]. split; [by eapply extends_trans |].
      split; [| by intros U; apply U2, U1].
      intros x [-> | Hin]%elem_of_cons; [| by apply S2].
      by eapply instance_stored_extends.
    + intros Hall. rewrite N1 by (apply Hall, elem_of_cons; by left).
      apply IH. intros x Hin. apply Hall, elem_of_cons. by right.
Qed.

Lemma load_task_spec db task :
  (∃ db', load_task (Some db) task = Some db'
          ∧ extends db db' ∧ task_stored db' task
          ∧ (unique_ids db → unique_ids db'))
  ∧ (task_stored db task → load_task (Some db) task = Some db).
Proof.
  unfold load_task. cbn [mbind option_bind].
  destruct (insert_task_spec db (entry_task_id task) (entry_occupation task))
    as (E1 & [k Hk] & N1 & U1).
  split.
  - rewrite Hk. cbn [mbind option_bind].
    destruct (load_instances_spec k (entry_instances task)
                (insert_task db (entry_task_id task) (entry_occupation task)))
      as ((db2 & L2 & E2 & S2 & U2) & _).
    exists db2. split; [done |]. split; [by eapply extends_trans |].
    split; [| by intros U; apply U2, U1].
    exists k. split; [by eapply select_task_id_extends | done].
  - intros (k' & Hk' & Hi). rewrite N1 by (by eexists).
    rewrite Hk'. cbn [mbind option_bind]. by apply load_instances_spec.
Qed.

(** The loop over the tasks of the request. *)
Lemma load_tasks_spec data :
  ∀ db,
    (∃ db', foldl load_task (Some db) data = Some db'
            ∧ extends db db'
            ∧ (∀ task, task ∈ data → task_stored db' task)
            ∧ (unique_ids db → unique_ids db'))
    ∧ ((∀ task, task ∈ data → task_stored db task) →
       foldl load_task (Some db) data = Some db).
Proof.
  induction data as [| task data IH]; intros db.
  - split; [| done]. exists db. split; [done |]. split; [apply extends_refl |].
    split; [| done]. intros task H. by apply elem_of_nil in H.
  - cbn [foldl].
    destruct (load_task_spec db task) as ((db1 & L1 & E1 & S1 & U1) & N1).
    split.
    + rewrite L1. destruct (IH db1) as ((db2 & L2 & E2 & S2 & U2) & _).
      exists db2. split; [done |]. split; [by eapply extends_trans |].
      split; [| by intros U; apply U2, U1].
      intros x [-> | Hin]%elem_of_cons; [| by apply S2].
      by eapply task_stored_extends.
    + intros Hall. rewrite N1 by (apply Hall, elem_of_cons; by left).
      apply IH. intros x Hin. apply Hall, elem_of_cons. by right.
Qed.


(** [INSERT OR IGNORE] makes loading idempotent: a request all of whose
    entries are in the database under their keys changes nothing, whatever
    urls it carries, so stored urls are never updated; in particular
    loading the same request a second time changes nothing. *)
Theorem load_data_ignores_stored (data : list task_entry) (db : database) :
  ((∀ task, task ∈ data → task_stored db task) →
   (load_data (Some data) db).2 = db)
  ∧ load_data (Some data) (load_data (Some data) db).2
    = load_data (Some data) db.
Proof.
  destruct (load_tasks_spec data db) as ((db' & L & E & S & _) & N).
  split.
  - intros Hall. unfold load_data. by rewrite (N Hall).
  - unfold load_data at 2 3. rewrite L. cbn [snd].
    unfold load_data. destruct (load_tasks_spec data db') as (_ & N').
    by rewrite (N' S).
Qed.

End QualtricsLoad.


Lemma load_data_ignores_stored_witness :
  (QualtricsDatabase.load_data (Some QualtricsDatabase.example_request)
     QualtricsDatabase.db_seven).2
  = QualtricsDatabase.db_seven.
Proof.
  apply (proj1 (load_data_ignores_stored QualtricsDatabase.example_request
                  QualtricsDatabase.db_seven)).
  intros task Ht. apply list_elem_of_singleton in Ht as ->.
  exists 1%Z. split; [reflexivity |].
  intros instance Hi. apply list_elem_of_singleton in Hi as ->.
  exists 10%Z. split; [reflexivity |].
  intros model Hm.
  apply elem_of_cons in Hm as [-> | Hm]; [by vm_compute |].
  apply list_elem_of_singleton in Hm as ->. by vm_compute.
Defined.
